(** * lbgpsdo: configuration model, frequency plan and register codec

    A shallow embedding of [lbgpsdo.py] (classes [GPSDO] and [GPSDODevice]):
    the keyword-argument validation of [update], the exact-rational frequency
    plan of [freqplan], the HID feature-report codec of [read_config] and
    [write].

    Python integers are [Z]; [fractions.Fraction] values are [Q] kept in lowest
    terms with [Qred]; [bytes] objects are [list byte]; dictionaries with
    string keys are [gmap string _]; exceptions are the [Raise] branch of
    [result]. *)

From Stdlib Require Import ZArith QArith Qreduction Lia Lqa.
From Stdlib Require Import Strings.Byte.
From stdpp Require Import base option list strings gmap.

Open Scope string_scope.
Open Scope Z_scope.

(** ** Python values and exceptions *)

(** The values a keyword argument or a dictionary entry can hold. [bool] is
    a subclass of [int] in Python, so [isinstance(True, int)] holds. *)
Inductive PyVal : Type :=
  | PyNone
  | PyBool (b : bool)
  | PyInt (z : Z)
  | PyStr (s : string).

(** [isinstance(value, int)], returning the integer the value stands for. *)
Definition as_int (v : PyVal) : option Z :=
  match v with
  | PyBool b => Some (Z.b2z b)
  | PyInt z => Some z
  | _ => None
  end.

(** [bool(value)]. *)
Definition truthy (v : PyVal) : bool :=
  match v with
  | PyNone => false
  | PyBool b => b
  | PyInt z => negb (z =? 0)
  | PyStr s => negb (String.eqb s "")
  end.

(** [a == b] on the values above ([True == 1], [None == None]). *)
Definition py_eqb (a b : PyVal) : bool :=
  match a, b with
  | PyNone, PyNone => true
  | PyStr s, PyStr t => String.eqb s t
  | _, _ =>
      match as_int a, as_int b with
      | Some x, Some y => x =? y
      | _, _ => false
      end
  end.

(** The text of an error message, one constructor per format string of the
    source:
    - [MustBeInteger name]: ["%s must be an integer."]
    - [MustBe name msg]: ["%s must be %s."]
    - [MustBeOneOrEven name]: ["%s must be 1 or even."]
    - [MustBeEven name]: ["%s must be even."]
    - [InvalidDriveLevel]: ["Invalid drive level."]
    - [Undefined name]: ["%s undefined."]
    - [OutOfLimits name value msg]: ["%s is %s, but %s."], the value being
      printed by [_format_freq]
    - [SkewRange skewmax]: ["SKEW must be in the range of 0 to %d (= NC2_LS - 2)"]. *)
Inductive message : Type :=
  | MustBeInteger (name : string)
  | MustBe (name msg : string)
  | MustBeOneOrEven (name : string)
  | MustBeEven (name : string)
  | InvalidDriveLevel
  | Undefined (name : string)
  | OutOfLimits (name : string) (value : Q) (msg : string)
  | SkewRange (skewmax : Z).

Inductive exn : Type :=
  | GPSDOConfigurationException (errdict : gmap string message)
  | ZeroDivisionError
  | TypeError
  | StructError
  | ValueError
  | IndexError
  | KeyError.

Inductive result (A : Type) : Type :=
  | Ok (a : A)
  | Raise (e : exn).

Arguments Ok {A} a.
Arguments Raise {A} e.

Definition bind {A B : Type} (r : result A) (k : A -> result B) : result B :=
  match r with
  | Ok a => k a
  | Raise e => Raise e
  end.

Notation "x <-- r ;; k" := (bind r (fun x => k))
  (at level 100, r at next level, right associativity).

(** ** class GPSDO *)

Definition OUTPUT1 : Z := 1.
Definition OUTPUT2 : Z := 2.

Definition LIMIT_FIN_MIN : Z := 10000.
Definition LIMIT_FIN_MAX : Z := 16000000.
Definition LIMIT_F3_MIN : Z := 10000.
Definition LIMIT_F3_MAX : Z := 2000000.
Definition LIMIT_FOSC_MIN : Z := 4850000000.
Definition LIMIT_FOSC_MAX : Z := 5670000000.
Definition LIMIT_FOUT_MIN : Z := 450.
Definition LIMIT_FOUT_MAX : Z := 808000000.

(** A row [( attr, name, vmin, vmax, even, msg )] of [_CONFIG_CHECKS]. *)
Record config_check : Type := ConfigCheck {
  cc_attr : string;
  cc_name : string;
  cc_vmin : Z;
  cc_vmax : Z;
  cc_even : Z;
  cc_msg : string
}.

Definition _CONFIG_CHECKS : list config_check :=
  [ ConfigCheck "fin"    "GPS reference frequency"     LIMIT_FIN_MIN LIMIT_FIN_MAX 0 "in the range of 10 kHz to 16 MHz";
    ConfigCheck "n3"     "Input divider N3"            1 (2^19) 0 "in the range of 1 to 524288";
    ConfigCheck "n2_hs"  "Feedback divider N2_HS"      4 11     0 "in the range of 4 to 11";
    ConfigCheck "n2_ls"  "Feedback divider N2_LS"      2 (2^20) 2 "in the range of 2 to 1048576";
    ConfigCheck "n1_hs"  "Output common divider N1_HS" 4 11     0 "in the range of 4 to 11";
    ConfigCheck "nc1_ls" "Output 1 divider NC1_LS"     2 (2^20) 1 "in the range of 1 to 1048576";
    ConfigCheck "nc2_ls" "Output 2 divider NC2_LS"     2 (2^20) 1 "in the range of 1 to 1048576";
    ConfigCheck "skew"   "SKEW"                        0 255    0 "in the range of 0 to 255";
    ConfigCheck "bw"     "BWSEL"                       0 15     0 "in the range of 0 to 15" ].

(** A row [( attr, name, lmin, lmax, msg )] of [_FREQ_CHECKS]. *)
Record freq_check : Type := FreqCheck {
  fc_attr : string;
  fc_name : string;
  fc_lmin : Z;
  fc_lmax : Z;
  fc_msg : string
}.

Definition FREQ_CHECK_F3 : freq_check :=
  FreqCheck "f3" "Phase detector frequency" LIMIT_F3_MIN LIMIT_F3_MAX
            "must be in the range of 2 kHz to 2 MHz".
Definition FREQ_CHECK_FOSC : freq_check :=
  FreqCheck "fosc" "Oscillator frequency" LIMIT_FOSC_MIN LIMIT_FOSC_MAX
            "must be in the range of 4.85 GHz to 5.67 GHz".
Definition FREQ_CHECK_FOUT1 : freq_check :=
  FreqCheck "fout1" "Output 1 frequency" LIMIT_FOUT_MIN LIMIT_FOUT_MAX
            "must be in the range of 450 Hz to 808 MHz".
Definition FREQ_CHECK_FOUT2 : freq_check :=
  FreqCheck "fout2" "Output 2 frequency" LIMIT_FOUT_MIN LIMIT_FOUT_MAX
            "must be in the range of 450 Hz to 808 MHz".

Definition _FREQ_CHECKS : list freq_check :=
  [ FREQ_CHECK_F3; FREQ_CHECK_FOSC; FREQ_CHECK_FOUT1; FREQ_CHECK_FOUT2 ].

(** The attributes of a [GPSDO] instance. The nine PLL settings are [None]
    or an integer; an integer-valued [bool] stored by [update] is kept as
    the integer it equals. *)
Record GPSDO : Type := mkGPSDO {
  out1 : bool;
  out2 : bool;
  level : Z;
  fin : option Z;
  n3 : option Z;
  n2_hs : option Z;
  n2_ls : option Z;
  n1_hs : option Z;
  nc1_ls : option Z;
  nc2_ls : option Z;
  skew : option Z;
  bw : option Z
}.

(** [GPSDO.__init__]. *)
Definition init : GPSDO :=
  mkGPSDO false false 0 None None None None None None None (Some 0) (Some 15).

(** [getattr(self, attr, None)] for the attributes named in [_CONFIG_CHECKS]. *)
Definition getattr (self : GPSDO) (attr : string) : option Z :=
  if String.eqb attr "fin" then fin self
  else if String.eqb attr "n3" then n3 self
  else if String.eqb attr "n2_hs" then n2_hs self
  else if String.eqb attr "n2_ls" then n2_ls self
  else if String.eqb attr "n1_hs" then n1_hs self
  else if String.eqb attr "nc1_ls" then nc1_ls self
  else if String.eqb attr "nc2_ls" then nc2_ls self
  else if String.eqb attr "skew" then skew self
  else if String.eqb attr "bw" then bw self
  else None.

(** [setattr(self, attr, value)] for the same attributes. *)
Definition setattr (self : GPSDO) (attr : string) (value : Z) : GPSDO :=
  let v := Some value in
  match self with
  | mkGPSDO o1 o2 lv a b c d e f g h i =>
      if String.eqb attr "fin" then mkGPSDO o1 o2 lv v b c d e f g h i
      else if String.eqb attr "n3" then mkGPSDO o1 o2 lv a v c d e f g h i
      else if String.eqb attr "n2_hs" then mkGPSDO o1 o2 lv a b v d e f g h i
      else if String.eqb attr "n2_ls" then mkGPSDO o1 o2 lv a b c v e f g h i
      else if String.eqb attr "n1_hs" then mkGPSDO o1 o2 lv a b c d v f g h i
      else if String.eqb attr "nc1_ls" then mkGPSDO o1 o2 lv a b c d e v g h i
      else if String.eqb attr "nc2_ls" then mkGPSDO o1 o2 lv a b c d e f v h i
      else if String.eqb attr "skew" then mkGPSDO o1 o2 lv a b c d e f g v i
      else if String.eqb attr "bw" then mkGPSDO o1 o2 lv a b c d e f g h v
      else self
  end.

(** *** update *)

(** One iteration of the loop under "Check the arguments first": the entry
    (if any) the row leaves in [errdict]. The parity branch is entered after
    the range branch and overwrites its message. *)
Definition check_argument (kwargs : gmap string PyVal)
    (errdict : gmap string message) (c : config_check) : gmap string message :=
  match kwargs !! cc_attr c with
  | None => errdict
  | Some PyNone => errdict
  | Some v =>
      match as_int v with
      | None => <[cc_attr c := MustBeInteger (cc_name c)]> errdict
      | Some value =>
          let errdict :=
            if (value <? cc_vmin c) || (value >? cc_vmax c)
            then <[cc_attr c := MustBe (cc_name c) (cc_msg c)]> errdict
            else errdict in
          if negb (cc_even c =? 0) && negb (value mod 2 =? 0) then
            if (cc_even c =? 1) && negb (value =? 1)
            then <[cc_attr c := MustBeOneOrEven (cc_name c)]> errdict
            else <[cc_attr c := MustBeEven (cc_name c)]> errdict
          else errdict
      end
  end.

(** [level is not None and (level < 0 or level > 3)]; ordering a [str]
    against an [int] raises [TypeError]. *)
Definition check_level (level : PyVal) (errdict : gmap string message)
    : result (gmap string message) :=
  match level with
  | PyNone => Ok errdict
  | PyStr _ => Raise TypeError
  | v =>
      match as_int v with
      | Some l =>
          if (l <? 0) || (l >? 3)
          then Ok (<["level" := InvalidDriveLevel]> errdict)
          else Ok errdict
      | None => Ok errdict
      end
  end.

(** One iteration of the loop under "Update the PLL settings". *)
Definition store_argument (kwargs : gmap string PyVal) (self : GPSDO)
    (c : config_check) : GPSDO :=
  match kwargs !! cc_attr c with
  | Some v =>
      match as_int v with
      | Some value => setattr self (cc_attr c) value
      | None => self
      end
  | None => self
  end.

Definition store_outputs (out1' out2' level' : PyVal) (self : GPSDO) : GPSDO :=
  let self :=
    match out1' with
    | PyNone => self
    | v => match self with
           | mkGPSDO _ o2 lv a b c d e f g h i => mkGPSDO (truthy v) o2 lv a b c d e f g h i
           end
    end in
  let self :=
    match out2' with
    | PyNone => self
    | v => match self with
           | mkGPSDO o1 _ lv a b c d e f g h i => mkGPSDO o1 (truthy v) lv a b c d e f g h i
           end
    end in
  match as_int level' with
  | Some l => match self with
              | mkGPSDO o1 o2 _ a b c d e f g h i => mkGPSDO o1 o2 l a b c d e f g h i
              end
  | None => self
  end.

(** [kwargs.pop(key, None)]. *)
Definition kwarg (kwargs : gmap string PyVal) (key : string) : PyVal :=
  default PyNone (kwargs !! key).

(** [GPSDO.update], called with keyword arguments [kwargs]: the instance after the call and the outcome.
    Every [raise] precedes the first [setattr], so on [Raise] the instance
    returned is the one passed in. *)
Definition update (self : GPSDO) (kwargs : gmap string PyVal) : GPSDO * result unit :=
  let out1' := kwarg kwargs "out1" in
  let out2' := kwarg kwargs "out2" in
  let level' := kwarg kwargs "level" in
  let errdict := foldl (check_argument kwargs) ∅ _CONFIG_CHECKS in
  match check_level level' errdict with
  | Raise e => (self, Raise e)
  | Ok errdict =>
      if bool_decide (errdict = ∅) then
        let self := foldl (store_argument kwargs) self _CONFIG_CHECKS in
        (store_outputs out1' out2' level' self, Ok ())
      else (self, Raise (GPSDOConfigurationException errdict))
  end.

(** *** Fraction arithmetic used by freqplan *)

(** [Fraction(a, b)] on two integers: lowest terms, positive denominator. *)
Definition Fraction (a b : Z) : result Q :=
  if b =? 0 then Raise ZeroDivisionError
  else Ok (Qred (inject_Z a / inject_Z b)).

(** [x * k] for a Fraction [x] and an integer [k]. *)
Definition frac_mul_int (x : Q) (k : Z) : Q := Qred (x * inject_Z k).

(** [x / k] for a Fraction [x] and an integer [k]. *)
Definition frac_div_int (x : Q) (k : Z) : result Q :=
  if k =? 0 then Raise ZeroDivisionError
  else Ok (Qred (x / inject_Z k)).

(** [k / x] for an integer [k] and a Fraction [x]. *)
Definition int_div_frac (k : Z) (x : Q) : result Q :=
  if Qeq_bool x 0 then Raise ZeroDivisionError
  else Ok (Qred (inject_Z k / x)).

(** [a % b] on integers; the result has the sign of [b], as [Z.modulo]. *)
Definition py_mod (a b : Z) : result Z :=
  if b =? 0 then Raise ZeroDivisionError else Ok (a mod b).

(** [x < k] and [x > k] for a Fraction [x] and an integer [k]. *)
Definition frac_lt_int (x : Q) (k : Z) : bool := negb (Qle_bool (inject_Z k) x).
Definition frac_gt_int (x : Q) (k : Z) : bool := negb (Qle_bool x (inject_Z k)).

(** *** freqplan *)

Definition set_nc1_ls (self : GPSDO) (v : option Z) : GPSDO :=
  match self with
  | mkGPSDO o1 o2 lv a b c d e _ g h i => mkGPSDO o1 o2 lv a b c d e v g h i
  end.

Definition set_nc2_ls (self : GPSDO) (v : option Z) : GPSDO :=
  match self with
  | mkGPSDO o1 o2 lv a b c d e f _ h i => mkGPSDO o1 o2 lv a b c d e f v h i
  end.

(** The block under [if modify:]. *)
Definition freqplan_modify (self : GPSDO) : GPSDO :=
  let self :=
    if negb (out1 self) && bool_decide (nc1_ls self = None) && out2 self
    then set_nc1_ls self (nc2_ls self) else self in
  let self :=
    if negb (out2 self) && bool_decide (nc2_ls self = None) && out1 self
    then set_nc2_ls self (nc1_ls self) else self in
  if negb (out1 self) && negb (out2 self) then
    let self := if bool_decide (nc1_ls self = None) then set_nc1_ls self (Some 5670) else self in
    if bool_decide (nc2_ls self = None) then set_nc2_ls self (Some 5670) else self
  else self.

(** The loop under "Check for undefined settings". *)
Definition check_undefined (self : GPSDO) (errdict : gmap string (option message))
    (c : config_check) : gmap string (option message) :=
  <[cc_attr c := match getattr self (cc_attr c) with
                 | None => Some (Undefined (cc_name c))
                 | Some _ => None
                 end]> errdict.

(** The eight assignments under "Compute frequency plan", one definition
    per source line. Each is [None] when an operand is [None]. *)
Definition freq_f3 (self : GPSDO) : result (option Q) :=
  match fin self, n3 self with
  | Some a, Some b => (q <-- Fraction a b ;; Ok (Some q))
  | _, _ => Ok None
  end.

Definition freq_fosc (self : GPSDO) (f3 : option Q) : option Q :=
  match f3, n2_hs self, n2_ls self with
  | Some f, Some h, Some l => Some (frac_mul_int (frac_mul_int f h) l)
  | _, _, _ => None
  end.

(** [fout1] with [nc = self.nc1_ls], [fout2] with [nc = self.nc2_ls]. *)
Definition freq_fout (self : GPSDO) (fosc : option Q) (nc : option Z) : result (option Q) :=
  match fosc, n1_hs self, nc with
  | Some f, Some h, Some c => (q <-- frac_div_int f (h * c) ;; Ok (Some q))
  | _, _, _ => Ok None
  end.

Definition freq_phase (self : GPSDO) (fosc : option Q) : result (option Q) :=
  match fosc, n1_hs self, skew self with
  | Some f, Some h, Some s => (q <-- int_div_frac (s * h) f ;; Ok (Some q))
  | _, _, _ => Ok None
  end.

Definition freq_phaseres (self : GPSDO) (fosc : option Q) : result (option Q) :=
  match fosc, n1_hs self with
  | Some f, Some h => (q <-- int_div_frac h f ;; Ok (Some q))
  | _, _ => Ok None
  end.

Definition freq_phaseangle (self : GPSDO) : result (option Q) :=
  match nc2_ls self, skew self with
  | Some c, Some s => (r <-- py_mod s c ;; q <-- Fraction r c ;; Ok (Some q))
  | _, _ => Ok None
  end.

Definition freq_phaseangleres (self : GPSDO) : result (option Q) :=
  match nc2_ls self with
  | Some c => (q <-- Fraction 1 c ;; Ok (Some q))
  | None => Ok None
  end.

(** The dictionary literal [freq]. *)
Definition freq_dict (f3 fosc fout1 fout2 phaseres phase phaseangle phaseangleres : option Q)
    : gmap string (option Q) :=
  <["phaseangleres" := phaseangleres]> (<["phaseangle" := phaseangle]>
  (<["phase" := phase]> (<["phaseres" := phaseres]>
  (<["fout2" := fout2]> (<["fout1" := fout1]>
  (<["fosc" := fosc]> (<["f3" := f3]> ∅))))))).

(** The assignments in source order, then the dictionary. *)
Definition compute_freq (self : GPSDO) : result (gmap string (option Q)) :=
  f3 <-- freq_f3 self ;;
  let fosc := freq_fosc self f3 in
  fout1 <-- freq_fout self fosc (nc1_ls self) ;;
  fout2 <-- freq_fout self fosc (nc2_ls self) ;;
  phase <-- freq_phase self fosc ;;
  phaseres <-- freq_phaseres self fosc ;;
  phaseangle <-- freq_phaseangle self ;;
  phaseangleres <-- freq_phaseangleres self ;;
  Ok (freq_dict f3 fosc fout1 fout2 phaseres phase phaseangle phaseangleres).

(** The verdict of one iteration of the loop under "Check allowed frequency
    ranges". *)
Definition check_frequency (ignore_freq_limits : bool) (c : freq_check)
    (value : option Q) : option message :=
  match value with
  | None => Some (Undefined (fc_name c))
  | Some v =>
      if ignore_freq_limits then None
      else if frac_lt_int v (fc_lmin c) || frac_gt_int v (fc_lmax c)
      then Some (OutOfLimits (fc_name c) v (fc_msg c))
      else None
  end.

(** The loop itself; [freq[attr]] raises [KeyError] on a missing key. *)
Fixpoint check_frequencies (ignore_freq_limits : bool) (freq : gmap string (option Q))
    (errdict : gmap string (option message)) (checks : list freq_check)
    : result (gmap string (option message)) :=
  match checks with
  | [] => Ok errdict
  | c :: checks =>
      match freq !! fc_attr c with
      | None => Raise KeyError
      | Some value =>
          check_frequencies ignore_freq_limits freq
            (<[fc_attr c := check_frequency ignore_freq_limits c value]> errdict) checks
      end
  end.

(** The block under "Check skew". *)
Definition check_skew (self : GPSDO) (errdict : gmap string (option message))
    : gmap string (option message) :=
  let errdict :=
    match skew self, nc2_ls self with
    | Some s, Some c =>
        let skewmax := Z.max (c - 2) 0 in
        if s >? skewmax then <["skew" := Some (SkewRange skewmax)]> errdict
        else errdict
    | _, _ => errdict
    end in
  match errdict !! "skew" with
  | None => <["skew" := None]> errdict
  | Some _ => errdict
  end.

(** [any([ v is not None for v in errdict.values() ])]. *)
Definition any_error (errdict : gmap string (option message)) : bool :=
  existsb (fun kv : string * option message =>
             match kv.2 with Some _ => true | None => false end)
          (map_to_list errdict).

(** The part of [freqplan] after the [modify] block. *)
Definition plan (self : GPSDO) (ignore_freq_limits : bool)
    : result (gmap string (option Q) * gmap string (option message) * bool) :=
  let errdict := foldl (check_undefined self) ∅ _CONFIG_CHECKS in
  freq <-- compute_freq self ;;
  errdict <-- check_frequencies ignore_freq_limits freq errdict _FREQ_CHECKS ;;
  let errdict := check_skew self errdict in
  Ok (freq, errdict, any_error errdict).

(** [GPSDO.freqplan(modify, ignore_freq_limits)]: the instance after the
    call (changed only by the [modify] block) and the tuple returned. *)
Definition freqplan (self : GPSDO) (modify ignore_freq_limits : bool)
    : GPSDO * result (gmap string (option Q) * gmap string (option message) * bool) :=
  let self := if modify then freqplan_modify self else self in
  (self, plan self ignore_freq_limits).


(** [{ a: v for a, v in errdict.items() if v is not None }]. *)
Definition reported (errdict : gmap string (option message)) : gmap string message :=
  omap id errdict.

(** An attribute as the Python value it holds. *)
Definition py_of_attr (a : option Z) : PyVal :=
  match a with
  | Some z => PyInt z
  | None => PyNone
  end.

(** The dictionary literal [configdict] of [asdict]. *)
Definition configdict_of (self : GPSDO) : gmap string PyVal :=
  <["bw" := py_of_attr (bw self)]> (<["skew" := py_of_attr (skew self)]>
  (<["nc2_ls" := py_of_attr (nc2_ls self)]> (<["nc1_ls" := py_of_attr (nc1_ls self)]>
  (<["n1_hs" := py_of_attr (n1_hs self)]> (<["n2_ls" := py_of_attr (n2_ls self)]>
  (<["n2_hs" := py_of_attr (n2_hs self)]> (<["n3" := py_of_attr (n3 self)]>
  (<["fin" := py_of_attr (fin self)]> (<["level" := PyInt (level self)]>
  (<["out2" := PyBool (out2 self)]> (<["out1" := PyBool (out1 self)]> ∅))))))))))).

(** [GPSDO.asdict(ignore_freq_limits)]. *)
Definition asdict (self : GPSDO) (ignore_freq_limits : bool) : result (gmap string PyVal) :=
  r <-- (freqplan self false ignore_freq_limits).2 ;;
  let '(_, errdict, errflag) := r in
  if errflag then Raise (GPSDOConfigurationException (reported errdict))
  else Ok (configdict_of self).

(** ** Byte strings and the struct module *)

Definition byte_to_Z (b : byte) : Z := Z.of_N (Byte.to_N b).

(** The byte holding the low eight bits of [z]. *)
Definition low_byte (z : Z) : byte :=
  default Byte.x00 (Byte.of_N (Z.to_N (z mod 256))).

(** [buf[a:b]] for [0 <= a <= b]. *)
Definition slice {A : Type} (a b : nat) (buf : list A) : list A :=
  take (b - a) (drop a buf).

(** [buf[a:b] = xs] on a list, for [0 <= a <= b <= len(buf)]. *)
Definition assign_slice {A : Type} (a b : nat) (xs : list A) (buf : list A) : list A :=
  take a buf ++ xs ++ drop b buf.

(** [struct.pack("<B", v)]. *)
Definition pack_B (v : Z) : result (list byte) :=
  if (0 <=? v) && (v <=? 255) then Ok [low_byte v] else Raise StructError.

(** [struct.pack("<I", v)]: four bytes, least significant first. *)
Definition pack_I (v : Z) : result (list byte) :=
  if (0 <=? v) && (v <=? 4294967295)
  then Ok [low_byte v; low_byte (v / 256); low_byte (v / 65536); low_byte (v / 16777216)]
  else Raise StructError.

(** [struct.unpack("<B", bs)[0]]. *)
Definition unpack_B (bs : list byte) : result Z :=
  match bs with
  | [b] => Ok (byte_to_Z b)
  | _ => Raise StructError
  end.

(** [struct.unpack("<I", bs)[0]]. *)
Definition unpack_I (bs : list byte) : result Z :=
  match bs with
  | [b0; b1; b2; b3] =>
      Ok (byte_to_Z b0 + 256 * byte_to_Z b1 + 65536 * byte_to_Z b2 + 16777216 * byte_to_Z b3)
  | _ => Raise StructError
  end.

(** [bytes(buf)] on a list of integers: every item must be in [range(256)]. *)
Fixpoint bytes_of (buf : list Z) : result (list byte) :=
  match buf with
  | [] => Ok []
  | z :: buf =>
      if (0 <=? z) && (z <=? 255)
      then (bs <-- bytes_of buf ;; Ok (low_byte z :: bs))
      else Raise ValueError
  end.

(** [buf[i]] on a byte string. *)
Definition index (buf : list byte) (i : nat) : result Z :=
  match buf !! i with
  | Some b => Ok (byte_to_Z b)
  | None => Raise IndexError
  end.

(** ** class GPSDODevice *)

Definition _COMMAND_OUTPUT : Z := 1.
Definition _COMMAND_IDENTIFY : Z := 2.
Definition _COMMAND_LEVEL : Z := 3.
Definition _COMMAND_PLL : Z := 4.

(** The HID handle [self.device] as the codec sees it: what [read(2)] and
    [get_feature_report(9, 60)] return, and the feature reports handed to
    [send_feature_report] so far, oldest first. *)
Record HidDevice : Type := mkHid {
  input_report : list byte;
  feature_report : list byte;
  sent : list (list byte)
}.

Definition send_feature_report (dev : HidDevice) (report : list byte) : HidDevice :=
  mkHid (input_report dev) (feature_report dev) (sent dev ++ [report]).

(** [GPSDODevice.read_status]: the dictionary returned. The same values are
    stored in the status attributes of the instance, which no other method
    modelled here reads. *)
Definition read_status (dev : HidDevice) : result (gmap string PyVal) :=
  let buf := input_report dev in
  b0 <-- index buf 0 ;;
  b1 <-- index buf 1 ;;
  Ok (<["loss_count" := PyInt b0]>
     (<["sat_lock" := PyBool (negb (negb (Z.land b1 1 =? 0)))]>
     (<["pll_lock" := PyBool (negb (negb (Z.land b1 2 =? 0)))]> ∅))).

(** The twelve assignments to [result] in [read_config], applied to the
    buffer returned by [get_feature_report(9, 60)]. *)
Definition decode_config (buf : list byte) : result (gmap string PyVal) :=
  let result : gmap string PyVal := ∅ in
  f0 <-- index buf 0 ;;
  let result := <["out1" := PyBool (negb (Z.land f0 OUTPUT1 =? 0))]> result in
  f0 <-- index buf 0 ;;
  let result := <["out2" := PyBool (negb (Z.land f0 OUTPUT2 =? 0))]> result in
  v <-- unpack_B (slice 1 2 buf) ;;
  let result := <["level" := PyInt v]> result in
  v <-- unpack_I (slice 2 5 buf ++ [Byte.x00]) ;;
  let result := <["fin" := PyInt v]> result in
  v <-- unpack_I (slice 5 8 buf ++ [Byte.x00]) ;;
  let result := <["n3" := PyInt (v + 1)]> result in
  v <-- unpack_B (slice 8 9 buf) ;;
  let result := <["n2_hs" := PyInt (v + 4)]> result in
  v <-- unpack_I (slice 9 12 buf ++ [Byte.x00]) ;;
  let result := <["n2_ls" := PyInt (v + 1)]> result in
  v <-- unpack_B (slice 12 13 buf) ;;
  let result := <["n1_hs" := PyInt (v + 4)]> result in
  v <-- unpack_I (slice 13 16 buf ++ [Byte.x00]) ;;
  let result := <["nc1_ls" := PyInt (v + 1)]> result in
  v <-- unpack_I (slice 16 19 buf ++ [Byte.x00]) ;;
  let result := <["nc2_ls" := PyInt (v + 1)]> result in
  v <-- unpack_B (slice 19 20 buf) ;;
  let result := <["skew" := PyInt v]> result in
  v <-- unpack_B (slice 20 21 buf) ;;
  let result := <["bw" := PyInt v]> result in
  Ok result.

(** [GPSDODevice.read_config(update)]: the instance after the call and the
    dictionary returned. *)
Definition read_config (self : GPSDO) (dev : HidDevice) (update' : bool)
    : GPSDO * result (gmap string PyVal) :=
  match decode_config (feature_report dev) with
  | Raise e => (self, Raise e)
  | Ok result =>
      if update' then
        match update self result with
        | (self, Ok _) => (self, Ok result)
        | (self, Raise e) => (self, Raise e)
        end
      else (self, Ok result)
  end.

(** [GPSDODevice.read(update)]: [result.update(...)] of an empty dictionary
    with the status, then with the configuration. *)
Definition read (self : GPSDO) (dev : HidDevice) (update' : bool)
    : GPSDO * result (gmap string PyVal) :=
  match read_status dev with
  | Raise e => (self, Raise e)
  | Ok status =>
      match read_config self dev update' with
      | (self, Ok config) => (self, Ok (config ∪ status))
      | (self, Raise e) => (self, Raise e)
      end
  end.

(** *** write *)

(** [a - k] on an attribute; [None - k] raises [TypeError]. *)
Definition attr_minus (a : option Z) (k : Z) : result Z :=
  match a with
  | Some z => Ok (z - k)
  | None => Raise TypeError
  end.

(** [struct.pack] of an attribute; [None] is not an integer. *)
Definition attr_plain (a : option Z) : result Z :=
  match a with
  | Some z => Ok z
  | None => Raise StructError
  end.

(** [60 * [ 0 ]] with [buf[0] = command]. *)
Definition blank_report (command : Z) : list Z :=
  <[0%nat := command]> (replicate 60 0).

(** The body of the "Upload PLL settings" branch up to [bytes(buf)]. *)
Definition pll_report (self : GPSDO) : result (list byte) :=
  let buf := blank_report _COMMAND_PLL in
  v <-- attr_plain (fin self) ;; p <-- pack_I v ;;
  let buf := assign_slice 1 4 (byte_to_Z <$> slice 0 3 p) buf in
  v <-- attr_minus (n3 self) 1 ;; p <-- pack_I v ;;
  let buf := assign_slice 4 7 (byte_to_Z <$> slice 0 3 p) buf in
  v <-- attr_minus (n2_hs self) 4 ;; p <-- pack_B v ;;
  let buf := assign_slice 7 8 (byte_to_Z <$> slice 0 1 p) buf in
  v <-- attr_minus (n2_ls self) 1 ;; p <-- pack_I v ;;
  let buf := assign_slice 8 11 (byte_to_Z <$> slice 0 3 p) buf in
  v <-- attr_minus (n1_hs self) 4 ;; p <-- pack_B v ;;
  let buf := assign_slice 11 12 (byte_to_Z <$> slice 0 1 p) buf in
  v <-- attr_minus (nc1_ls self) 1 ;; p <-- pack_I v ;;
  let buf := assign_slice 12 15 (byte_to_Z <$> slice 0 3 p) buf in
  v <-- attr_minus (nc2_ls self) 1 ;; p <-- pack_I v ;;
  let buf := assign_slice 15 18 (byte_to_Z <$> slice 0 3 p) buf in
  v <-- attr_plain (skew self) ;; p <-- pack_B v ;;
  let buf := assign_slice 18 19 (byte_to_Z <$> slice 0 1 p) buf in
  v <-- attr_plain (bw self) ;; p <-- pack_B v ;;
  let buf := assign_slice 19 20 (byte_to_Z <$> slice 0 1 p) buf in
  bytes_of buf.

(** The body of the "Upload drive level" branch up to [bytes(buf)]. *)
Definition level_report (self : GPSDO) : result (list byte) :=
  let buf := blank_report _COMMAND_LEVEL in
  let buf := <[1%nat := level self]> buf in
  bytes_of buf.

(** The body of the "Upload output settings" branch up to [bytes(buf)]. *)
Definition output_report (self : GPSDO) : result (list byte) :=
  let buf := blank_report _COMMAND_OUTPUT in
  let buf := <[1%nat := Z.lor (buf !!! 1%nat) (if out1 self then OUTPUT1 else 0)]> buf in
  let buf := <[1%nat := Z.lor (buf !!! 1%nat) (if out2 self then OUTPUT2 else 0)]> buf in
  bytes_of buf.

(** [value != configdict[key]]. *)
Definition differs (configdict : gmap string PyVal) (value : PyVal) (key : string)
    : result bool :=
  match configdict !! key with
  | Some c => Ok (negb (py_eqb value c))
  | None => Raise KeyError
  end.

(** A chain [(v1 != configdict[k1]) or (v2 != configdict[k2]) or ...],
    evaluated left to right until one disjunct holds. *)
Fixpoint any_differs (configdict : gmap string PyVal) (l : list (PyVal * string))
    : result bool :=
  match l with
  | [] => Ok false
  | (value, key) :: l =>
      d <-- differs configdict value key ;;
      if d then Ok true else any_differs configdict l
  end.

Definition pll_fields (self : GPSDO) : list (PyVal * string) :=
  [ (py_of_attr (fin self), "fin"); (py_of_attr (n3 self), "n3");
    (py_of_attr (n2_hs self), "n2_hs"); (py_of_attr (n2_ls self), "n2_ls");
    (py_of_attr (n1_hs self), "n1_hs"); (py_of_attr (nc1_ls self), "nc1_ls");
    (py_of_attr (nc2_ls self), "nc2_ls"); (py_of_attr (skew self), "skew");
    (py_of_attr (bw self), "bw") ].

Definition level_fields (self : GPSDO) : list (PyVal * string) :=
  [ (PyInt (level self), "level") ].

Definition output_fields (self : GPSDO) : list (PyVal * string) :=
  [ (PyBool (out1 self), "out1"); (PyBool (out2 self), "out2") ].

(** One [if overwrite or ...: buf = ...; send_feature_report(bytes(buf))]. *)
Definition upload (overwrite : bool) (configdict : gmap string PyVal)
    (fields : list (PyVal * string)) (report : result (list byte))
    (dev : HidDevice) : HidDevice * result unit :=
  match (if overwrite then Ok true else any_differs configdict fields) with
  | Raise e => (dev, Raise e)
  | Ok false => (dev, Ok ())
  | Ok true =>
      match report with
      | Raise e => (dev, Raise e)
      | Ok bs => (send_feature_report dev bs, Ok ())
      end
  end.

(** [GPSDODevice.write(overwrite, ignore_freq_limits)]: the HID handle after
    the call, whose [sent] lists what was transmitted, and the outcome. The
    attributes of the instance are not assigned. *)
Definition write (self : GPSDO) (dev : HidDevice) (overwrite ignore_freq_limits : bool)
    : HidDevice * result unit :=
  match (freqplan self false ignore_freq_limits).2 with
  | Raise e => (dev, Raise e)
  | Ok (_, errdict, errflag) =>
      if errflag then (dev, Raise (GPSDOConfigurationException (reported errdict)))
      else
        match (read self dev false).2 with
        | Raise e => (dev, Raise e)
        | Ok configdict =>
            match upload overwrite configdict (pll_fields self) (pll_report self) dev with
            | (dev, Raise e) => (dev, Raise e)
            | (dev, Ok _) =>
                match upload overwrite configdict (level_fields self) (level_report self) dev with
                | (dev, Raise e) => (dev, Raise e)
                | (dev, Ok _) =>
                    upload overwrite configdict (output_fields self) (output_report self) dev
                end
            end
        end
  end.

(** * Auxiliary definitions for the properties *)

(** The message a row of [_CONFIG_CHECKS] leaves in [errdict], if any: the
    parity message wins over the range message. *)
Definition verdict (kwargs : gmap string PyVal) (c : config_check) : option message :=
  match kwargs !! cc_attr c with
  | None | Some PyNone => None
  | Some v =>
      match as_int v with
      | None => Some (MustBeInteger (cc_name c))
      | Some value =>
          if negb (cc_even c =? 0) && negb (value mod 2 =? 0) then
            Some (if (cc_even c =? 1) && negb (value =? 1)
                  then MustBeOneOrEven (cc_name c) else MustBeEven (cc_name c))
          else if (value <? cc_vmin c) || (value >? cc_vmax c)
          then Some (MustBe (cc_name c) (cc_msg c))
          else None
      end
  end.

(** ** The static range table as the specification words it (section 4.2) *)

Inductive parity_rule : Type :=
  | AnyParity
  | StrictlyEven
  | OneOrEven.

Record static_range : Type := StaticRange {
  sr_attr : string;
  sr_min : Z;
  sr_max : Z;
  sr_parity : parity_rule
}.

Definition spec_static_ranges : list static_range :=
  [ StaticRange "fin" 10000 16000000 AnyParity;
    StaticRange "n3" 1 524288 AnyParity;
    StaticRange "n2_hs" 4 11 AnyParity;
    StaticRange "n2_ls" 2 1048576 StrictlyEven;
    StaticRange "n1_hs" 4 11 AnyParity;
    StaticRange "nc1_ls" 1 1048576 OneOrEven;
    StaticRange "nc2_ls" 1 1048576 OneOrEven;
    StaticRange "skew" 0 255 AnyParity;
    StaticRange "bw" 0 15 AnyParity ].



(** The entry for "skew" that [freqplan] returns: "undefined" from the
    first loop, replaced by the range message of the skew check. *)
Definition skew_entry (self : GPSDO) : option message :=
  match skew self, nc2_ls self with
  | Some s, Some c =>
      if s >? Z.max (c - 2) 0 then Some (SkewRange (Z.max (c - 2) 0)) else None
  | Some _, None => None
  | None, _ => Some (Undefined "SKEW")
  end.

(** No defined operand of a division of the frequency plan is zero. *)
Definition no_zero_operand (self : GPSDO) : Prop :=
  fin self <> Some 0 /\ n3 self <> Some 0 /\ n2_hs self <> Some 0 /\
  n2_ls self <> Some 0 /\ n1_hs self <> Some 0 /\ nc1_ls self <> Some 0 /\
  nc2_ls self <> Some 0.

(** ** The register images *)

(** The integer at offset [i] of a report, and the little-endian integer
    in the three bytes from offset [i]. *)
Definition byte_at (buf : list byte) (i : nat) : Z := byte_to_Z (nth i buf Byte.x00).

Definition le24_at (buf : list byte) (i : nat) : Z :=
  byte_at buf i + 256 * byte_at buf (i + 1) + 65536 * byte_at buf (i + 2).

(** The dictionary [read_config] returns for a report of 21 bytes or more. *)
Definition decoded (buf : list byte) : gmap string PyVal :=
  <["bw" := PyInt (byte_at buf 20)]> (<["skew" := PyInt (byte_at buf 19)]>
  (<["nc2_ls" := PyInt (le24_at buf 16 + 1)]> (<["nc1_ls" := PyInt (le24_at buf 13 + 1)]>
  (<["n1_hs" := PyInt (byte_at buf 12 + 4)]> (<["n2_ls" := PyInt (le24_at buf 9 + 1)]>
  (<["n2_hs" := PyInt (byte_at buf 8 + 4)]> (<["n3" := PyInt (le24_at buf 5 + 1)]>
  (<["fin" := PyInt (le24_at buf 2)]> (<["level" := PyInt (byte_at buf 1)]>
  (<["out2" := PyBool (negb (Z.land (byte_at buf 0) OUTPUT2 =? 0))]>
  (<["out1" := PyBool (negb (Z.land (byte_at buf 0) OUTPUT1 =? 0))]> ∅))))))))))).

(** The low three bytes of [struct.pack("<I", v)]. *)
Definition le3 (v : Z) : list byte :=
  [low_byte v; low_byte (v / 256); low_byte (v / 65536)].

(** Modelled from the spec: the device itself (hardware behind the HID
    transport) is not part of the repository. Section 4.4 of the
    specification has the read buffer carry the same fields as the three
    write buffers, one byte higher than the PLL block: byte 0 is payload
    byte 1 of the output block, byte 1 is payload byte 1 of the level block,
    bytes 2..20 are bytes 1..19 of the PLL block. *)
Definition read_image (pll lvl out : list byte) : list byte :=
  slice 1 2 out ++ slice 1 2 lvl ++ slice 1 20 pll.

(** Every PLL setting is defined and inside the range the specification's
    table gives it, and the level is one of 0..3. *)
Definition in_static_ranges (self : GPSDO) : Prop :=
  Forall (fun r => exists v, getattr self (sr_attr r) = Some v /\ sr_min r <= v <= sr_max r)
         spec_static_ranges /\
  0 <= level self <= 3.

(** The dictionary read from the device has, for each of the twelve
    settings, the value the instance holds. *)
Definition agrees (self : GPSDO) (configdict : gmap string PyVal) : Prop :=
  forall key, is_Some (configdict_of self !! key) ->
              configdict !! key = configdict_of self !! key.

(** The offset-adjusted values fit the integers [struct.pack] is asked for:
    32 bits for the three-byte fields, 8 bits for the one-byte fields. *)
Definition packable (a b c d e f g h i : Z) : Prop :=
  0 <= a <= 4294967295 /\ 0 <= b - 1 <= 4294967295 /\ 0 <= c - 4 <= 255 /\
  0 <= d - 1 <= 4294967295 /\ 0 <= e - 4 <= 255 /\ 0 <= f - 1 <= 4294967295 /\
  0 <= g - 1 <= 4294967295 /\ 0 <= h <= 255 /\ 0 <= i <= 255.

(** The three reports [write] builds when every field fits. *)
Definition pll_image (a b c d e f g h i : Z) : list byte :=
  low_byte _COMMAND_PLL :: le3 a ++ le3 (b - 1) ++ [low_byte (c - 4)] ++ le3 (d - 1) ++
  [low_byte (e - 4)] ++ le3 (f - 1) ++ le3 (g - 1) ++ [low_byte h; low_byte i] ++
  replicate 40 Byte.x00.

Definition level_image (lv : Z) : list byte :=
  low_byte _COMMAND_LEVEL :: low_byte lv :: replicate 58 Byte.x00.

Definition output_image (o1 o2 : bool) : list byte :=
  low_byte _COMMAND_OUTPUT ::
  low_byte (Z.lor (Z.lor 0 (if o1 then OUTPUT1 else 0)) (if o2 then OUTPUT2 else 0)) ::
  replicate 58 Byte.x00.

(** ** Example configurations *)

(** A configuration [update] accepts: fin = 10 kHz, n3 = 2, so f3 = 5 kHz;
    fosc = 5 GHz; both outputs at 10 MHz. *)
Definition config_f3_5kHz : GPSDO :=
  mkGPSDO true true 0 (Some 10000) (Some 2) (Some 10) (Some 100000) (Some 5)
          (Some 100) (Some 100) (Some 0) (Some 15).

(** fin = 10 MHz, n3 = 1, n2_hs = 4, n2_ls = 1024, n1_hs = 4, nc1_ls = 1,
    nc2_ls = 1, with any outputs, level, skew and bandwidth. *)
Definition config_exactness (o1 o2 : bool) (lv : Z) (sk bw' : option Z) : GPSDO :=
  mkGPSDO o1 o2 lv (Some 10000000) (Some 1) (Some 4) (Some 1024) (Some 4)
          (Some 1) (Some 1) sk bw'.

(** fin = 2^24, which the three bytes of the register cannot hold, with
    dividers for which [freqplan] reports no error: f3 = 1.048576 MHz,
    fosc = 5.24288 GHz, both outputs at 655.36 MHz. *)
Definition config_fin_overflow : GPSDO :=
  mkGPSDO true true 0 (Some 16777216) (Some 16) (Some 5) (Some 1000) (Some 4)
          (Some 2) (Some 2) (Some 0) (Some 15).

(** A device whose reports are all zero and to which nothing was sent. *)
Definition blank_device : HidDevice :=
  mkHid (replicate 2 Byte.x00) (replicate 60 Byte.x00) [].

(** A device that holds the settings of [config_f3_5kHz]. *)
Definition synced_device : HidDevice :=
  mkHid (replicate 2 Byte.x00)
        (read_image (pll_image 10000 2 10 100000 5 100 100 0 15) (level_image 0)
                    (output_image true true) ++ replicate 39 Byte.x00)
        [].

(** * Further methods and functions *)

(** ** GPSDO._scale_freq *)

(** The loop of [_scale_freq] over the units still to try, on a Fraction:
    [value /= 1000] keeps a Fraction in lowest terms. After the last unit
    the value, divided once more, is returned with the unit "GHz". *)
Fixpoint scale_freq_loop (units : list string) (value : Q) : Q * string :=
  match units with
  | [] => (value, "GHz")
  | u :: units =>
      if frac_lt_int value 1000 then (value, u)
      else scale_freq_loop units (Qred (value / inject_Z 1000))
  end.

(** [GPSDO._scale_freq(value)] for [None] or a Fraction. *)
Definition _scale_freq (value : option Q) : option Q * option string :=
  match value with
  | None => (None, None)
  | Some v =>
      let '(x, u) := scale_freq_loop ["Hz"; "kHz"; "MHz"; "GHz"] v in
      (Some x, Some u)
  end.

(** ** GPSDODevice.identify *)

(** [GPSDODevice.identify(output)] with an integer [output]. *)
Definition identify (dev : HidDevice) (output : Z) : HidDevice * result unit :=
  let buf := blank_report _COMMAND_IDENTIFY in
  let buf := <[1%nat := output]> buf in
  match bytes_of buf with
  | Ok bs => (send_feature_report dev bs, Ok ())
  | Raise e => (dev, Raise e)
  end.

(** ** Device selection *)

Definition USBIDS : list (Z * Z) := [ (0x1dd2, 0x2210); (0x1dd2, 0x2211) ].

(** The entries of a USB device information descriptor that the selection
    reads. *)
Record DeviceInfo : Type := mkDeviceInfo {
  vendor_id : Z;
  product_id : Z;
  serial_number : string;
  path : list byte
}.

#[global] Instance byte_eq_dec : EqDecision byte := Byte.byte_eq_dec.

Module GPSDODevice.

(** [GPSDODevice.enumerate()], given what [hid.enumerate()] yields. *)
Definition enumerate (hid_enumerate : list DeviceInfo) : list DeviceInfo :=
  base.filter (fun d => (vendor_id d, product_id d) ∈ USBIDS) hid_enumerate.

(** One pass of the loop body of [GPSDODevice.filter]: [true] when the
    descriptor is yielded. *)
Definition matches (serial : option string) (device : option (list byte))
    (d : DeviceInfo) : bool :=
  negb (match serial with
        | Some s => negb (String.eqb s (serial_number d))
        | None => false
        end) &&
  negb (match device with
        | Some p => negb (bool_decide (p = path d))
        | None => false
        end).

(** [GPSDODevice.filter(serial, device)]. *)
Definition filter (hid_enumerate : list DeviceInfo) (serial : option string)
    (device : option (list byte)) : list DeviceInfo :=
  base.filter (fun d => matches serial device d = true) (enumerate hid_enumerate).

(** [GPSDODevice.open(serial, device)] up to the call of the constructor:
    the descriptor the instance is made from. *)
Definition open (hid_enumerate : list DeviceInfo) (serial : option string)
    (device : option (list byte)) : result DeviceInfo :=
  match filter hid_enumerate serial device with
  | [] => Raise ValueError
  | [d] => Ok d
  | _ => Raise ValueError
  end.

End GPSDODevice.

(** ** parser_get_config *)

(** [GPSDO.LEVEL_VALUE[level]]: the drive level code of a current in mA. *)
Definition LEVEL_VALUE (level : PyVal) : result Z :=
  match level with
  | PyBool _ | PyInt _ =>
      match as_int level with
      | Some 8 => Ok 0
      | Some 16 => Ok 1
      | Some 24 => Ok 2
      | Some 32 => Ok 3
      | _ => Raise KeyError
      end
  | _ => Raise KeyError
  end.

(** [parser_get_config(args)], the attributes of [args] being the entries
    of a dictionary. *)
Definition parser_get_config (args : gmap string PyVal) : result (gmap string PyVal) :=
  let result :=
    foldl (fun (result : gmap string PyVal) attr => <[attr := kwarg args attr]> result) ∅
          [ "fin"; "n3"; "n2_hs"; "n2_ls"; "n1_hs"; "nc1_ls"; "nc2_ls"; "skew"; "bw";
            "out1"; "out2" ] in
  match kwarg args "level" with
  | PyNone => Ok result
  | level => (l <-- LEVEL_VALUE level ;; Ok (<["level" := PyInt l]> result))
  end.

(** ** Auxiliary definitions for the further properties *)


(** Every PLL setting is defined and passes its row of [_CONFIG_CHECKS],
    and the level is one of 0..3. *)
Definition passes_checks (self : GPSDO) : Prop :=
  Forall (fun c => exists v, getattr self (cc_attr c) = Some v /\
                             (cc_even c = 0 \/ Z.even v = true) /\
                             cc_vmin c <= v <= cc_vmax c) _CONFIG_CHECKS /\
  0 <= level self <= 3.

(** The registers of a feature report, as they are in the buffer, hold a
    configuration [update] accepts: the stored dividers are one less (four
    less for the high-speed dividers) than the settings, so an even N2_LS,
    NC1_LS or NC2_LS is an odd register. *)
Definition registers_accepted (buf : list byte) : Prop :=
  byte_at buf 1 <= 3 /\
  10000 <= le24_at buf 2 <= 16000000 /\
  le24_at buf 5 < 2^19 /\
  byte_at buf 8 <= 7 /\
  (Z.odd (le24_at buf 9) = true /\ le24_at buf 9 < 2^20) /\
  byte_at buf 12 <= 7 /\
  (Z.odd (le24_at buf 13) = true /\ le24_at buf 13 < 2^20) /\
  (Z.odd (le24_at buf 16) = true /\ le24_at buf 16 < 2^20) /\
  byte_at buf 20 <= 15.




(** * Properties *)

(** ** Argument checking in update *)

Lemma check_argument_verdict kwargs (errdict : gmap string message) c :
  check_argument kwargs errdict c =
  match verdict kwargs c with
  | Some m => <[cc_attr c := m]> errdict
  | None => errdict
  end.
Proof.
  unfold check_argument, verdict.
  destruct (kwargs !! cc_attr c) as [v|]; [|reflexivity].
  destruct v as [|b|z|s]; simpl; try reflexivity;
    repeat match goal with |- context [if ?b then _ else _] => destruct b end;
    simpl; rewrite ?insert_insert_eq; reflexivity.
Qed.

Lemma check_argument_is_Some kwargs (errdict : gmap string message) c a :
  is_Some (check_argument kwargs errdict c !! a) <->
  is_Some (errdict !! a) \/ (cc_attr c = a /\ is_Some (verdict kwargs c)).
Proof.
  rewrite check_argument_verdict.
  destruct (verdict kwargs c) as [m|].
  - destruct (decide (cc_attr c = a)) as [->|Hne].
    + rewrite lookup_insert_eq. split; eauto.
    + rewrite lookup_insert_ne by done. split; [eauto|].
      intros [H|[H _]]; [done|contradiction].
  - split; [eauto|]. intros [H|[_ [? H]]]; [done|discriminate].
Qed.

Lemma fold_check_is_Some kwargs rows (errdict : gmap string message) a :
  is_Some (foldl (check_argument kwargs) errdict rows !! a) <->
  is_Some (errdict !! a) \/
  exists c, c ∈ rows /\ cc_attr c = a /\ is_Some (verdict kwargs c).
Proof.
  revert errdict. induction rows as [|c rows IH]; intros errdict; simpl.
  - split; [eauto|]. intros [H|(c & Hc & _)]; [done|]. inversion Hc.
  - rewrite IH, check_argument_is_Some. split.
    + intros [[H|[H1 H2]]|(c' & Hc' & H1 & H2)]; eauto.
      * right. exists c. split; [left|done].
      * right. exists c'. split; [by right|done].
    + intros [H|(c' & Hc' & H1 & H2)]; [eauto|].
      apply elem_of_cons in Hc' as [->|Hc']; eauto 6.
Qed.

Lemma fold_check_empty kwargs rows :
  foldl (check_argument kwargs) ∅ rows = ∅ <->
  Forall (fun c => verdict kwargs c = None) rows.
Proof.
  split.
  - intros He. apply Forall_forall. intros c Hc.
    destruct (verdict kwargs c) as [m|] eqn:Hv; [|done].
    assert (is_Some (foldl (check_argument kwargs) ∅ rows !! cc_attr c)) as [x Hx].
    { apply fold_check_is_Some. right. exists c. rewrite Hv. eauto. }
    rewrite He, lookup_empty in Hx. discriminate.
  - intros Hall. apply map_eq. intros a. rewrite lookup_empty.
    apply eq_None_not_Some. intros Hs.
    apply fold_check_is_Some in Hs as [[x Hx]|(c & Hc & _ & [m Hm])].
    + rewrite lookup_empty in Hx. discriminate.
    + rewrite Forall_forall in Hall. rewrite (Hall c Hc) in Hm. discriminate.
Qed.



(** [update] succeeds exactly when no row objects and the level is absent
    or an integer from 0 to 3. *)
Lemma update_Ok_iff self kwargs :
  (update self kwargs).2 = Ok () <->
  Forall (fun c => verdict kwargs c = None) _CONFIG_CHECKS /\
  match kwarg kwargs "level" with
  | PyNone => True
  | PyStr _ => False
  | v => exists l, as_int v = Some l /\ 0 <= l <= 3
  end.
Proof.
  unfold update. rewrite <- fold_check_empty.
  set (errdict := foldl (check_argument kwargs) ∅ _CONFIG_CHECKS).
  unfold check_level.
  destruct (kwarg kwargs "level") as [|b|z|s]; simpl.
  - case_bool_decide; simpl; split; try done; intros [? _]; done.
  - destruct b; simpl; (case_bool_decide; simpl; split;
      [intros _; split; [done|eexists; split; [done|lia]] | done | done | intros [? _]; done]).
  - destruct (Z.ltb_spec z 0); simpl.
    + case_bool_decide as He; simpl.
      * exfalso. apply (f_equal (fun m : gmap string message => m !! "level")) in He.
        rewrite lookup_insert_eq, lookup_empty in He. discriminate.
      * split; [done|]. intros [_ (l & [= <-] & ?)]. lia.
    + rewrite Z.gtb_ltb. destruct (Z.ltb_spec 3 z); simpl.
      * case_bool_decide as He; simpl.
        -- exfalso. apply (f_equal (fun m : gmap string message => m !! "level")) in He.
           rewrite lookup_insert_eq, lookup_empty in He. discriminate.
        -- split; [done|]. intros [_ (l & [= <-] & ?)]. lia.
      * case_bool_decide; simpl; split; try done.
        -- intros _. split; [done|]. exists z. split; [done|lia].
        -- intros [? _]. done.
  - split; [done|]. intros [_ []].
Qed.

(** On an integer argument a row has no objection exactly when the value
    is in the range of the row and even, if the row asks for a parity. *)
Lemma verdict_int_None kwargs c x v :
  kwargs !! cc_attr c = Some x -> as_int x = Some v ->
  verdict kwargs c = None <->
  (cc_even c = 0 \/ Z.even v = true) /\ cc_vmin c <= v <= cc_vmax c.
Proof.
  intros Hx Hv. unfold verdict. rewrite Hx.
  assert (v mod 2 = if Z.even v then 0 else 1) as Hmod by apply Zmod_even.
  destruct x as [|b|z|s]; simpl in Hv; try discriminate;
    injection Hv as Hv; simpl; rewrite Hv, Hmod, Z.gtb_ltb;
    destruct (Z.eqb_spec (cc_even c) 0), (Z.even v),
      (Z.ltb_spec v (cc_vmin c)), (Z.ltb_spec (cc_vmax c) v); simpl;
    split; try done; try (intros [[?|?] ?]; try done; lia); try (intros _; split; [eauto|lia]).
Qed.


Lemma verdict_absent kwargs c :
  kwargs !! cc_attr c = None -> verdict kwargs c = None.
Proof. intros H. unfold verdict. by rewrite H. Qed.

(** No two rows of [_CONFIG_CHECKS] are about the same attribute, and none
    is about the level. *)
Lemma config_checks_attr_inj c c' :
  c ∈ _CONFIG_CHECKS -> c' ∈ _CONFIG_CHECKS -> cc_attr c = cc_attr c' -> c = c'.
Proof.
  intros Hc Hc'. unfold _CONFIG_CHECKS in Hc, Hc'.
  repeat (apply elem_of_cons in Hc as [->|Hc]); [ | | | | | | | | | inversion Hc];
    repeat (apply elem_of_cons in Hc' as [->|Hc']); try (by inversion Hc');
    first [reflexivity | discriminate].
Qed.

Lemma config_checks_not_level c : c ∈ _CONFIG_CHECKS -> cc_attr c <> "level".
Proof.
  intros Hc. unfold _CONFIG_CHECKS in Hc.
  repeat (apply elem_of_cons in Hc as [->|Hc]); [ | | | | | | | | | inversion Hc];
    discriminate.
Qed.

(** A call [update(attr = v)] with a single integer argument succeeds
    exactly when the row of [attr] has no objection to [v]. *)
Lemma update_single_Ok_iff self c v :
  c ∈ _CONFIG_CHECKS ->
  (update self {[cc_attr c := PyInt v]}).2 = Ok () <->
  (cc_even c = 0 \/ Z.even v = true) /\ cc_vmin c <= v <= cc_vmax c.
Proof.
  intros Hc. rewrite update_Ok_iff.
  rewrite <- (verdict_int_None {[cc_attr c := PyInt v]} c (PyInt v) v)
    by (try apply lookup_singleton_eq; done).
  unfold kwarg. rewrite lookup_singleton_ne by (by apply config_checks_not_level).
  cbn [default from_option]. rewrite Forall_forall. split.
  - intros [Hall _]. by apply Hall.
  - intros Hv. split; [|done]. intros c' Hc'.
    destruct (decide (cc_attr c' = cc_attr c)) as [Heq|Hne].
    + by rewrite (config_checks_attr_inj c' c Hc' Hc Heq).
    + apply verdict_absent. by apply lookup_singleton_ne.
Qed.

(** C1 (what the code does): [update(nc1_ls = 1)] and [update(nc2_ls = 1)]
    raise GPSDOConfigurationException with the message "must be even" and
    leave the instance as it was: the rows of nc1_ls and nc2_ls have the
    lower bound 2, and a value of 1 that passes the test for "must be 1 or
    even" falls through to the message of the strict rule. The values
    accepted for nc1_ls, nc2_ls and n2_ls alike are the even integers from 2
    to 1048576. *)
Theorem C1_update_nc_ls_one_rejected (self : GPSDO) :
  update self {["nc1_ls" := PyInt 1]} =
    (self, Raise (GPSDOConfigurationException
                    {["nc1_ls" := MustBeEven "Output 1 divider NC1_LS"]})) /\
  update self {["nc2_ls" := PyInt 1]} =
    (self, Raise (GPSDOConfigurationException
                    {["nc2_ls" := MustBeEven "Output 2 divider NC2_LS"]})) /\
  (forall v, (update self {["nc1_ls" := PyInt v]}).2 = Ok () <->
             2 <= v <= 1048576 /\ Z.even v = true) /\
  (forall v, (update self {["nc2_ls" := PyInt v]}).2 = Ok () <->
             2 <= v <= 1048576 /\ Z.even v = true) /\
  (forall v, (update self {["n2_ls" := PyInt v]}).2 = Ok () <->
             2 <= v <= 1048576 /\ Z.even v = true).
Proof.
  split; [vm_compute; reflexivity|]. split; [vm_compute; reflexivity|].
  assert (forall i c, _CONFIG_CHECKS !! i = Some c -> c ∈ _CONFIG_CHECKS) as Hin
    by (intros i c Hi; eapply list_elem_of_lookup_2, Hi).
  split; [|split]; intros v.
  - rewrite (update_single_Ok_iff self _ v (Hin 5%nat _ eq_refl)). simpl.
    change (2 ^ 20) with 1048576. intuition lia.
  - rewrite (update_single_Ok_iff self _ v (Hin 6%nat _ eq_refl)). simpl.
    change (2 ^ 20) with 1048576. intuition lia.
  - rewrite (update_single_Ok_iff self _ v (Hin 3%nat _ eq_refl)). simpl.
    change (2 ^ 20) with 1048576. intuition lia.
Qed.

(** The other calls named with the parity rules: [update(nc1_ls = 3)],
    [update(n2_ls = 3)] and [update(n2_ls = 1)] raise. *)
Lemma update_parity_examples (self : GPSDO) :
  update self {["nc1_ls" := PyInt 3]} =
    (self, Raise (GPSDOConfigurationException
                    {["nc1_ls" := MustBeOneOrEven "Output 1 divider NC1_LS"]})) /\
  update self {["n2_ls" := PyInt 3]} =
    (self, Raise (GPSDOConfigurationException
                    {["n2_ls" := MustBeEven "Feedback divider N2_LS"]})) /\
  update self {["n2_ls" := PyInt 1]} =
    (self, Raise (GPSDOConfigurationException
                    {["n2_ls" := MustBeEven "Feedback divider N2_LS"]})).
Proof. repeat split; vm_compute; reflexivity. Qed.



(** ** The frequency plan *)

Lemma freq_dict_lookup f3 fosc fout1 fout2 phaseres phase phaseangle phaseangleres :
  let d := freq_dict f3 fosc fout1 fout2 phaseres phase phaseangle phaseangleres in
  d !! "f3" = Some f3 /\ d !! "fosc" = Some fosc /\
  d !! "fout1" = Some fout1 /\ d !! "fout2" = Some fout2 /\
  d !! "phaseres" = Some phaseres /\ d !! "phase" = Some phase /\
  d !! "phaseangle" = Some phaseangle /\ d !! "phaseangleres" = Some phaseangleres.
Proof.
  unfold freq_dict. repeat split;
    repeat (rewrite lookup_insert_ne by done); apply lookup_insert_eq.
Qed.

(** What a successful [compute_freq] has computed. *)
Lemma compute_freq_inv self freq :
  compute_freq self = Ok freq ->
  exists f3 fout1 fout2 phase phaseres phaseangle phaseangleres,
    freq_f3 self = Ok f3 /\
    freq_fout self (freq_fosc self f3) (nc1_ls self) = Ok fout1 /\
    freq_fout self (freq_fosc self f3) (nc2_ls self) = Ok fout2 /\
    freq_phase self (freq_fosc self f3) = Ok phase /\
    freq_phaseres self (freq_fosc self f3) = Ok phaseres /\
    freq_phaseangle self = Ok phaseangle /\
    freq_phaseangleres self = Ok phaseangleres /\
    freq = freq_dict f3 (freq_fosc self f3) fout1 fout2 phaseres phase
                     phaseangle phaseangleres.
Proof.
  unfold compute_freq. intros H.
  destruct (freq_f3 self) as [f3|] eqn:H1; simpl in H; [|discriminate].
  destruct (freq_fout self (freq_fosc self f3) (nc1_ls self)) as [fout1|] eqn:H2;
    simpl in H; [|discriminate].
  destruct (freq_fout self (freq_fosc self f3) (nc2_ls self)) as [fout2|] eqn:H3;
    simpl in H; [|discriminate].
  destruct (freq_phase self (freq_fosc self f3)) as [phase|] eqn:H4;
    simpl in H; [|discriminate].
  destruct (freq_phaseres self (freq_fosc self f3)) as [phaseres|] eqn:H5;
    simpl in H; [|discriminate].
  destruct (freq_phaseangle self) as [phaseangle|] eqn:H6; simpl in H; [|discriminate].
  destruct (freq_phaseangleres self) as [phaseangleres|] eqn:H7; simpl in H; [|discriminate].
  injection H as <-.
  exists f3, fout1, fout2, phase, phaseres, phaseangle, phaseangleres.
  repeat split; assumption.
Qed.

Lemma check_undefined_skew self :
  foldl (check_undefined self) ∅ _CONFIG_CHECKS !! "skew" =
  Some (match skew self with None => Some (Undefined "SKEW") | Some _ => None end).
Proof.
  unfold _CONFIG_CHECKS, check_undefined. simpl.
  rewrite lookup_insert_ne by done. apply lookup_insert_eq.
Qed.

Lemma check_skew_lookup_ne self (errdict : gmap string (option message)) k :
  k <> "skew" -> check_skew self errdict !! k = errdict !! k.
Proof.
  intros Hk. unfold check_skew.
  destruct (skew self) as [s|], (nc2_ls self) as [c|];
    repeat match goal with
           | |- context [if ?b then _ else _] => destruct b
           | |- context [match ?m !! "skew" with _ => _ end] => destruct (m !! "skew")
           end;
    repeat (rewrite lookup_insert_ne by done); reflexivity.
Qed.

Lemma check_skew_lookup self (errdict : gmap string (option message)) :
  errdict !! "skew" =
    Some (match skew self with None => Some (Undefined "SKEW") | Some _ => None end) ->
  check_skew self errdict !! "skew" = Some (skew_entry self).
Proof.
  intros He. unfold check_skew, skew_entry.
  destruct (skew self) as [s|], (nc2_ls self) as [c|];
    try destruct (s >? Z.max (c - 2) 0);
    rewrite ?lookup_insert_eq, ?He; try reflexivity;
    rewrite ?lookup_insert_eq, ?He; reflexivity.
Qed.

(** What a successful [plan] returns: the frequencies, the verdicts on the
    four checked frequencies and on the skew, and the flag. *)
Lemma plan_inv self ign freq errdict flag :
  plan self ign = Ok (freq, errdict, flag) ->
  exists f3 fout1 fout2 phase phaseres phaseangle phaseangleres,
    (freq_f3 self = Ok f3 /\
     freq_fout self (freq_fosc self f3) (nc1_ls self) = Ok fout1 /\
     freq_fout self (freq_fosc self f3) (nc2_ls self) = Ok fout2 /\
     freq_phase self (freq_fosc self f3) = Ok phase /\
     freq_phaseres self (freq_fosc self f3) = Ok phaseres /\
     freq_phaseangle self = Ok phaseangle /\
     freq_phaseangleres self = Ok phaseangleres /\
     freq = freq_dict f3 (freq_fosc self f3) fout1 fout2 phaseres phase
                      phaseangle phaseangleres) /\
    errdict !! "f3" = Some (check_frequency ign FREQ_CHECK_F3 f3) /\
    errdict !! "fosc" = Some (check_frequency ign FREQ_CHECK_FOSC (freq_fosc self f3)) /\
    errdict !! "fout1" = Some (check_frequency ign FREQ_CHECK_FOUT1 fout1) /\
    errdict !! "fout2" = Some (check_frequency ign FREQ_CHECK_FOUT2 fout2) /\
    errdict !! "skew" = Some (skew_entry self) /\
    flag = any_error errdict.
Proof.
  unfold plan. intros H.
  destruct (compute_freq self) as [freq'|] eqn:Hc; cbn [bind] in H; [|discriminate].
  destruct (compute_freq_inv self freq' Hc)
    as (f3 & fout1 & fout2 & phase & phaseres & pa & par & Hall).
  exists f3, fout1, fout2, phase, phaseres, pa, par.
  destruct Hall as (? & ? & ? & ? & ? & ? & ? & ->).
  pose proof (freq_dict_lookup f3 (freq_fosc self f3) fout1 fout2 phaseres phase pa par)
    as (L1 & L2 & L3 & L4 & _).
  unfold _FREQ_CHECKS in H. cbn [check_frequencies] in H.
  unfold FREQ_CHECK_F3 at 1, FREQ_CHECK_FOSC at 1, FREQ_CHECK_FOUT1 at 1,
         FREQ_CHECK_FOUT2 at 1 in H.
  cbn [fc_attr] in H.
  rewrite L1, L2, L3, L4 in H. cbn [bind] in H.
  match type of H with
  | Ok (?fr, ?E, ?fl) = _ =>
      assert (freq = fr /\ errdict = E /\ flag = fl) as (-> & -> & ->)
        by (repeat split; congruence)
  end.
  clear H.
  split; [repeat split; assumption|].
  repeat split.
  - rewrite check_skew_lookup_ne by done.
    repeat (rewrite lookup_insert_ne by done). apply lookup_insert_eq.
  - rewrite check_skew_lookup_ne by done.
    repeat (rewrite lookup_insert_ne by done). apply lookup_insert_eq.
  - rewrite check_skew_lookup_ne by done.
    repeat (rewrite lookup_insert_ne by done). apply lookup_insert_eq.
  - rewrite check_skew_lookup_ne by done. apply lookup_insert_eq.
  - apply check_skew_lookup.
    repeat (rewrite lookup_insert_ne by done). apply check_undefined_skew.
Qed.

Lemma frac_lt_int_true x k : frac_lt_int x k = true <-> (x < inject_Z k)%Q.
Proof.
  unfold frac_lt_int. rewrite negb_true_iff, <- not_true_iff_false, Qle_bool_iff.
  split; [apply Qnot_le_lt | apply Qlt_not_le].
Qed.

Lemma frac_gt_int_true x k : frac_gt_int x k = true <-> (inject_Z k < x)%Q.
Proof.
  unfold frac_gt_int. rewrite negb_true_iff, <- not_true_iff_false, Qle_bool_iff.
  split; [apply Qnot_le_lt | apply Qlt_not_le].
Qed.

(** The verdict on a defined frequency when the limits are not ignored. *)
Lemma check_frequency_limits c v :
  ((v < inject_Z (fc_lmin c) \/ inject_Z (fc_lmax c) < v)%Q ->
   check_frequency false c (Some v) = Some (OutOfLimits (fc_name c) v (fc_msg c))) /\
  (~ (v < inject_Z (fc_lmin c) \/ inject_Z (fc_lmax c) < v)%Q ->
   check_frequency false c (Some v) = None).
Proof.
  unfold check_frequency.
  destruct (frac_lt_int v (fc_lmin c)) eqn:Hlt; [|destruct (frac_gt_int v (fc_lmax c)) eqn:Hgt];
    simpl; split; intros H; try reflexivity; exfalso.
  - apply H. left. by apply frac_lt_int_true.
  - apply H. right. by apply frac_gt_int_true.
  - destruct H as [H|H].
    + apply frac_lt_int_true in H. congruence.
    + apply frac_gt_int_true in H. congruence.
Qed.

(** The [modify] block assigns to [nc1_ls] and [nc2_ls] only, and only
    where they are [None]. *)
Lemma freqplan_modify_keeps self :
  let self' := freqplan_modify self in
  fin self' = fin self /\ n3 self' = n3 self /\ n2_hs self' = n2_hs self /\
  n2_ls self' = n2_ls self /\ n1_hs self' = n1_hs self /\ skew self' = skew self /\
  (forall c, nc1_ls self = Some c -> nc1_ls self' = Some c) /\
  (forall c, nc2_ls self = Some c -> nc2_ls self' = Some c).
Proof.
  destruct self as [o1 o2 lv a b c d e f g h i]. unfold freqplan_modify. simpl.
  destruct o1, o2, f as [f|], g as [g|]; simpl; repeat split; intros; congruence.
Qed.

Lemma freqplan_unfold self modify ign :
  (freqplan self modify ign).2 =
  plan (if modify then freqplan_modify self else self) ign.
Proof. reflexivity. Qed.

(** *** freqplan returns when no defined operand of a division is zero *)

Lemma Qeq_0_num q : (q == 0)%Q <-> Qnum q = 0.
Proof. unfold Qeq. simpl. lia. Qed.

Lemma Qred_num_0 q : Qnum (Qred q) = 0 <-> Qnum q = 0.
Proof.
  rewrite <- !Qeq_0_num. split; intros H.
  - eapply Qeq_trans; [apply Qeq_sym, Qred_correct|exact H].
  - eapply Qeq_trans; [apply Qred_correct|exact H].
Qed.

Lemma Qdiv_num_0 a b : a <> 0 -> b <> 0 -> Qnum (inject_Z a / inject_Z b) <> 0.
Proof.
  intros Ha Hb. unfold Qdiv, Qinv, Qmult, inject_Z. simpl.
  destruct b as [|p|p]; simpl; lia.
Qed.

Lemma freq_f3_total self :
  fin self <> Some 0 -> n3 self <> Some 0 ->
  exists f3, freq_f3 self = Ok f3 /\ forall q, f3 = Some q -> Qnum q <> 0.
Proof.
  intros Ha Hb. unfold freq_f3, Fraction.
  destruct (fin self) as [a|], (n3 self) as [b|]; try (eexists; split; [reflexivity|done]).
  destruct (Z.eqb_spec b 0) as [->|Hne]; [done|]. simpl.
  eexists; split; [reflexivity|]. intros q [= <-].
  rewrite Qred_num_0. apply Qdiv_num_0; congruence.
Qed.

Lemma freq_fosc_nonzero self f3 :
  (forall q, f3 = Some q -> Qnum q <> 0) ->
  n2_hs self <> Some 0 -> n2_ls self <> Some 0 ->
  forall q, freq_fosc self f3 = Some q -> Qnum q <> 0.
Proof.
  intros Hf Hh Hl q. unfold freq_fosc, frac_mul_int.
  destruct f3 as [f|], (n2_hs self) as [h|], (n2_ls self) as [l|]; try done.
  intros [= <-]. specialize (Hf f eq_refl).
  assert (h <> 0) by congruence. assert (l <> 0) by congruence.
  assert (forall x k, Qnum x <> 0 -> k <> 0 -> Qnum (Qred (x * inject_Z k)) <> 0) as Hmul.
  { intros x k Hx Hk. rewrite Qred_num_0.
    change (Qnum (x * inject_Z k)) with (Qnum x * k). nia. }
  auto.
Qed.

Lemma freq_fout_total self fosc nc :
  n1_hs self <> Some 0 -> nc <> Some 0 -> exists r, freq_fout self fosc nc = Ok r.
Proof.
  intros Hh Hc. unfold freq_fout, frac_div_int.
  destruct fosc as [f|], (n1_hs self) as [h|], nc as [c|]; try (eexists; reflexivity).
  assert (h <> 0) by congruence. assert (c <> 0) by congruence.
  destruct (Z.eqb_spec (h * c) 0); [nia|]. simpl. eexists; reflexivity.
Qed.

Lemma int_div_frac_total k f : Qnum f <> 0 -> exists q, int_div_frac k f = Ok q.
Proof.
  intros Hf. unfold int_div_frac.
  destruct (Qeq_bool f 0) eqn:He; [|eexists; reflexivity].
  apply Qeq_bool_iff, Qeq_0_num in He. contradiction.
Qed.

Lemma freq_phase_total self fosc :
  (forall q, fosc = Some q -> Qnum q <> 0) -> exists r, freq_phase self fosc = Ok r.
Proof.
  intros Hf. unfold freq_phase.
  destruct fosc as [f|], (n1_hs self) as [h|], (skew self) as [s|];
    try (eexists; reflexivity).
  destruct (int_div_frac_total (s * h) f (Hf f eq_refl)) as [q ->]. simpl. eauto.
Qed.

Lemma freq_phaseres_total self fosc :
  (forall q, fosc = Some q -> Qnum q <> 0) -> exists r, freq_phaseres self fosc = Ok r.
Proof.
  intros Hf. unfold freq_phaseres.
  destruct fosc as [f|], (n1_hs self) as [h|]; try (eexists; reflexivity).
  destruct (int_div_frac_total h f (Hf f eq_refl)) as [q ->]. simpl. eauto.
Qed.

Lemma freq_phaseangle_total self :
  nc2_ls self <> Some 0 ->
  (exists r, freq_phaseangle self = Ok r) /\ (exists r, freq_phaseangleres self = Ok r).
Proof.
  intros Hc. unfold freq_phaseangle, freq_phaseangleres, py_mod, Fraction.
  destruct (nc2_ls self) as [c|]; [|split; eexists; reflexivity].
  destruct (Z.eqb_spec c 0) as [->|Hne]; [done|].
  destruct (skew self); simpl; split; eexists; reflexivity.
Qed.

Lemma check_frequencies_dict ign f3 fosc fout1 fout2 phaseres phase pa par
    (errdict : gmap string (option message)) :
  exists errdict',
    check_frequencies ign (freq_dict f3 fosc fout1 fout2 phaseres phase pa par)
                      errdict _FREQ_CHECKS = Ok errdict'.
Proof.
  pose proof (freq_dict_lookup f3 fosc fout1 fout2 phaseres phase pa par)
    as (L1 & L2 & L3 & L4 & _).
  unfold _FREQ_CHECKS. cbn [check_frequencies].
  unfold FREQ_CHECK_F3 at 1, FREQ_CHECK_FOSC at 1, FREQ_CHECK_FOUT1 at 1,
         FREQ_CHECK_FOUT2 at 1.
  cbn [fc_attr]. rewrite L1, L2, L3, L4. eexists; reflexivity.
Qed.

(** [plan], and with it [freqplan], returns without [ZeroDivisionError] or
    [KeyError] when no defined operand of a division is zero. *)
Lemma plan_returns self ign :
  no_zero_operand self -> exists r, plan self ign = Ok r.
Proof.
  intros (Hfin & Hn3 & Hn2h & Hn2l & Hn1 & Hc1 & Hc2).
  destruct (freq_f3_total self Hfin Hn3) as (f3 & H3 & Hf3).
  pose proof (freq_fosc_nonzero self f3 Hf3 Hn2h Hn2l) as Hosc.
  destruct (freq_fout_total self (freq_fosc self f3) (nc1_ls self) Hn1 Hc1) as [fout1 H1].
  destruct (freq_fout_total self (freq_fosc self f3) (nc2_ls self) Hn1 Hc2) as [fout2 H2].
  destruct (freq_phase_total self (freq_fosc self f3) Hosc) as [phase Hph].
  destruct (freq_phaseres_total self (freq_fosc self f3) Hosc) as [phaseres Hpr].
  destruct (freq_phaseangle_total self Hc2) as [[pa Hpa] [par Hpar]].
  unfold plan, compute_freq. rewrite H3. cbn [bind].
  rewrite H1. cbn [bind]. rewrite H2. cbn [bind]. rewrite Hph. cbn [bind].
  rewrite Hpr. cbn [bind]. rewrite Hpa. cbn [bind]. rewrite Hpar. cbn [bind].
  destruct (check_frequencies_dict ign f3 (freq_fosc self f3) fout1 fout2 phaseres
              phase pa par (foldl (check_undefined self) ∅ _CONFIG_CHECKS)) as [e' ->].
  cbn [bind]. eexists; reflexivity.
Qed.

(** C3 (as the code has it): when fin and n3 are defined and the limits are
    not ignored, the report flags f3 = fin/n3 if and only if f3 < 10 kHz or
    f3 > 2 MHz ([LIMIT_F3_MIN] is 10000), and the message is the
    range-violation message of the phase detector frequency. *)
Theorem C3_f3_limit_check (self : GPSDO) (modify : bool) (a b : Z)
    (freq : gmap string (option Q)) (errdict : gmap string (option message))
    (flag : bool) :
  fin self = Some a -> n3 self = Some b ->
  (freqplan self modify false).2 = Ok (freq, errdict, flag) ->
  exists v : Q,
    freq !! "f3" = Some (Some v) /\ (v == inject_Z a / inject_Z b)%Q /\
    ((exists m, errdict !! "f3" = Some (Some m)) <->
     (v < inject_Z 10000 \/ inject_Z 2000000 < v)%Q) /\
    ((v < inject_Z 10000 \/ inject_Z 2000000 < v)%Q ->
     errdict !! "f3" =
       Some (Some (OutOfLimits "Phase detector frequency" v
                               "must be in the range of 2 kHz to 2 MHz"))) /\
    (~ (v < inject_Z 10000 \/ inject_Z 2000000 < v)%Q -> errdict !! "f3" = Some None).
Proof.
  intros Ha Hb Hp. rewrite freqplan_unfold in Hp.
  set (self' := if modify then freqplan_modify self else self) in Hp.
  assert (fin self' = Some a /\ n3 self' = Some b) as [Ha' Hb'].
  { unfold self'. destruct modify; [|done].
    destruct (freqplan_modify_keeps self) as (-> & -> & _). done. }
  apply plan_inv in Hp
    as (f3 & fout1 & fout2 & phase & phaseres & pa & par & (H3 & _ & _ & _ & _ & _ & _ & ->)
        & E3 & _).
  unfold freq_f3 in H3. rewrite Ha', Hb' in H3. unfold Fraction in H3.
  destruct (b =? 0); simpl in H3; [discriminate|]. injection H3 as <-.
  exists (Qred (inject_Z a / inject_Z b)).
  destruct (freq_dict_lookup (Some (Qred (inject_Z a / inject_Z b)))
              (freq_fosc self' (Some (Qred (inject_Z a / inject_Z b))))
              fout1 fout2 phaseres phase pa par) as (L1 & _).
  split; [exact L1|]. split; [apply Qred_correct|].
  destruct (check_frequency_limits FREQ_CHECK_F3 (Qred (inject_Z a / inject_Z b)))
    as [Hout Hin].
  change (fc_lmin FREQ_CHECK_F3) with 10000 in *.
  change (fc_lmax FREQ_CHECK_F3) with 2000000 in *.
  rewrite E3. split; [|split].
  - split.
    + intros [m Hm].
      destruct (Qlt_le_dec (Qred (inject_Z a / inject_Z b)) (inject_Z 10000)) as [?|Hge];
        [by left|].
      destruct (Qlt_le_dec (inject_Z 2000000) (Qred (inject_Z a / inject_Z b))) as [?|Hle];
        [by right|].
      rewrite Hin in Hm; [discriminate|].
      intros [H|H]; [apply (Qlt_not_le _ _ H Hge) | apply (Qlt_not_le _ _ H Hle)].
    + intros H. rewrite (Hout H). eauto.
  - intros H. by rewrite (Hout H).
  - intros H. by rewrite (Hin H).
Qed.

Lemma config_f3_5kHz_no_zero : no_zero_operand config_f3_5kHz.
Proof. repeat split; discriminate. Qed.

Lemma C3_f3_limit_check_witness :
  exists freq errdict flag,
    (freqplan config_f3_5kHz false false).2 = Ok (freq, errdict, flag) /\
    exists v : Q,
      freq !! "f3" = Some (Some v) /\ (v == inject_Z 10000 / inject_Z 2)%Q /\
      ((exists m, errdict !! "f3" = Some (Some m)) <->
       (v < inject_Z 10000 \/ inject_Z 2000000 < v)%Q) /\
      ((v < inject_Z 10000 \/ inject_Z 2000000 < v)%Q ->
       errdict !! "f3" =
         Some (Some (OutOfLimits "Phase detector frequency" v
                                 "must be in the range of 2 kHz to 2 MHz"))) /\
      (~ (v < inject_Z 10000 \/ inject_Z 2000000 < v)%Q -> errdict !! "f3" = Some None).
Proof.
  destruct (plan_returns config_f3_5kHz false config_f3_5kHz_no_zero)
    as [[[freq errdict] flag] Hp].
  exists freq, errdict, flag. split; [exact Hp|].
  exact (C3_f3_limit_check config_f3_5kHz false 10000 2 freq errdict flag
           eq_refl eq_refl Hp).
Defined.

(** The datasheet range 2 kHz to 2 MHz is not the range checked: on
    [config_f3_5kHz] f3 is 5 kHz, inside that range, and is flagged. *)
Lemma C3_counterexample :
  exists freq errdict flag,
    (freqplan config_f3_5kHz false false).2 = Ok (freq, errdict, flag) /\
    freq !! "f3" = Some (Some (5000 # 1)%Q) /\
    errdict !! "f3" =
      Some (Some (OutOfLimits "Phase detector frequency" (5000 # 1)
                              "must be in the range of 2 kHz to 2 MHz")) /\
    ~ ((5000 # 1) < inject_Z 2000 \/ inject_Z 2000000 < (5000 # 1))%Q.
Proof.
  destruct (plan_returns config_f3_5kHz false config_f3_5kHz_no_zero)
    as [[[freq errdict] flag] Hp].
  exists freq, errdict, flag. split; [exact Hp|].
  apply plan_inv in Hp
    as (f3 & fout1 & fout2 & phase & phaseres & pa & par
        & (H3 & _ & _ & _ & _ & _ & _ & ->) & E3 & _).
  vm_compute in H3. assert (f3 = Some (5000 # 1)%Q) as -> by congruence.
  match goal with
  | |- context [freq_dict ?a ?b ?c ?d ?e ?f ?g ?h] =>
      destruct (freq_dict_lookup a b c d e f g h) as (L1 & _)
  end.
  split; [exact L1|]. split; [rewrite E3; vm_compute; reflexivity|].
  unfold Qlt. simpl. lia.
Qed.

(** C4: with skew and nc2_ls defined, the report has a skew error if and
    only if skew > max(nc2_ls - 2, 0), whatever [ignore_freq_limits] is; for
    nc2_ls = 5 a skew of 3 passes and a skew of 4 is rejected, for
    nc2_ls = 1 every skew above 0 is rejected. *)
Theorem C4_skew_check (self : GPSDO) (modify ign : bool) (s c : Z)
    (freq : gmap string (option Q)) (errdict : gmap string (option message))
    (flag : bool) :
  skew self = Some s -> nc2_ls self = Some c ->
  (freqplan self modify ign).2 = Ok (freq, errdict, flag) ->
  (errdict !! "skew" = Some (Some (SkewRange (Z.max (c - 2) 0))) <-> s > Z.max (c - 2) 0) /\
  (errdict !! "skew" = Some None <-> s <= Z.max (c - 2) 0) /\
  (c = 5 -> s = 3 -> errdict !! "skew" = Some None) /\
  (c = 5 -> s = 4 -> errdict !! "skew" = Some (Some (SkewRange 3))) /\
  (c = 1 -> s > 0 -> errdict !! "skew" = Some (Some (SkewRange 0))).
Proof.
  intros Hs Hc Hp. rewrite freqplan_unfold in Hp.
  set (self' := if modify then freqplan_modify self else self) in Hp.
  assert (skew self' = Some s /\ nc2_ls self' = Some c) as [Hs' Hc'].
  { unfold self'. destruct modify; [|done].
    destruct (freqplan_modify_keeps self) as (_ & _ & _ & _ & _ & -> & _ & H2). eauto. }
  apply plan_inv in Hp as (f3 & fout1 & fout2 & phase & phaseres & pa & par & _
                           & _ & _ & _ & _ & Esk & _).
  rewrite Esk. unfold skew_entry. rewrite Hs', Hc'. rewrite Z.gtb_ltb.
  destruct (Z.ltb_spec (Z.max (c - 2) 0) s) as [Hlt|Hge].
  - repeat split; try done; try lia; intros; subst; try lia; reflexivity.
  - repeat split; try done; try lia; intros; subst; try lia; try reflexivity.
Qed.

Lemma C4_skew_check_witness :
  exists freq errdict flag,
    (freqplan config_f3_5kHz false true).2 = Ok (freq, errdict, flag) /\
    (errdict !! "skew" = Some None <-> 0 <= Z.max (100 - 2) 0).
Proof.
  destruct (plan_returns config_f3_5kHz true config_f3_5kHz_no_zero)
    as [[[freq errdict] flag] Hp].
  exists freq, errdict, flag. split; [exact Hp|].
  exact (proj1 (proj2 (C4_skew_check config_f3_5kHz false true 0 100 freq errdict flag
                         eq_refl eq_refl Hp))).
Defined.

(** C8: with skew and nc2_ls >= 1 defined, phaseangle is the fraction
    (skew mod nc2_ls) / nc2_ls in lowest terms and lies in [0, 1); a skew
    of 7 with nc2_ls = 5 gives 2/5. *)
Theorem C8_phaseangle (self : GPSDO) (modify ign : bool) (s c : Z)
    (freq : gmap string (option Q)) (errdict : gmap string (option message))
    (flag : bool) :
  skew self = Some s -> nc2_ls self = Some c -> 1 <= c ->
  (freqplan self modify ign).2 = Ok (freq, errdict, flag) ->
  exists v : Q,
    freq !! "phaseangle" = Some (Some v) /\
    v = Qred (s mod c # Z.to_pos c) /\
    (v == inject_Z (s mod c) / inject_Z c)%Q /\
    (0 <= v)%Q /\ (v < 1)%Q /\
    (s = 7 -> c = 5 -> v = (2 # 5)%Q).
Proof.
  intros Hs Hc Hc1 Hp. rewrite freqplan_unfold in Hp.
  set (self' := if modify then freqplan_modify self else self) in Hp.
  assert (skew self' = Some s /\ nc2_ls self' = Some c) as [Hs' Hc'].
  { unfold self'. destruct modify; [|done].
    destruct (freqplan_modify_keeps self) as (_ & _ & _ & _ & _ & -> & _ & H2). eauto. }
  apply plan_inv in Hp as (f3 & fout1 & fout2 & phase & phaseres & pa & par
                           & (_ & _ & _ & _ & _ & Hpa & _ & ->) & _).
  unfold freq_phaseangle in Hpa. rewrite Hs', Hc' in Hpa.
  unfold py_mod, Fraction in Hpa.
  destruct (Z.eqb_spec c 0) as [?|Hne]; [lia|]. simpl in Hpa. injection Hpa as <-.
  exists (Qred (inject_Z (s mod c) / inject_Z c)).
  destruct (freq_dict_lookup f3 (freq_fosc self' f3) fout1 fout2 phaseres phase
              (Some (Qred (inject_Z (s mod c) / inject_Z c))) par)
    as (_ & _ & _ & _ & _ & _ & L7 & _).
  split; [exact L7|].
  assert (0 <= s mod c < c) as Hmod by (apply Z.mod_pos_bound; lia).
  assert (inject_Z (s mod c) / inject_Z c == s mod c # Z.to_pos c)%Q as Heq.
  { destruct c as [|p|p]; try lia. unfold Qdiv, Qinv, Qmult, Qeq, inject_Z. simpl. lia. }
  split; [apply Qred_complete, Heq|].
  split; [apply Qred_correct|].
  assert (Qred (inject_Z (s mod c) / inject_Z c) == s mod c # Z.to_pos c)%Q as Hv
    by (eapply Qeq_trans; [apply Qred_correct|exact Heq]).
  split; [|split].
  - setoid_rewrite Hv. unfold Qle. simpl. lia.
  - setoid_rewrite Hv. unfold Qlt. simpl. rewrite Z2Pos.id by lia. lia.
  - intros -> ->. reflexivity.
Qed.

Lemma C8_phaseangle_witness :
  exists freq errdict flag,
    (freqplan config_f3_5kHz false true).2 = Ok (freq, errdict, flag) /\
    exists v : Q,
      freq !! "phaseangle" = Some (Some v) /\
      v = Qred (0 mod 100 # Z.to_pos 100) /\
      (v == inject_Z (0 mod 100) / inject_Z 100)%Q /\
      (0 <= v)%Q /\ (v < 1)%Q /\
      (0 = 7 -> 100 = 5 -> v = (2 # 5)%Q).
Proof.
  destruct (plan_returns config_f3_5kHz true config_f3_5kHz_no_zero)
    as [[[freq errdict] flag] Hp].
  exists freq, errdict, flag. split; [exact Hp|].
  refine (C8_phaseangle config_f3_5kHz false true 0 100 freq errdict flag
            eq_refl eq_refl _ Hp). lia.
Defined.

Lemma freqplan_modify_defined self c1 c2 :
  nc1_ls self = Some c1 -> nc2_ls self = Some c2 -> freqplan_modify self = self.
Proof.
  destruct self as [o1 o2 lv a b c d e f g h i]. simpl. intros -> ->.
  unfold freqplan_modify. simpl. destruct o1, o2; reflexivity.
Qed.

Lemma exactness_plan o1 o2 lv sk bw' ign :
  exists freq errdict flag,
    plan (config_exactness o1 o2 lv sk bw') ign = Ok (freq, errdict, flag) /\
    freq !! "fosc" = Some (Some (40960000000 # 1)%Q) /\
    freq !! "fout1" = Some (Some (10240000000 # 1)%Q) /\
    errdict !! "fout1" =
      Some (check_frequency ign FREQ_CHECK_FOUT1 (Some (10240000000 # 1)%Q)).
Proof.
  set (self := config_exactness o1 o2 lv sk bw').
  destruct (plan_returns self ign) as [[[freq errdict] flag] Hp].
  { repeat split; discriminate. }
  exists freq, errdict, flag. split; [exact Hp|].
  apply plan_inv in Hp
    as (f3 & fout1 & fout2 & phase & phaseres & pa & par
        & (H3 & H1 & _ & _ & _ & _ & _ & ->) & _ & _ & E1 & _).
  vm_compute in H3. injection H3 as <-.
  vm_compute in H1. injection H1 as <-.
  rewrite E1.
  match goal with
  | |- context [freq_dict ?a ?b ?c ?d ?e ?f ?g ?h] =>
      destruct (freq_dict_lookup a b c d e f g h) as (_ & L2 & L3 & _)
  end.
  rewrite L2, L3. repeat split; vm_compute; reflexivity.
Qed.

(** C7: for fin = 10 MHz, n3 = 1, n2_hs = 4, n2_ls = 1024, n1_hs = 4,
    nc1_ls = 1, nc2_ls = 1, freqplan computes fosc = 40 960 000 000 and
    fout1 = 10 240 000 000 exactly, reports the range violation of fout1
    when the limits are not ignored, and no fout1 error when they are. *)
Theorem C7_exactness (o1 o2 : bool) (lv : Z) (sk bw' : option Z) (modify : bool) :
  (exists freq errdict,
     (freqplan (config_exactness o1 o2 lv sk bw') modify false).2 = Ok (freq, errdict, true) /\
     freq !! "fosc" = Some (Some (40960000000 # 1)%Q) /\
     freq !! "fout1" = Some (Some (10240000000 # 1)%Q) /\
     errdict !! "fout1" =
       Some (Some (OutOfLimits "Output 1 frequency" (10240000000 # 1)
                               "must be in the range of 450 Hz to 808 MHz"))) /\
  (exists freq errdict flag,
     (freqplan (config_exactness o1 o2 lv sk bw') modify true).2 = Ok (freq, errdict, flag) /\
     freq !! "fosc" = Some (Some (40960000000 # 1)%Q) /\
     freq !! "fout1" = Some (Some (10240000000 # 1)%Q) /\
     errdict !! "fout1" = Some None).
Proof.
  rewrite !freqplan_unfold.
  assert ((if modify then freqplan_modify (config_exactness o1 o2 lv sk bw')
           else config_exactness o1 o2 lv sk bw') = config_exactness o1 o2 lv sk bw') as ->.
  { destruct modify; [|reflexivity]. by eapply freqplan_modify_defined. }
  split.
  - destruct (exactness_plan o1 o2 lv sk bw' false) as (freq & errdict & flag & Hp & ? & ? & E).
    exists freq, errdict. repeat split; try assumption.
    replace flag with true in Hp; [exact Hp|].
    apply plan_inv in Hp as (? & ? & ? & ? & ? & ? & ? & _ & _ & _ & _ & _ & _ & ->).
    symmetry. unfold any_error. apply existsb_exists.
    eexists ("fout1", _). split; [apply list_elem_of_In, elem_of_map_to_list, E|reflexivity].
  - destruct (exactness_plan o1 o2 lv sk bw' true) as (freq & errdict & flag & Hp & ? & ? & E).
    exists freq, errdict, flag. repeat split; assumption.
Qed.

(** ** The register codec *)

Arguments byte_to_Z : simpl never.
Arguments low_byte : simpl never.

Lemma byte_to_Z_range b : 0 <= byte_to_Z b <= 255.
Proof.
  unfold byte_to_Z. pose proof (Byte.to_N_bounded b). lia.
Qed.

Lemma byte_to_Z_low_byte z : byte_to_Z (low_byte z) = z mod 256.
Proof.
  unfold low_byte, byte_to_Z.
  pose proof (Z.mod_pos_bound z 256 ltac:(lia)) as Hb.
  destruct (Byte.of_N (Z.to_N (z mod 256))) as [b|] eqn:Hof.
  - simpl. apply Byte.to_of_N in Hof. rewrite Hof. lia.
  - apply Byte.of_N_None_iff in Hof. lia.
Qed.

Lemma low_byte_byte_to_Z b : low_byte (byte_to_Z b) = b.
Proof.
  unfold low_byte. pose proof (byte_to_Z_range b) as Hb.
  rewrite Z.mod_small by lia. unfold byte_to_Z.
  rewrite N2Z.id, Byte.of_to_N. reflexivity.
Qed.

Lemma bytes_of_bytes bs : bytes_of (byte_to_Z <$> bs) = Ok bs.
Proof.
  induction bs as [|b bs IH]; [reflexivity|].
  cbn [fmap list_fmap bytes_of]. pose proof (byte_to_Z_range b) as Hb.
  replace ((0 <=? byte_to_Z b) && (byte_to_Z b <=? 255)) with true
    by (symmetry; apply andb_true_iff; split; apply Z.leb_le; lia).
  change (list_fmap byte Z byte_to_Z bs) with (byte_to_Z <$> bs).
  rewrite IH. cbn [bind]. by rewrite low_byte_byte_to_Z.
Qed.

Lemma decode_config_Ok buf :
  (21 <= length buf)%nat -> decode_config buf = Ok (decoded buf).
Proof.
  intros Hlen.
  do 21 (destruct buf as [|? buf]; [simpl in Hlen; lia|]).
  unfold decode_config, decoded, le24_at, byte_at. simpl.
  change (byte_to_Z "000") with 0. rewrite !Z.add_0_r. reflexivity.
Qed.

(** *** What a successful update has stored *)

Ltac in_table :=
  unfold _CONFIG_CHECKS; repeat first [apply list_elem_of_here | apply list_elem_of_further].

Lemma getattr_setattr s c c' v :
  c ∈ _CONFIG_CHECKS -> c' ∈ _CONFIG_CHECKS ->
  getattr (setattr s (cc_attr c) v) (cc_attr c') =
  if String.eqb (cc_attr c) (cc_attr c') then Some v else getattr s (cc_attr c').
Proof.
  intros Hc Hc'. destruct s. unfold _CONFIG_CHECKS in Hc, Hc'.
  repeat (apply elem_of_cons in Hc as [->|Hc]); [ | | | | | | | | | inversion Hc];
    repeat (apply elem_of_cons in Hc' as [->|Hc']); try (by inversion Hc');
    reflexivity.
Qed.

Lemma store_argument_getattr kwargs s c c' :
  c ∈ _CONFIG_CHECKS -> c' ∈ _CONFIG_CHECKS ->
  getattr (store_argument kwargs s c) (cc_attr c') =
  match (if String.eqb (cc_attr c) (cc_attr c')
         then kwargs !! cc_attr c ≫= as_int else None) with
  | Some v => Some v
  | None => getattr s (cc_attr c')
  end.
Proof.
  intros Hc Hc'. unfold store_argument.
  destruct (kwargs !! cc_attr c) as [x|]; simpl.
  - destruct (as_int x) as [v|].
    + rewrite getattr_setattr by assumption.
      destruct (String.eqb (cc_attr c) (cc_attr c')); reflexivity.
    + destruct (String.eqb (cc_attr c) (cc_attr c')); reflexivity.
  - destruct (String.eqb (cc_attr c) (cc_attr c')); reflexivity.
Qed.

Lemma store_outputs_getattr o1 o2 lv s a :
  getattr (store_outputs o1 o2 lv s) a = getattr s a.
Proof.
  destruct s. unfold store_outputs.
  destruct o1, o2, (as_int lv); reflexivity.
Qed.

(** After a successful [update], a setting supplied as an integer holds
    that integer, and any other setting holds what it held. *)
Lemma update_Ok_getattr self kwargs self' c :
  update self kwargs = (self', Ok ()) -> c ∈ _CONFIG_CHECKS ->
  getattr self' (cc_attr c) =
  match kwargs !! cc_attr c ≫= as_int with
  | Some v => Some v
  | None => getattr self (cc_attr c)
  end.
Proof.
  unfold update. intros Hu Hc.
  destruct (check_level _ _) as [errdict|]; [|discriminate].
  case_bool_decide; [|discriminate]. injection Hu as <-.
  rewrite store_outputs_getattr.
  unfold _CONFIG_CHECKS; cbn [foldl].
  rewrite !store_argument_getattr by (first [assumption | in_table]).
  unfold _CONFIG_CHECKS in Hc.
  repeat (apply elem_of_cons in Hc as [->|Hc]); [ | | | | | | | | | inversion Hc];
    simpl; repeat match goal with
                  | |- context [match ?o with Some _ => _ | None => _ end] => destruct o
                  end; reflexivity.
Qed.

(** After a successful [update], a setting supplied as an integer lies in
    the range of its row, and is even where the row asks for a parity. *)
Lemma update_Ok_range self kwargs c x v :
  (update self kwargs).2 = Ok () -> c ∈ _CONFIG_CHECKS ->
  kwargs !! cc_attr c = Some x -> as_int x = Some v ->
  (cc_even c = 0 \/ Z.even v = true) /\ cc_vmin c <= v <= cc_vmax c.
Proof.
  intros Hu Hc Hx Hv. apply update_Ok_iff in Hu as [Hall _].
  rewrite Forall_forall in Hall.
  by apply (verdict_int_None kwargs c x v Hx Hv), Hall.
Qed.

Lemma decoded_lookup buf :
  decoded buf !! "fin" = Some (PyInt (le24_at buf 2)) /\
  decoded buf !! "n3" = Some (PyInt (le24_at buf 5 + 1)) /\
  decoded buf !! "n2_hs" = Some (PyInt (byte_at buf 8 + 4)) /\
  decoded buf !! "n2_ls" = Some (PyInt (le24_at buf 9 + 1)) /\
  decoded buf !! "n1_hs" = Some (PyInt (byte_at buf 12 + 4)) /\
  decoded buf !! "nc1_ls" = Some (PyInt (le24_at buf 13 + 1)) /\
  decoded buf !! "nc2_ls" = Some (PyInt (le24_at buf 16 + 1)).
Proof.
  unfold decoded. repeat split;
    repeat (rewrite lookup_insert_ne by done); apply lookup_insert_eq.
Qed.

Lemma byte_at_range buf i : 0 <= byte_at buf i <= 255.
Proof. apply byte_to_Z_range. Qed.

Lemma le24_at_range buf i : 0 <= le24_at buf i <= 16777215.
Proof.
  unfold le24_at.
  pose proof (byte_at_range buf i). pose proof (byte_at_range buf (i + 1)).
  pose proof (byte_at_range buf (i + 2)). lia.
Qed.

(** A decoded configuration that [update] accepts leaves no zero operand:
    the row of fin has the lower bound 10 kHz, the rows of the dividers
    have lower bounds of 1 and more. *)
Lemma update_decoded_no_zero self buf self' :
  update self (decoded buf) = (self', Ok ()) -> no_zero_operand self'.
Proof.
  intros Hu.
  assert (forall i c x v, _CONFIG_CHECKS !! i = Some c ->
            decoded buf !! cc_attr c = Some x -> as_int x = Some v ->
            getattr self' (cc_attr c) = Some v /\ cc_vmin c <= v) as Hrow.
  { intros i c x v Hi Hx Hv.
    assert (c ∈ _CONFIG_CHECKS) as Hc by (eapply list_elem_of_lookup_2, Hi).
    split.
    - rewrite (update_Ok_getattr self _ self' c Hu Hc), Hx. simpl. by rewrite Hv.
    - eapply (update_Ok_range self (decoded buf) c x v); try eassumption.
      by rewrite Hu. }
  destruct (decoded_lookup buf) as (L1 & L2 & L3 & L4 & L5 & L6 & L7).
  destruct (Hrow 0%nat _ _ _ eq_refl L1 eq_refl) as [G1 R1].
  destruct (Hrow 1%nat _ _ _ eq_refl L2 eq_refl) as [G2 R2].
  destruct (Hrow 2%nat _ _ _ eq_refl L3 eq_refl) as [G3 R3].
  destruct (Hrow 3%nat _ _ _ eq_refl L4 eq_refl) as [G4 R4].
  destruct (Hrow 4%nat _ _ _ eq_refl L5 eq_refl) as [G5 R5].
  destruct (Hrow 5%nat _ _ _ eq_refl L6 eq_refl) as [G6 R6].
  destruct (Hrow 6%nat _ _ _ eq_refl L7 eq_refl) as [G7 R7].
  unfold getattr in G1, G2, G3, G4, G5, G6, G7.
  simpl in G1, G2, G3, G4, G5, G6, G7, R1, R2, R3, R4, R5, R6, R7.
  unfold LIMIT_FIN_MIN in R1.
  unfold no_zero_operand. rewrite G1, G2, G3, G4, G5, G6, G7.
  repeat split; intros [= H0]; lia.
Qed.



(** *** Encoding *)

Lemma pll_report_Ok self a b c d e f g h i :
  fin self = Some a -> n3 self = Some b -> n2_hs self = Some c -> n2_ls self = Some d ->
  n1_hs self = Some e -> nc1_ls self = Some f -> nc2_ls self = Some g ->
  skew self = Some h -> bw self = Some i ->
  packable a b c d e f g h i ->
  pll_report self = Ok (pll_image a b c d e f g h i).
Proof.
  intros H1 H2 H3 H4 H5 H6 H7 H8 H9 (Ha & Hb & Hc & Hd & He & Hf & Hg & Hh & Hi).
  unfold pll_report. rewrite H1, H2, H3, H4, H5, H6, H7, H8, H9. cbn [attr_plain attr_minus bind]. unfold pack_I, pack_B.
  repeat match goal with
         | |- context [(0 <=? ?x) && (?x <=? ?y)] =>
             replace ((0 <=? x) && (x <=? y)) with true
               by (symmetry; apply andb_true_iff; split; apply Z.leb_le; lia);
             cbn [bind]
         end.
  exact (bytes_of_bytes (pll_image a b c d e f g h i)).
Qed.

Lemma pll_report_Raise self a b c d e f g h i :
  fin self = Some a -> n3 self = Some b -> n2_hs self = Some c -> n2_ls self = Some d ->
  n1_hs self = Some e -> nc1_ls self = Some f -> nc2_ls self = Some g ->
  skew self = Some h -> bw self = Some i ->
  ~ packable a b c d e f g h i ->
  pll_report self = Raise StructError.
Proof.
  intros H1 H2 H3 H4 H5 H6 H7 H8 H9 Hnot.
  unfold pll_report. rewrite H1, H2, H3, H4, H5, H6, H7, H8, H9. cbn [attr_plain attr_minus bind]. unfold pack_I, pack_B.
  repeat match goal with
         | |- context [(0 <=? ?x) && (?x <=? ?y)] =>
             destruct (Z.leb_spec 0 x), (Z.leb_spec x y); cbn [andb bind];
             try reflexivity
         end.
  exfalso. apply Hnot. unfold packable. lia.
Qed.

Lemma level_report_Ok self :
  0 <= level self <= 255 -> level_report self = Ok (level_image (level self)).
Proof.
  intros Hlv. unfold level_report.
  assert (level self = byte_to_Z (low_byte (level self))) as Hb
    by (rewrite byte_to_Z_low_byte, Z.mod_small; lia).
  rewrite Hb at 1. exact (bytes_of_bytes (level_image (level self))).
Qed.

Lemma output_report_Ok self :
  output_report self = Ok (output_image (out1 self) (out2 self)).
Proof.
  unfold output_report. destruct (out1 self), (out2 self); reflexivity.
Qed.

(** C6 (as the code has it): with all PLL fields defined, building the PLL
    report raises [struct.error] exactly when fin, n3-1, n2_ls-1, nc1_ls-1
    or nc2_ls-1 is outside 0..2^32-1 (the range of the 32-bit pack whose
    low three bytes are stored) or n2_hs-4, n1_hs-4, skew or bw is outside
    0..255; otherwise the report is built. *)
Theorem C6_pll_report_overflow (self : GPSDO) (a b c d e f g h i : Z) :
  fin self = Some a -> n3 self = Some b -> n2_hs self = Some c -> n2_ls self = Some d ->
  n1_hs self = Some e -> nc1_ls self = Some f -> nc2_ls self = Some g ->
  skew self = Some h -> bw self = Some i ->
  (pll_report self = Raise StructError <-> ~ packable a b c d e f g h i) /\
  (pll_report self = Ok (pll_image a b c d e f g h i) <-> packable a b c d e f g h i).
Proof.
  intros H1 H2 H3 H4 H5 H6 H7 H8 H9.
  assert (packable a b c d e f g h i \/ ~ packable a b c d e f g h i) as [Hp|Hn]
    by (unfold packable; lia).
  - rewrite (pll_report_Ok self a b c d e f g h i) by assumption.
    split; split; intros; try done; tauto.
  - rewrite (pll_report_Raise self a b c d e f g h i) by assumption.
    split; split; intros; try done; tauto.
Qed.

Lemma C6_pll_report_overflow_witness :
  (pll_report config_fin_overflow = Raise StructError <->
   ~ packable 16777216 16 5 1000 4 2 2 0 15) /\
  (pll_report config_fin_overflow = Ok (pll_image 16777216 16 5 1000 4 2 2 0 15) <->
   packable 16777216 16 5 1000 4 2 2 0 15).
Proof.
  exact (C6_pll_report_overflow config_fin_overflow 16777216 16 5 1000 4 2 2 0 15
           eq_refl eq_refl eq_refl eq_refl eq_refl eq_refl eq_refl eq_refl eq_refl).
Defined.

(** A value beyond 24 bits is not rejected: on [config_fin_overflow] fin
    is 2^24, [freqplan] reports no error, and [write] sends a PLL report
    whose three fin bytes are zero. *)
Lemma C6_counterexample :
  ~ (0 <= 16777216 <= 2 ^ 24 - 1) /\
  match (freqplan config_fin_overflow false false).2 with
  | Ok (_, _, errflag) => errflag = false
  | Raise _ => False
  end /\
  pll_report config_fin_overflow = Ok (pll_image 16777216 16 5 1000 4 2 2 0 15) /\
  slice 1 4 (pll_image 16777216 16 5 1000 4 2 2 0 15) = [Byte.x00; Byte.x00; Byte.x00] /\
  write config_fin_overflow blank_device true false =
    (mkHid (input_report blank_device) (feature_report blank_device)
           [pll_image 16777216 16 5 1000 4 2 2 0 15; level_image 0; output_image true true],
     Ok ()).
Proof.
  split; [lia|]. repeat split; vm_compute; reflexivity.
Qed.

(** A PLL report that was built is [pll_image] of nine defined settings
    that fit; a level report that was built is [level_image]. *)
Lemma pll_report_Ok_inv self pll :
  pll_report self = Ok pll ->
  exists a b c d e f g h i,
    (fin self = Some a /\ n3 self = Some b /\ n2_hs self = Some c /\
     n2_ls self = Some d /\ n1_hs self = Some e /\ nc1_ls self = Some f /\
     nc2_ls self = Some g /\ skew self = Some h /\ bw self = Some i) /\
    packable a b c d e f g h i /\ pll = pll_image a b c d e f g h i.
Proof.
  intros H.
  assert (forall v, pack_I v = Raise StructError \/ exists p, pack_I v = Ok p) as HI.
  { intros v. unfold pack_I. destruct (_ && _); eauto. }
  assert (forall v, pack_B v = Raise StructError \/ exists p, pack_B v = Ok p) as HB.
  { intros v. unfold pack_B. destruct (_ && _); eauto. }
  assert (is_Some (fin self) /\ is_Some (n3 self) /\ is_Some (n2_hs self) /\
          is_Some (n2_ls self) /\ is_Some (n1_hs self) /\ is_Some (nc1_ls self) /\
          is_Some (nc2_ls self) /\ is_Some (skew self) /\ is_Some (bw self))
    as ([a Ha] & [b Hb] & [c Hc] & [d Hd] & [e He] & [f Hf] & [g Hg] & [h Hh] & [i Hi]).
  { unfold pll_report in H.
    destruct (fin self) as [a|]; [|discriminate]. cbn [attr_plain bind] in H.
    destruct (HI a) as [E|[p E]]; rewrite E in H; cbn [bind] in H; [discriminate|].
    destruct (n3 self) as [b|]; [|discriminate]. cbn [attr_minus bind] in H.
    destruct (HI (b - 1)) as [E2|[p2 E2]]; rewrite E2 in H; cbn [bind] in H; [discriminate|].
    destruct (n2_hs self) as [c|]; [|discriminate]. cbn [attr_minus bind] in H.
    destruct (HB (c - 4)) as [E3|[p3 E3]]; rewrite E3 in H; cbn [bind] in H; [discriminate|].
    destruct (n2_ls self) as [d|]; [|discriminate]. cbn [attr_minus bind] in H.
    destruct (HI (d - 1)) as [E4|[p4 E4]]; rewrite E4 in H; cbn [bind] in H; [discriminate|].
    destruct (n1_hs self) as [e|]; [|discriminate]. cbn [attr_minus bind] in H.
    destruct (HB (e - 4)) as [E5|[p5 E5]]; rewrite E5 in H; cbn [bind] in H; [discriminate|].
    destruct (nc1_ls self) as [f|]; [|discriminate]. cbn [attr_minus bind] in H.
    destruct (HI (f - 1)) as [E6|[p6 E6]]; rewrite E6 in H; cbn [bind] in H; [discriminate|].
    destruct (nc2_ls self) as [g|]; [|discriminate]. cbn [attr_minus bind] in H.
    destruct (HI (g - 1)) as [E7|[p7 E7]]; rewrite E7 in H; cbn [bind] in H; [discriminate|].
    destruct (skew self) as [h|]; [|discriminate]. cbn [attr_plain bind] in H.
    destruct (HB h) as [E8|[p8 E8]]; rewrite E8 in H; cbn [bind] in H; [discriminate|].
    destruct (bw self) as [i|]; [|discriminate].
    repeat split; eauto. }
  exists a, b, c, d, e, f, g, h, i. split; [repeat split; assumption|].
  assert (packable a b c d e f g h i \/ ~ packable a b c d e f g h i) as [Hp|Hn]
    by (unfold packable; lia).
  - split; [exact Hp|].
    rewrite (pll_report_Ok self a b c d e f g h i) in H by assumption. congruence.
  - rewrite (pll_report_Raise self a b c d e f g h i) in H by assumption. discriminate.
Qed.

Lemma level_report_Ok_inv self lvl :
  level_report self = Ok lvl -> lvl = level_image (level self).
Proof.
  intros H.
  assert (0 <= level self <= 255 \/ ~ 0 <= level self <= 255) as [Hr|Hn] by lia.
  - rewrite level_report_Ok in H by assumption. congruence.
  - exfalso. unfold level_report in H. revert H.
    generalize (level self) Hn. intros lv Hlv. simpl.
    destruct (Z.leb_spec 0 lv), (Z.leb_spec lv 255); simpl; try discriminate. lia.
Qed.

(** *** Encoding, then decoding *)

Lemma le3_value v :
  0 <= v <= 16777215 ->
  byte_to_Z (low_byte v) + 256 * byte_to_Z (low_byte (v / 256)) +
  65536 * byte_to_Z (low_byte (v / 65536)) = v.
Proof.
  intros Hv. rewrite !byte_to_Z_low_byte.
  pose proof (Z.div_mod v 256 ltac:(lia)) as E1.
  pose proof (Z.div_mod (v / 256) 256 ltac:(lia)) as E2.
  rewrite Z.div_div in E2 by lia. change (256 * 256) with 65536 in E2.
  assert (0 <= v / 65536 < 256) as Hq
    by (split; [apply Z.div_pos; lia | apply Z.div_lt_upper_bound; lia]).
  rewrite (Z.mod_small (v / 65536)) by lia. lia.
Qed.

Lemma decode_config_bytes o l a0 a1 a2 b0 b1 b2 c0 d0 d1 d2 e0 f0 f1 f2 g0 g1 g2 h0 i0 tail :
  decode_config (o :: l :: a0 :: a1 :: a2 :: b0 :: b1 :: b2 :: c0 :: d0 :: d1 :: d2 ::
                 e0 :: f0 :: f1 :: f2 :: g0 :: g1 :: g2 :: h0 :: i0 :: tail) =
  Ok (<["bw" := PyInt (byte_to_Z i0)]> (<["skew" := PyInt (byte_to_Z h0)]>
     (<["nc2_ls" := PyInt (byte_to_Z g0 + 256 * byte_to_Z g1 + 65536 * byte_to_Z g2 + 1)]>
     (<["nc1_ls" := PyInt (byte_to_Z f0 + 256 * byte_to_Z f1 + 65536 * byte_to_Z f2 + 1)]>
     (<["n1_hs" := PyInt (byte_to_Z e0 + 4)]>
     (<["n2_ls" := PyInt (byte_to_Z d0 + 256 * byte_to_Z d1 + 65536 * byte_to_Z d2 + 1)]>
     (<["n2_hs" := PyInt (byte_to_Z c0 + 4)]>
     (<["n3" := PyInt (byte_to_Z b0 + 256 * byte_to_Z b1 + 65536 * byte_to_Z b2 + 1)]>
     (<["fin" := PyInt (byte_to_Z a0 + 256 * byte_to_Z a1 + 65536 * byte_to_Z a2)]>
     (<["level" := PyInt (byte_to_Z l)]>
     (<["out2" := PyBool (negb (Z.land (byte_to_Z o) OUTPUT2 =? 0))]>
     (<["out1" := PyBool (negb (Z.land (byte_to_Z o) OUTPUT1 =? 0))]> ∅)))))))))))).
Proof.
  rewrite decode_config_Ok by (simpl; lia). reflexivity.
Qed.

(** Decoding the read image of the three reports gives back the values
    they were built from, when each fits its register. *)
Lemma decode_read_image a b c d e f g h i lv o1 o2 tail :
  0 <= a <= 16777215 -> 0 <= b - 1 <= 16777215 -> 0 <= c - 4 <= 255 ->
  0 <= d - 1 <= 16777215 -> 0 <= e - 4 <= 255 -> 0 <= f - 1 <= 16777215 ->
  0 <= g - 1 <= 16777215 -> 0 <= h <= 255 -> 0 <= i <= 255 -> 0 <= lv <= 255 ->
  decode_config (read_image (pll_image a b c d e f g h i) (level_image lv)
                            (output_image o1 o2) ++ tail) =
  Ok (<["bw" := PyInt i]> (<["skew" := PyInt h]>
     (<["nc2_ls" := PyInt g]> (<["nc1_ls" := PyInt f]>
     (<["n1_hs" := PyInt e]> (<["n2_ls" := PyInt d]>
     (<["n2_hs" := PyInt c]> (<["n3" := PyInt b]>
     (<["fin" := PyInt a]> (<["level" := PyInt lv]>
     (<["out2" := PyBool o2]> (<["out1" := PyBool o1]> ∅)))))))))))).
Proof.
  intros Ha Hb Hc Hd He Hf Hg Hh Hi Hlv.
  etransitivity.
  { exact (decode_config_bytes
             (low_byte (Z.lor (Z.lor 0 (if o1 then OUTPUT1 else 0)) (if o2 then OUTPUT2 else 0)))
             (low_byte lv)
             (low_byte a) (low_byte (a / 256)) (low_byte (a / 65536))
             (low_byte (b - 1)) (low_byte ((b - 1) / 256)) (low_byte ((b - 1) / 65536))
             (low_byte (c - 4))
             (low_byte (d - 1)) (low_byte ((d - 1) / 256)) (low_byte ((d - 1) / 65536))
             (low_byte (e - 4))
             (low_byte (f - 1)) (low_byte ((f - 1) / 256)) (low_byte ((f - 1) / 65536))
             (low_byte (g - 1)) (low_byte ((g - 1) / 256)) (low_byte ((g - 1) / 65536))
             (low_byte h) (low_byte i) (replicate 40 Byte.x00 ++ tail)). }
  rewrite (le3_value a), (le3_value (b - 1)), (le3_value (d - 1)), (le3_value (f - 1)),
    (le3_value (g - 1)) by assumption.
  rewrite !byte_to_Z_low_byte.
  rewrite (Z.mod_small (c - 4)), (Z.mod_small (e - 4)), (Z.mod_small h),
    (Z.mod_small i), (Z.mod_small lv) by lia.
  replace (b - 1 + 1) with b by lia. replace (d - 1 + 1) with d by lia.
  replace (f - 1 + 1) with f by lia. replace (g - 1 + 1) with g by lia.
  replace (c - 4 + 4) with c by lia. replace (e - 4 + 4) with e by lia.
  destruct o1, o2; reflexivity.
Qed.

(** The nine settings and their ranges, out of [in_static_ranges]. *)
Lemma in_static_ranges_inv self :
  in_static_ranges self ->
  exists a b c d e f g h i,
    (fin self = Some a /\ n3 self = Some b /\ n2_hs self = Some c /\
     n2_ls self = Some d /\ n1_hs self = Some e /\ nc1_ls self = Some f /\
     nc2_ls self = Some g /\ skew self = Some h /\ bw self = Some i) /\
    (10000 <= a <= 16000000 /\ 1 <= b <= 524288 /\ 4 <= c <= 11 /\
     2 <= d <= 1048576 /\ 4 <= e <= 11 /\ 1 <= f <= 1048576 /\
     1 <= g <= 1048576 /\ 0 <= h <= 255 /\ 0 <= i <= 15) /\
    0 <= level self <= 3.
Proof.
  intros [Hall Hlv]. unfold spec_static_ranges in Hall.
  repeat (apply Forall_cons in Hall as [(? & ? & ?) Hall]).
  unfold getattr in *. simpl in *.
  do 9 eexists. split; [repeat split; eassumption|]. split; [|assumption].
  repeat split; lia.
Qed.

(** C5: for a model with every field defined and inside its static range,
    the PLL, level and output reports are built, and decoding a read buffer
    that carries their payload (output flags at offset 0, level at offset 1,
    PLL bytes 1..19 at offsets 2..20) returns the dictionary of the model's
    own values: out1, out2, level, fin, n3, n2_hs, n2_ls, n1_hs, nc1_ls,
    nc2_ls, skew and bw. *)
Theorem C5_roundtrip (self : GPSDO) :
  in_static_ranges self ->
  exists pll lvl out : list byte,
    pll_report self = Ok pll /\ level_report self = Ok lvl /\
    output_report self = Ok out /\
    (length pll = 60%nat /\ length lvl = 60%nat /\ length out = 60%nat) /\
    forall tail : list byte,
      decode_config (read_image pll lvl out ++ tail) = Ok (configdict_of self).
Proof.
  intros Hvalid.
  destruct (in_static_ranges_inv self Hvalid)
    as (a & b & c & d & e & f & g & h & i
        & (H1 & H2 & H3 & H4 & H5 & H6 & H7 & H8 & H9) & Hr & Hlv).
  exists (pll_image a b c d e f g h i), (level_image (level self)),
         (output_image (out1 self) (out2 self)).
  split; [apply pll_report_Ok; try assumption; unfold packable; lia|].
  split; [apply level_report_Ok; lia|].
  split; [apply output_report_Ok|].
  split; [repeat split; reflexivity|].
  intros tail. rewrite decode_read_image by lia.
  unfold configdict_of. rewrite H1, H2, H3, H4, H5, H6, H7, H8, H9. reflexivity.
Qed.

Lemma C5_roundtrip_witness :
  exists pll lvl out : list byte,
    pll_report config_f3_5kHz = Ok pll /\ level_report config_f3_5kHz = Ok lvl /\
    output_report config_f3_5kHz = Ok out /\
    (length pll = 60%nat /\ length lvl = 60%nat /\ length out = 60%nat) /\
    forall tail : list byte,
      decode_config (read_image pll lvl out ++ tail) = Ok (configdict_of config_f3_5kHz).
Proof.
  apply (C5_roundtrip config_f3_5kHz).
  split; [|simpl; lia].
  unfold spec_static_ranges.
  repeat (apply List.Forall_cons; [eexists; split; [reflexivity|simpl; lia]|]).
  apply List.Forall_nil.
Defined.

(** ** The write policy *)

Lemma py_eqb_refl v : py_eqb v v = true.
Proof.
  destruct v as [|b|z|s]; simpl.
  - reflexivity.
  - apply Z.eqb_refl.
  - apply Z.eqb_refl.
  - apply String.eqb_refl.
Qed.

Lemma any_differs_same (configdict : gmap string PyVal) l :
  Forall (fun vk : PyVal * string => configdict !! vk.2 = Some vk.1) l ->
  any_differs configdict l = Ok false.
Proof.
  induction 1 as [|[v k] l Hvk _ IH]; [reflexivity|].
  simpl in *. unfold differs. rewrite Hvk. cbn [bind].
  rewrite py_eqb_refl. exact IH.
Qed.

Lemma configdict_of_lookup self :
  let d := configdict_of self in
  d !! "out1" = Some (PyBool (out1 self)) /\ d !! "out2" = Some (PyBool (out2 self)) /\
  d !! "level" = Some (PyInt (level self)) /\ d !! "fin" = Some (py_of_attr (fin self)) /\
  d !! "n3" = Some (py_of_attr (n3 self)) /\ d !! "n2_hs" = Some (py_of_attr (n2_hs self)) /\
  d !! "n2_ls" = Some (py_of_attr (n2_ls self)) /\
  d !! "n1_hs" = Some (py_of_attr (n1_hs self)) /\
  d !! "nc1_ls" = Some (py_of_attr (nc1_ls self)) /\
  d !! "nc2_ls" = Some (py_of_attr (nc2_ls self)) /\
  d !! "skew" = Some (py_of_attr (skew self)) /\ d !! "bw" = Some (py_of_attr (bw self)).
Proof.
  unfold configdict_of. repeat split;
    repeat (rewrite lookup_insert_ne by done); apply lookup_insert_eq.
Qed.

Lemma agrees_fields self (configdict : gmap string PyVal) :
  agrees self configdict ->
  Forall (fun vk : PyVal * string => configdict !! vk.2 = Some vk.1)
         (pll_fields self ++ level_fields self ++ output_fields self).
Proof.
  intros Hag.
  destruct (configdict_of_lookup self)
    as (L1 & L2 & L3 & L4 & L5 & L6 & L7 & L8 & L9 & L10 & L11 & L12).
  assert (forall k v, configdict_of self !! k = Some v -> configdict !! k = Some v) as Hk.
  { intros k v Hv. rewrite Hag; [exact Hv|]. rewrite Hv. eauto. }
  unfold pll_fields, level_fields, output_fields. simpl.
  repeat (apply List.Forall_cons; [apply Hk; assumption|]). apply List.Forall_nil.
Qed.

Lemma upload_same configdict fields report dev :
  any_differs configdict fields = Ok false ->
  upload false configdict fields report dev = (dev, Ok ()).
Proof. intros H. unfold upload. rewrite H. reflexivity. Qed.

(** Without [overwrite], a device whose configuration agrees with the
    instance is left alone. *)
Lemma write_agrees self dev ign configdict :
  (read self dev false).2 = Ok configdict -> agrees self configdict ->
  (write self dev false ign).1 = dev.
Proof.
  intros Hread Hag. unfold write.
  destruct (freqplan self false ign).2 as [[[freq errdict] [|]]|e]; try reflexivity.
  rewrite Hread.
  pose proof (agrees_fields self configdict Hag) as Hall.
  apply Forall_app in Hall as [Hpll Hall]. apply Forall_app in Hall as [Hlvl Hout].
  rewrite !upload_same by (by apply any_differs_same). reflexivity.
Qed.

(** With [overwrite], a call that returns has sent the three reports, in
    the order PLL, level, output. *)
Lemma write_overwrite self dev ign :
  (write self dev true ign).2 = Ok () ->
  exists pll lvl out,
    pll_report self = Ok pll /\ level_report self = Ok lvl /\
    output_report self = Ok out /\
    (write self dev true ign).1 =
      send_feature_report (send_feature_report (send_feature_report dev pll) lvl) out.
Proof.
  unfold write.
  destruct (freqplan self false ign).2 as [[[freq errdict] [|]]|e]; try discriminate.
  destruct (read self dev false).2 as [configdict|e]; [|discriminate].
  unfold upload.
  destruct (pll_report self) as [pll|e]; [|discriminate].
  destruct (level_report self) as [lvl|e]; [|discriminate].
  destruct (output_report self) as [out|e]; [|discriminate].
  intros _. exists pll, lvl, out. repeat split; reflexivity.
Qed.

(** With [overwrite], the call returns when the settings are in their
    static ranges, the frequency plan has no error and the device can be
    read. *)
Lemma write_overwrite_returns self dev ign freq errdict configdict :
  in_static_ranges self -> plan self ign = Ok (freq, errdict, false) ->
  (read self dev false).2 = Ok configdict ->
  (write self dev true ign).2 = Ok ().
Proof.
  intros Hvalid Hplan Hread. unfold write. rewrite freqplan_unfold, Hplan, Hread.
  destruct (in_static_ranges_inv self Hvalid)
    as (a & b & c & d & e & f & g & h & i
        & (H1 & H2 & H3 & H4 & H5 & H6 & H7 & H8 & H9) & Hr & Hlv).
  unfold upload.
  rewrite (pll_report_Ok self a b c d e f g h i) by (try assumption; unfold packable; lia).
  rewrite level_report_Ok by lia. rewrite output_report_Ok. reflexivity.
Qed.

(** C9: when the dictionary read from the device agrees with the model on
    all twelve settings and [overwrite] is false, [write] transmits nothing;
    when [overwrite] is true, a call that returns has transmitted the PLL,
    level and output reports, whatever the device holds, and the call
    returns for every model inside its static ranges whose frequency plan
    has no error. *)
Theorem C9_write_policy (self : GPSDO) (dev : HidDevice) (ign : bool) :
  (forall configdict,
     (read self dev false).2 = Ok configdict -> agrees self configdict ->
     sent (write self dev false ign).1 = sent dev) /\
  ((write self dev true ign).2 = Ok () ->
   exists pll lvl out,
     pll_report self = Ok pll /\ level_report self = Ok lvl /\
     output_report self = Ok out /\
     sent (write self dev true ign).1 = (sent dev ++ [pll; lvl; out])%list /\
     byte_at pll 0 = _COMMAND_PLL /\ byte_at lvl 0 = _COMMAND_LEVEL /\
     byte_at out 0 = _COMMAND_OUTPUT) /\
  (forall freq errdict configdict,
     in_static_ranges self -> plan self ign = Ok (freq, errdict, false) ->
     (read self dev false).2 = Ok configdict ->
     (write self dev true ign).2 = Ok ()).
Proof.
  split; [|split].
  - intros configdict Hread Hag. by rewrite (write_agrees self dev ign configdict).
  - intros Hok.
    destruct (write_overwrite self dev ign Hok) as (pll & lvl & out & Hp & Hl & Ho & ->).
    exists pll, lvl, out. repeat split; try assumption.
    + simpl. by rewrite <- !app_assoc.
    + apply pll_report_Ok_inv in Hp as (? & ? & ? & ? & ? & ? & ? & ? & ? & _ & _ & ->).
      reflexivity.
    + apply level_report_Ok_inv in Hl as ->. reflexivity.
    + rewrite output_report_Ok in Ho. injection Ho as <-. reflexivity.
  - intros freq errdict configdict. apply write_overwrite_returns.
Qed.

(** A device that returns the read image of the reports built from the
    instance is read back as a dictionary that agrees with the instance. *)
Lemma read_synced_agrees self dev a b c d e f g h i tail :
  fin self = Some a -> n3 self = Some b -> n2_hs self = Some c -> n2_ls self = Some d ->
  n1_hs self = Some e -> nc1_ls self = Some f -> nc2_ls self = Some g ->
  skew self = Some h -> bw self = Some i ->
  (0 <= a <= 16777215 /\ 0 <= b - 1 <= 16777215 /\ 0 <= c - 4 <= 255 /\
   0 <= d - 1 <= 16777215 /\ 0 <= e - 4 <= 255 /\ 0 <= f - 1 <= 16777215 /\
   0 <= g - 1 <= 16777215 /\ 0 <= h <= 255 /\ 0 <= i <= 255 /\ 0 <= level self <= 255) ->
  feature_report dev =
    (read_image (pll_image a b c d e f g h i) (level_image (level self))
                (output_image (out1 self) (out2 self)) ++ tail)%list ->
  (2 <= length (input_report dev))%nat ->
  exists configdict, (read self dev false).2 = Ok configdict /\ agrees self configdict.
Proof.
  intros H1 H2 H3 H4 H5 H6 H7 H8 H9 Hr Hfeat Hin.
  unfold read, read_config, read_status.
  destruct (input_report dev) as [|s0 [|s1 rest]]; try (simpl in Hin; lia).
  unfold index. cbn [lookup list_lookup bind].
  rewrite Hfeat, decode_read_image by lia. cbn [snd].
  eexists. split; [reflexivity|].
  intros key [v Hv].
  assert (configdict_of self =
          <["bw" := PyInt i]> (<["skew" := PyInt h]>
          (<["nc2_ls" := PyInt g]> (<["nc1_ls" := PyInt f]>
          (<["n1_hs" := PyInt e]> (<["n2_ls" := PyInt d]>
          (<["n2_hs" := PyInt c]> (<["n3" := PyInt b]>
          (<["fin" := PyInt a]> (<["level" := PyInt (level self)]>
          (<["out2" := PyBool (out2 self)]> (<["out1" := PyBool (out1 self)]> ∅))))))))))))
         as <-.
  { unfold configdict_of. rewrite H1, H2, H3, H4, H5, H6, H7, H8, H9. reflexivity. }
  rewrite Hv. by apply lookup_union_Some_l.
Qed.

Lemma config_f3_5kHz_plan_ok :
  exists freq errdict, plan config_f3_5kHz true = Ok (freq, errdict, false).
Proof.
  assert (match plan config_f3_5kHz true with
          | Ok (_, _, errflag) => errflag = false
          | Raise _ => False
          end) as H by (vm_compute; reflexivity).
  destruct (plan config_f3_5kHz true) as [[[freq errdict] flag]|e]; [|contradiction].
  subst flag. eauto.
Qed.

Lemma C9_write_policy_witness :
  sent (write config_f3_5kHz synced_device false true).1 = sent synced_device /\
  exists pll lvl out,
    pll_report config_f3_5kHz = Ok pll /\ level_report config_f3_5kHz = Ok lvl /\
    output_report config_f3_5kHz = Ok out /\
    sent (write config_f3_5kHz synced_device true true).1 =
      (sent synced_device ++ [pll; lvl; out])%list /\
    byte_at pll 0 = _COMMAND_PLL /\ byte_at lvl 0 = _COMMAND_LEVEL /\
    byte_at out 0 = _COMMAND_OUTPUT.
Proof.
  destruct (C9_write_policy config_f3_5kHz synced_device true) as (Ha & Hb & Hc).
  destruct (read_synced_agrees config_f3_5kHz synced_device
              10000 2 10 100000 5 100 100 0 15 (replicate 39 Byte.x00)
              eq_refl eq_refl eq_refl eq_refl eq_refl eq_refl eq_refl eq_refl eq_refl)
    as (configdict & Hread & Hag).
  { simpl. lia. }
  { reflexivity. }
  { simpl. lia. }
  destruct config_f3_5kHz_plan_ok as (freq & errdict & Hplan).
  split; [exact (Ha configdict Hread Hag)|].
  apply Hb. apply (Hc freq errdict configdict); [|exact Hplan|exact Hread].
  split; [|simpl; lia].
  unfold spec_static_ranges.
  repeat (apply List.Forall_cons; [eexists; split; [reflexivity|simpl; lia]|]).
  apply List.Forall_nil.
Defined.

(** * Further properties *)

(** ** update: what is stored and what is reported *)

Lemma setattr_outputs s a v :
  out1 (setattr s a v) = out1 s /\ out2 (setattr s a v) = out2 s /\
  level (setattr s a v) = level s.
Proof.
  destruct s. unfold setattr.
  repeat match goal with |- context [if ?b then _ else _] => destruct b end;
    simpl; auto.
Qed.

Lemma store_argument_outputs kwargs s c :
  out1 (store_argument kwargs s c) = out1 s /\
  out2 (store_argument kwargs s c) = out2 s /\
  level (store_argument kwargs s c) = level s.
Proof.
  unfold store_argument.
  destruct (kwargs !! cc_attr c) as [x|]; [|auto].
  destruct (as_int x); [apply setattr_outputs|auto].
Qed.

Lemma fold_store_outputs kwargs rows s :
  out1 (foldl (store_argument kwargs) s rows) = out1 s /\
  out2 (foldl (store_argument kwargs) s rows) = out2 s /\
  level (foldl (store_argument kwargs) s rows) = level s.
Proof.
  revert s. induction rows as [|c rows IH]; intros s; [auto|].
  simpl. destruct (IH (store_argument kwargs s c)) as (-> & -> & ->).
  apply store_argument_outputs.
Qed.

Lemma store_outputs_fields o1 o2 lv s :
  out1 (store_outputs o1 o2 lv s) = match o1 with PyNone => out1 s | v => truthy v end /\
  out2 (store_outputs o1 o2 lv s) = match o2 with PyNone => out2 s | v => truthy v end /\
  level (store_outputs o1 o2 lv s) = match as_int lv with Some l => l | None => level s end.
Proof.
  destruct s. unfold store_outputs. destruct o1, o2, (as_int lv); simpl; auto.
Qed.

(** X1: a successful [update] stores every PLL setting supplied as an
    integer and leaves the other PLL settings as they were; out1 and out2
    become the truth value of what was supplied, the level the integer
    supplied, and each stays as it was when it is absent or [None]. *)
Theorem update_frame (self self' : GPSDO) (kwargs : gmap string PyVal) :
  update self kwargs = (self', Ok ()) ->
  (forall c, c ∈ _CONFIG_CHECKS ->
     getattr self' (cc_attr c) =
     match kwargs !! cc_attr c ≫= as_int with
     | Some v => Some v
     | None => getattr self (cc_attr c)
     end) /\
  out1 self' = match kwarg kwargs "out1" with PyNone => out1 self | v => truthy v end /\
  out2 self' = match kwarg kwargs "out2" with PyNone => out2 self | v => truthy v end /\
  level self' = match as_int (kwarg kwargs "level") with
                | Some l => l
                | None => level self
                end.
Proof.
  intros Hu. split; [intros c Hc; by apply (update_Ok_getattr self kwargs self' c)|].
  unfold update in Hu.
  destruct (check_level _ _) as [errdict|]; [|discriminate].
  case_bool_decide; [|discriminate].
  assert (self' = store_outputs (kwarg kwargs "out1") (kwarg kwargs "out2")
                    (kwarg kwargs "level")
                    (foldl (store_argument kwargs) self _CONFIG_CHECKS)) as ->
    by congruence.
  destruct (store_outputs_fields (kwarg kwargs "out1") (kwarg kwargs "out2")
              (kwarg kwargs "level") (foldl (store_argument kwargs) self _CONFIG_CHECKS))
    as (-> & -> & ->).
  destruct (fold_store_outputs kwargs _CONFIG_CHECKS self) as (-> & -> & ->).
  destruct (kwarg kwargs "out1"), (kwarg kwargs "out2"); repeat split; reflexivity.
Qed.

Lemma update_frame_witness :
  (forall c, c ∈ _CONFIG_CHECKS ->
     getattr (update init {["n3" := PyInt 7]}).1 (cc_attr c) =
     match ({["n3" := PyInt 7]} : gmap string PyVal) !! cc_attr c ≫= as_int with
     | Some v => Some v
     | None => getattr init (cc_attr c)
     end) /\
  out1 (update init {["n3" := PyInt 7]}).1 = false.
Proof.
  destruct (update_frame init (update init {["n3" := PyInt 7]}).1 {["n3" := PyInt 7]})
    as (H1 & H2 & _).
  - vm_compute. reflexivity.
  - split; [exact H1|exact H2].
Defined.





(** ** freqplan: the report as a whole *)

Lemma check_skew_insert self (errdict : gmap string (option message)) :
  errdict !! "skew" =
    Some (match skew self with None => Some (Undefined "SKEW") | Some _ => None end) ->
  check_skew self errdict = <["skew" := skew_entry self]> errdict.
Proof.
  intros He. unfold check_skew, skew_entry.
  destruct (skew self) as [s|], (nc2_ls self) as [c|];
    try destruct (s >? Z.max (c - 2) 0);
    rewrite ?lookup_insert_eq, ?He; try reflexivity;
    symmetry; by apply insert_id.
Qed.

(** The dictionary of errors a successful [plan] returns, entry by entry. *)
Lemma plan_errdict self ign freq errdict flag :
  plan self ign = Ok (freq, errdict, flag) ->
  exists f3 fosc fout1 fout2,
    (freq !! "f3" = Some f3 /\ freq !! "fosc" = Some fosc /\
     freq !! "fout1" = Some fout1 /\ freq !! "fout2" = Some fout2) /\
    errdict =
      <["skew" := skew_entry self]>
        (<["fout2" := check_frequency ign FREQ_CHECK_FOUT2 fout2]>
        (<["fout1" := check_frequency ign FREQ_CHECK_FOUT1 fout1]>
        (<["fosc" := check_frequency ign FREQ_CHECK_FOSC fosc]>
        (<["f3" := check_frequency ign FREQ_CHECK_F3 f3]>
        (foldl (check_undefined self) ∅ _CONFIG_CHECKS))))) /\
    flag = any_error errdict.
Proof.
  unfold plan. intros H.
  destruct (compute_freq self) as [freq'|] eqn:Hc; cbn [bind] in H; [|discriminate].
  destruct (compute_freq_inv self freq' Hc)
    as (f3 & fout1 & fout2 & phase & phaseres & pa & par & Hall).
  destruct Hall as (_ & _ & _ & _ & _ & _ & _ & ->).
  exists f3, (freq_fosc self f3), fout1, fout2.
  pose proof (freq_dict_lookup f3 (freq_fosc self f3) fout1 fout2 phaseres phase pa par)
    as (L1 & L2 & L3 & L4 & _).
  unfold _FREQ_CHECKS in H. cbn [check_frequencies] in H.
  unfold FREQ_CHECK_F3 at 1, FREQ_CHECK_FOSC at 1, FREQ_CHECK_FOUT1 at 1,
         FREQ_CHECK_FOUT2 at 1 in H.
  cbn [fc_attr] in H.
  rewrite L1, L2, L3, L4 in H. cbn [bind] in H.
  rewrite check_skew_insert in H
    by (repeat (rewrite lookup_insert_ne by done); apply check_undefined_skew).
  match type of H with
  | Ok (?fr, ?E, ?fl) = _ =>
      assert (freq = fr /\ errdict = E /\ flag = fl) as (-> & -> & ->)
        by (repeat split; congruence)
  end.
  clear H. repeat split; assumption.
Qed.

Lemma any_error_false (errdict : gmap string (option message)) :
  any_error errdict = false <-> forall k v, errdict !! k = Some v -> v = None.
Proof.
  unfold any_error. split.
  - intros Hex k v Hk. destruct v as [m|]; [|reflexivity].
    assert (existsb (fun kv : string * option message =>
                       match kv.2 with Some _ => true | None => false end)
                    (map_to_list errdict) = true) as Ht.
    { apply existsb_exists. exists (k, Some m).
      split; [apply list_elem_of_In, elem_of_map_to_list, Hk|reflexivity]. }
    congruence.
  - intros Hall. apply not_true_iff_false. intros Ht.
    apply existsb_exists in Ht as ([k v] & Hin & Hv).
    apply list_elem_of_In, elem_of_map_to_list in Hin.
    rewrite (Hall k v Hin) in Hv. discriminate.
Qed.

Lemma check_undefined_lookup self c :
  c ∈ _CONFIG_CHECKS ->
  foldl (check_undefined self) ∅ _CONFIG_CHECKS !! cc_attr c =
  Some (match getattr self (cc_attr c) with
        | None => Some (Undefined (cc_name c))
        | Some _ => None
        end).
Proof.
  intros Hc. unfold check_undefined. unfold _CONFIG_CHECKS at 1. cbn [foldl cc_attr cc_name].
  unfold _CONFIG_CHECKS in Hc.
  repeat (apply elem_of_cons in Hc as [->|Hc]); [ | | | | | | | | | inversion Hc];
    cbn [cc_attr cc_name];
    repeat (rewrite lookup_insert_ne by done); apply lookup_insert_eq.
Qed.

Lemma fold_check_undefined_keys self rows (errdict : gmap string (option message)) k :
  is_Some (foldl (check_undefined self) errdict rows !! k) ->
  is_Some (errdict !! k) \/ exists c, c ∈ rows /\ k = cc_attr c.
Proof.
  revert errdict. induction rows as [|c rows IH]; intros errdict H; [by left|].
  simpl in H. apply IH in H as [H|(c' & Hc' & ->)].
  - unfold check_undefined in H.
    destruct (decide (cc_attr c = k)) as [<-|Hne].
    + right. exists c. split; [left|reflexivity].
    + rewrite lookup_insert_ne in H by done. by left.
  - right. exists c'. split; [by right|reflexivity].
Qed.

Lemma check_undefined_keys self k v :
  foldl (check_undefined self) ∅ _CONFIG_CHECKS !! k = Some v ->
  exists c, c ∈ _CONFIG_CHECKS /\ k = cc_attr c.
Proof.
  intros H.
  destruct (fold_check_undefined_keys self _CONFIG_CHECKS ∅ k) as [[x Hx]|Hc]; eauto.
  rewrite lookup_empty in Hx. discriminate.
Qed.

Lemma check_frequency_None ign c value :
  check_frequency ign c value = None <->
  exists v, value = Some v /\
            (ign = true \/ (inject_Z (fc_lmin c) <= v /\ v <= inject_Z (fc_lmax c))%Q).
Proof.
  unfold check_frequency. destruct value as [v|].
  - destruct ign.
    + split; eauto.
    + destruct (frac_lt_int v (fc_lmin c)) eqn:Hlt;
        [|destruct (frac_gt_int v (fc_lmax c)) eqn:Hgt]; simpl.
      * apply frac_lt_int_true in Hlt. split; [discriminate|].
        intros (v' & [= <-] & [?|[Hle _]]); [discriminate|].
        exfalso. exact (Qlt_not_le _ _ Hlt Hle).
      * apply frac_gt_int_true in Hgt. split; [discriminate|].
        intros (v' & [= <-] & [?|[_ Hle]]); [discriminate|].
        exfalso. exact (Qlt_not_le _ _ Hgt Hle).
      * split; [|reflexivity]. intros _. exists v. split; [reflexivity|]. right.
        split; apply Qnot_lt_le; intros Hc.
        -- apply frac_lt_int_true in Hc. congruence.
        -- apply frac_gt_int_true in Hc. congruence.
  - split; [discriminate|]. intros (v & Hv & _). discriminate.
Qed.

Lemma config_checks_not_freq c :
  c ∈ _CONFIG_CHECKS ->
  cc_attr c <> "f3" /\ cc_attr c <> "fosc" /\ cc_attr c <> "fout1" /\ cc_attr c <> "fout2".
Proof.
  intros Hc. unfold _CONFIG_CHECKS in Hc.
  repeat (apply elem_of_cons in Hc as [->|Hc]); [ | | | | | | | | | inversion Hc];
    repeat split; discriminate.
Qed.

(** X3: the error flag of a [freqplan] that returns is clear exactly when
    all nine PLL settings are defined, each of f3, fosc, fout1 and fout2 is
    defined and (unless the limits are ignored) inside its limits, and the
    skew does not exceed max(nc2_ls - 2, 0). The dictionary of errors has
    an entry for these thirteen names and for no other. *)
Theorem freqplan_no_error_iff (self : GPSDO) (modify ign : bool)
    (freq : gmap string (option Q)) (errdict : gmap string (option message))
    (flag : bool) :
  (freqplan self modify ign).2 = Ok (freq, errdict, flag) ->
  (flag = false <->
   (forall c, c ∈ _CONFIG_CHECKS ->
      is_Some (getattr (freqplan self modify ign).1 (cc_attr c))) /\
   (forall c, c ∈ _FREQ_CHECKS ->
      exists v, freq !! fc_attr c = Some (Some v) /\
                (ign = true \/
                 (inject_Z (fc_lmin c) <= v /\ v <= inject_Z (fc_lmax c))%Q)) /\
   (forall s c, skew (freqplan self modify ign).1 = Some s ->
                nc2_ls (freqplan self modify ign).1 = Some c ->
                s <= Z.max (c - 2) 0)) /\
  (forall k, is_Some (errdict !! k) <->
             k ∈ (["f3"; "fosc"; "fout1"; "fout2"] ++ (cc_attr <$> _CONFIG_CHECKS))%list).
Proof.
  rewrite freqplan_unfold. cbn [fst freqplan].
  set (self' := if modify then freqplan_modify self else self).
  intros Hp.
  apply plan_errdict in Hp
    as (f3 & fosc & fout1 & fout2 & (F1 & F2 & F3 & F4) & HE & ->).
  set (E0 := foldl (check_undefined self') ∅ _CONFIG_CHECKS) in HE.
  assert (errdict !! "skew" = Some (skew_entry self')) as Lsk
    by (rewrite HE; apply lookup_insert_eq).
  assert (errdict !! "f3" = Some (check_frequency ign FREQ_CHECK_F3 f3) /\
          errdict !! "fosc" = Some (check_frequency ign FREQ_CHECK_FOSC fosc) /\
          errdict !! "fout1" = Some (check_frequency ign FREQ_CHECK_FOUT1 fout1) /\
          errdict !! "fout2" = Some (check_frequency ign FREQ_CHECK_FOUT2 fout2))
    as (L1 & L2 & L3 & L4)
    by (rewrite HE; repeat split;
        repeat (rewrite lookup_insert_ne by done); apply lookup_insert_eq).
  assert (forall c, c ∈ _CONFIG_CHECKS -> cc_attr c <> "skew" ->
            errdict !! cc_attr c =
            Some (match getattr self' (cc_attr c) with
                  | None => Some (Undefined (cc_name c))
                  | Some _ => None
                  end)) as Lc.
  { intros c Hc Hns. destruct (config_checks_not_freq c Hc) as (? & ? & ? & ?).
    rewrite HE. repeat (rewrite lookup_insert_ne by done).
    by apply check_undefined_lookup. }
  assert (forall k v, errdict !! k = Some v ->
            (k = "skew" /\ v = skew_entry self') \/
            (k = "f3" /\ v = check_frequency ign FREQ_CHECK_F3 f3) \/
            (k = "fosc" /\ v = check_frequency ign FREQ_CHECK_FOSC fosc) \/
            (k = "fout1" /\ v = check_frequency ign FREQ_CHECK_FOUT1 fout1) \/
            (k = "fout2" /\ v = check_frequency ign FREQ_CHECK_FOUT2 fout2) \/
            (exists c, c ∈ _CONFIG_CHECKS /\ k = cc_attr c /\ k <> "skew" /\
                       v = match getattr self' (cc_attr c) with
                           | None => Some (Undefined (cc_name c))
                           | Some _ => None
                           end)) as Hcases.
  { intros k v Hk.
    destruct (decide (k = "skew")) as [->|Hns]; [left; split; [done|congruence]|].
    destruct (decide (k = "f3")) as [->|Hn1]; [right; left; split; [done|congruence]|].
    destruct (decide (k = "fosc")) as [->|Hn2];
      [right; right; left; split; [done|congruence]|].
    destruct (decide (k = "fout1")) as [->|Hn3];
      [right; right; right; left; split; [done|congruence]|].
    destruct (decide (k = "fout2")) as [->|Hn4];
      [right; right; right; right; left; split; [done|congruence]|].
    do 5 right. pose proof Hk as Hk'. rewrite HE in Hk'.
    repeat (rewrite lookup_insert_ne in Hk' by done).
    destruct (check_undefined_keys self' k v Hk') as (c & Hc & ->).
    exists c. repeat split; try done.
    rewrite Lc in Hk by done. congruence. }
  assert (forall i c, _CONFIG_CHECKS !! i = Some c -> c ∈ _CONFIG_CHECKS) as Hin
    by (intros i c Hi; eapply list_elem_of_lookup_2, Hi).
  split.
  - rewrite any_error_false. split.
    + intros Hnone. split; [|split].
      * intros c Hc. destruct (decide (cc_attr c = "skew")) as [Heq|Hns].
        -- rewrite Heq. pose proof (Hnone _ _ Lsk) as Hs. unfold skew_entry in Hs.
           change (getattr self' "skew") with (skew self').
           destruct (skew self'); [eauto|discriminate].
        -- pose proof (Hnone _ _ (Lc c Hc Hns)) as Hs.
           destruct (getattr self' (cc_attr c)); [eauto|discriminate].
      * intros c Hc. unfold _FREQ_CHECKS in Hc.
        repeat (apply elem_of_cons in Hc as [->|Hc]); [ | | | |inversion Hc].
        -- apply (Hnone _ _) in L1. apply check_frequency_None in L1 as (v & -> & Hv).
           exists v. split; [exact F1|exact Hv].
        -- apply (Hnone _ _) in L2. apply check_frequency_None in L2 as (v & -> & Hv).
           exists v. split; [exact F2|exact Hv].
        -- apply (Hnone _ _) in L3. apply check_frequency_None in L3 as (v & -> & Hv).
           exists v. split; [exact F3|exact Hv].
        -- apply (Hnone _ _) in L4. apply check_frequency_None in L4 as (v & -> & Hv).
           exists v. split; [exact F4|exact Hv].
      * intros s c Hs Hc. apply (Hnone _ _) in Lsk. unfold skew_entry in Lsk.
        rewrite Hs, Hc, Z.gtb_ltb in Lsk.
        destruct (Z.ltb_spec (Z.max (c - 2) 0) s); [discriminate|assumption].
    + intros (Hdef & Hfreq & Hskew) k v Hk.
      assert (forall c value, c ∈ _FREQ_CHECKS -> freq !! fc_attr c = Some value ->
                check_frequency ign c value = None) as Hfr.
      { intros c value Hc Hval. apply check_frequency_None.
        destruct (Hfreq c Hc) as (x & Hx & Hr). exists x. split; [congruence|exact Hr]. }
      destruct (Hcases k v Hk)
        as [[-> ->]|[[-> ->]|[[-> ->]|[[-> ->]|[[-> ->]|(c & Hc & -> & Hns & ->)]]]]].
      * unfold skew_entry.
        destruct (skew self') as [s|] eqn:Hs.
        -- destruct (nc2_ls self') as [c|] eqn:Hc; [|reflexivity].
           rewrite Z.gtb_ltb. pose proof (Hskew s c eq_refl eq_refl).
           destruct (Z.ltb_spec (Z.max (c - 2) 0) s); [lia|reflexivity].
        -- destruct (Hdef _ (Hin 7%nat _ eq_refl)) as [x Hx].
           change (skew self' = Some x) in Hx. congruence.
      * apply Hfr; [unfold _FREQ_CHECKS;
                    repeat first [apply list_elem_of_here | apply list_elem_of_further]|exact F1].
      * apply Hfr; [unfold _FREQ_CHECKS;
                    repeat first [apply list_elem_of_here | apply list_elem_of_further]|exact F2].
      * apply Hfr; [unfold _FREQ_CHECKS;
                    repeat first [apply list_elem_of_here | apply list_elem_of_further]|exact F3].
      * apply Hfr; [unfold _FREQ_CHECKS;
                    repeat first [apply list_elem_of_here | apply list_elem_of_further]|exact F4].
      * destruct (Hdef c Hc) as [x ->]. reflexivity.
  - intros k. split.
    + intros [v Hk].
      destruct (Hcases k v Hk)
        as [[-> _]|[[-> _]|[[-> _]|[[-> _]|[[-> _]|(c & Hc & -> & _)]]]]].
      * apply elem_of_app. right.
        change "skew" with (cc_attr (ConfigCheck "skew" "SKEW" 0 255 0 "in the range of 0 to 255")).
        apply list_elem_of_fmap_2. in_table.
      * apply elem_of_app. left.
        repeat first [apply list_elem_of_here | apply list_elem_of_further].
      * apply elem_of_app. left.
        repeat first [apply list_elem_of_here | apply list_elem_of_further].
      * apply elem_of_app. left.
        repeat first [apply list_elem_of_here | apply list_elem_of_further].
      * apply elem_of_app. left.
        repeat first [apply list_elem_of_here | apply list_elem_of_further].
      * apply elem_of_app. right. by apply list_elem_of_fmap_2.
    + intros Hk. apply elem_of_app in Hk as [Hk|Hk].
      * repeat (apply elem_of_cons in Hk as [->|Hk]); [eauto|eauto|eauto|eauto|inversion Hk].
      * apply list_elem_of_fmap in Hk as (c & -> & Hc).
        destruct (decide (cc_attr c = "skew")) as [Heq|Hns].
        -- rewrite Heq. eauto.
        -- rewrite Lc by done. eauto.
Qed.

Lemma freqplan_no_error_iff_witness :
  exists freq errdict flag,
    (freqplan config_f3_5kHz false true).2 = Ok (freq, errdict, flag) /\
    forall k, is_Some (errdict !! k) <->
              k ∈ (["f3"; "fosc"; "fout1"; "fout2"] ++ (cc_attr <$> _CONFIG_CHECKS))%list.
Proof.
  destruct (plan_returns config_f3_5kHz true config_f3_5kHz_no_zero)
    as [[[freq errdict] flag] Hp].
  exists freq, errdict, flag. split; [exact Hp|].
  exact (proj2 (freqplan_no_error_iff config_f3_5kHz false true freq errdict flag Hp)).
Defined.

(** ** asdict and update *)

Lemma plan_no_error_defined self ign freq errdict c :
  plan self ign = Ok (freq, errdict, false) -> c ∈ _CONFIG_CHECKS ->
  is_Some (getattr self (cc_attr c)).
Proof.
  intros Hp Hc.
  apply plan_errdict in Hp as (f3 & fosc & fout1 & fout2 & _ & HE & Hflag).
  symmetry in Hflag. rewrite any_error_false in Hflag.
  destruct (decide (cc_attr c = "skew")) as [Heq|Hns].
  - rewrite Heq. change (getattr self "skew") with (skew self).
    assert (errdict !! "skew" = Some (skew_entry self)) as Lsk
      by (rewrite HE; apply lookup_insert_eq).
    apply Hflag in Lsk. unfold skew_entry in Lsk.
    destruct (skew self); [eauto|discriminate].
  - destruct (config_checks_not_freq c Hc) as (? & ? & ? & ?).
    assert (errdict !! cc_attr c =
            Some (match getattr self (cc_attr c) with
                  | None => Some (Undefined (cc_name c))
                  | Some _ => None
                  end)) as Lc.
    { rewrite HE. repeat (rewrite lookup_insert_ne by done).
      by apply check_undefined_lookup. }
    apply Hflag in Lc. destruct (getattr self (cc_attr c)); [eauto|discriminate].
Qed.

Lemma update_Ok_outputs self kwargs self' :
  update self kwargs = (self', Ok ()) ->
  out1 self' = match kwarg kwargs "out1" with PyNone => out1 self | v => truthy v end /\
  out2 self' = match kwarg kwargs "out2" with PyNone => out2 self | v => truthy v end /\
  level self' = match as_int (kwarg kwargs "level") with
                | Some l => l
                | None => level self
                end.
Proof.
  intros Hu. unfold update in Hu.
  destruct (check_level _ _) as [errdict|]; [|discriminate].
  case_bool_decide; [|discriminate].
  assert (self' = store_outputs (kwarg kwargs "out1") (kwarg kwargs "out2")
                    (kwarg kwargs "level")
                    (foldl (store_argument kwargs) self _CONFIG_CHECKS)) as ->
    by congruence.
  destruct (store_outputs_fields (kwarg kwargs "out1") (kwarg kwargs "out2")
              (kwarg kwargs "level") (foldl (store_argument kwargs) self _CONFIG_CHECKS))
    as (-> & -> & ->).
  destruct (fold_store_outputs kwargs _CONFIG_CHECKS self) as (-> & -> & ->).
  destruct (kwarg kwargs "out1"), (kwarg kwargs "out2"); repeat split; reflexivity.
Qed.

(** Two instances with the same twelve attributes are the same. *)
Lemma GPSDO_ext (s t : GPSDO) :
  (forall c, c ∈ _CONFIG_CHECKS -> getattr s (cc_attr c) = getattr t (cc_attr c)) ->
  out1 s = out1 t -> out2 s = out2 t -> level s = level t -> s = t.
Proof.
  intros Hall H1 H2 H3.
  assert (forall i c, _CONFIG_CHECKS !! i = Some c ->
                      getattr s (cc_attr c) = getattr t (cc_attr c)) as Hi
    by (intros i c Hc; apply Hall; eapply list_elem_of_lookup_2, Hc).
  pose proof (Hi 0%nat _ eq_refl) as G0. pose proof (Hi 1%nat _ eq_refl) as G1.
  pose proof (Hi 2%nat _ eq_refl) as G2. pose proof (Hi 3%nat _ eq_refl) as G3.
  pose proof (Hi 4%nat _ eq_refl) as G4. pose proof (Hi 5%nat _ eq_refl) as G5.
  pose proof (Hi 6%nat _ eq_refl) as G6. pose proof (Hi 7%nat _ eq_refl) as G7.
  pose proof (Hi 8%nat _ eq_refl) as G8.
  destruct s, t. unfold getattr in *. simpl in *. congruence.
Qed.

Lemma configdict_of_attr self c :
  c ∈ _CONFIG_CHECKS ->
  configdict_of self !! cc_attr c = Some (py_of_attr (getattr self (cc_attr c))).
Proof.
  intros Hc.
  destruct (configdict_of_lookup self)
    as (L1 & L2 & L3 & L4 & L5 & L6 & L7 & L8 & L9 & L10 & L11 & L12).
  unfold _CONFIG_CHECKS in Hc.
  repeat (apply elem_of_cons in Hc as [->|Hc]); [ | | | | | | | | | inversion Hc];
    assumption.
Qed.

Lemma configdict_of_keys self k v :
  configdict_of self !! k = Some v ->
  (k = "out1" /\ v = PyBool (out1 self)) \/ (k = "out2" /\ v = PyBool (out2 self)) \/
  (k = "level" /\ v = PyInt (level self)) \/
  exists c, c ∈ _CONFIG_CHECKS /\ k = cc_attr c /\ v = py_of_attr (getattr self (cc_attr c)).
Proof.
  intros Hk.
  destruct (decide (k = "out1")) as [->|N1].
  { left. destruct (configdict_of_lookup self) as (L & _). split; [done|congruence]. }
  destruct (decide (k = "out2")) as [->|N2].
  { right. left. destruct (configdict_of_lookup self) as (_ & L & _).
    split; [done|congruence]. }
  destruct (decide (k = "level")) as [->|N3].
  { right. right. left. destruct (configdict_of_lookup self) as (_ & _ & L & _).
    split; [done|congruence]. }
  do 3 right.
  assert (exists c, c ∈ _CONFIG_CHECKS /\ k = cc_attr c) as (c & Hc & ->).
  { destruct (decide (k ∈ cc_attr <$> _CONFIG_CHECKS)) as [Hin|Hnotin].
    - apply list_elem_of_fmap in Hin as (c & -> & Hc). eauto.
    - exfalso. pose proof Hk as Hk'. unfold configdict_of in Hk'. cbn in Hnotin.
      repeat (apply not_elem_of_cons in Hnotin as [? Hnotin]).
      repeat (rewrite lookup_insert_ne in Hk' by done).
      rewrite lookup_empty in Hk'. discriminate. }
  exists c. repeat split; try done.
  rewrite (configdict_of_attr self c Hc) in Hk. congruence.
Qed.

(** X4: the dictionary [asdict] returns is the dictionary of the twelve
    attributes and holds no [None]. Passed to [update] on any instance, it
    is accepted exactly when the settings pass the rows of [_CONFIG_CHECKS]
    and the level is one of 0..3, and then the instance updated equals the
    one the dictionary was taken from. *)
Theorem asdict_update_roundtrip (self : GPSDO) (ign : bool) (d : gmap string PyVal) :
  asdict self ign = Ok d ->
  d = configdict_of self /\
  (forall k v, d !! k = Some v -> v <> PyNone) /\
  forall s : GPSDO,
    ((update s d).2 = Ok () <-> passes_checks self) /\
    ((update s d).2 = Ok () -> (update s d).1 = self).
Proof.
  unfold asdict. rewrite freqplan_unfold.
  destruct (plan self ign) as [[[freq errdict] flag]|e] eqn:Hp; cbn [bind]; [|discriminate].
  destruct flag; [discriminate|]. intros Hd.
  assert (d = configdict_of self) as -> by congruence. clear Hd.
  assert (forall c, c ∈ _CONFIG_CHECKS -> is_Some (getattr self (cc_attr c))) as Hdef
    by (intros c Hc; eapply plan_no_error_defined; eassumption).
  assert (forall c v, c ∈ _CONFIG_CHECKS -> getattr self (cc_attr c) = Some v ->
            configdict_of self !! cc_attr c = Some (PyInt v)) as Hlk.
  { intros c v Hc Hv. rewrite configdict_of_attr by done. by rewrite Hv. }
  destruct (configdict_of_lookup self) as (L1 & L2 & L3 & _).
  split; [reflexivity|]. split.
  - intros k v Hk.
    destruct (configdict_of_keys self k v Hk)
      as [[_ ->]|[[_ ->]|[[_ ->]|(c & Hc & _ & ->)]]]; try discriminate.
    destruct (Hdef c Hc) as [x ->]. discriminate.
  - intros s. split.
    + rewrite update_Ok_iff. unfold kwarg. rewrite L3. cbn [default from_option].
      unfold passes_checks. rewrite !Forall_forall. split.
      * intros [Hall (l & [= <-] & Hl)]. split; [|exact Hl].
        intros c Hc. destruct (Hdef c Hc) as [v Hv]. exists v. split; [exact Hv|].
        apply (verdict_int_None (configdict_of self) c (PyInt v) v);
          [by apply Hlk|reflexivity|by apply Hall].
      * intros [Hall Hl]. split; [|exists (level self); split; [reflexivity|exact Hl]].
        intros c Hc. destruct (Hall c Hc) as (v & Hv & Hok).
        apply (verdict_int_None (configdict_of self) c (PyInt v) v);
          [by apply Hlk|reflexivity|exact Hok].
    + destruct (update s (configdict_of self)) as [s' r] eqn:Hu. cbn [fst snd].
      intros ->.
      destruct (update_Ok_outputs s (configdict_of self) s' Hu) as (O1 & O2 & O3).
      unfold kwarg in O1, O2, O3. rewrite L1 in O1. rewrite L2 in O2. rewrite L3 in O3.
      apply GPSDO_ext; try assumption.
      intros c Hc. rewrite (update_Ok_getattr s _ s' c Hu Hc).
      destruct (Hdef c Hc) as [v Hv]. rewrite (Hlk c v Hc Hv). by rewrite Hv.
Qed.

Lemma asdict_update_roundtrip_witness :
  exists d,
    asdict config_f3_5kHz true = Ok d /\ d = configdict_of config_f3_5kHz /\
    (update init d).1 = config_f3_5kHz.
Proof.
  destruct config_f3_5kHz_plan_ok as (freq & errdict & Hp).
  assert (asdict config_f3_5kHz true = Ok (configdict_of config_f3_5kHz)) as Ha.
  { unfold asdict. rewrite freqplan_unfold, Hp. reflexivity. }
  exists (configdict_of config_f3_5kHz). split; [exact Ha|].
  destruct (asdict_update_roundtrip config_f3_5kHz true _ Ha) as (H1 & _ & H3).
  split; [exact H1|].
  destruct (H3 init) as [Hiff Hsame]. apply Hsame, Hiff.
  split; [|simpl; lia].
  unfold _CONFIG_CHECKS.
  repeat (apply List.Forall_cons;
          [eexists; split; [reflexivity|
             split; [first [left; reflexivity | right; reflexivity]|
                     split; apply Z.leb_le; reflexivity]]|]).
  apply List.Forall_nil.
Defined.

(** ** freqplan: exceptions, exact values, the modify block *)









Lemma inject_Z_nonzero z : z <> 0 -> ~ (inject_Z z == 0)%Q.
Proof. intros Hz He. apply Qeq_0_num in He. simpl in He. contradiction. Qed.

Lemma Qred_Qred q : Qred (Qred q) = Qred q.
Proof. apply Qred_complete, Qred_correct. Qed.

(** X6: when the settings are defined and [freqplan] returns, the plan
    holds the exact values f3 = fin/n3, fosc = fin*n2_hs*n2_ls/n3,
    fout1 = fosc/(n1_hs*nc1_ls), fout2 = fosc/(n1_hs*nc2_ls),
    phaseres = n1_hs/fosc and phase = skew*phaseres, each as a fraction in
    lowest terms. *)
Theorem freqplan_values (self : GPSDO) (modify ign : bool)
    (freq : gmap string (option Q)) (errdict : gmap string (option message))
    (flag : bool) (a b h l k c1 c2 s : Z) :
  fin (freqplan self modify ign).1 = Some a -> n3 (freqplan self modify ign).1 = Some b ->
  n2_hs (freqplan self modify ign).1 = Some h -> n2_ls (freqplan self modify ign).1 = Some l ->
  n1_hs (freqplan self modify ign).1 = Some k ->
  nc1_ls (freqplan self modify ign).1 = Some c1 ->
  nc2_ls (freqplan self modify ign).1 = Some c2 ->
  skew (freqplan self modify ign).1 = Some s ->
  (freqplan self modify ign).2 = Ok (freq, errdict, flag) ->
  exists f3 fosc fout1 fout2 phaseres phase : Q,
    (freq !! "f3" = Some (Some f3) /\ freq !! "fosc" = Some (Some fosc) /\
     freq !! "fout1" = Some (Some fout1) /\ freq !! "fout2" = Some (Some fout2) /\
     freq !! "phaseres" = Some (Some phaseres) /\ freq !! "phase" = Some (Some phase)) /\
    (f3 == inject_Z a / inject_Z b /\
     fosc == inject_Z (a * h * l) / inject_Z b /\
     fout1 == fosc / inject_Z (k * c1) /\
     fout2 == fosc / inject_Z (k * c2) /\
     fout1 == inject_Z (a * h * l) / inject_Z (b * k * c1) /\
     fout2 == inject_Z (a * h * l) / inject_Z (b * k * c2) /\
     phaseres == inject_Z k / fosc /\
     phase == inject_Z s * phaseres)%Q /\
    (Qred f3 = f3 /\ Qred fosc = fosc /\ Qred fout1 = fout1 /\ Qred fout2 = fout2 /\
     Qred phaseres = phaseres /\ Qred phase = phase) /\
    (b <> 0 /\ k * c1 <> 0 /\ k * c2 <> 0 /\ ~ (fosc == 0)%Q).
Proof.
  rewrite freqplan_unfold. cbn [fst freqplan].
  set (self' := if modify then freqplan_modify self else self).
  intros Ha Hb Hh Hl Hk Hc1 Hc2 Hs Hp.
  apply plan_inv in Hp
    as (f3 & fout1 & fout2 & phase & phaseres & pa & par
        & (H3 & H1 & H2 & Hph & Hpr & _ & _ & ->) & _).
  unfold freq_f3 in H3. rewrite Ha, Hb in H3. unfold Fraction in H3.
  destruct (Z.eqb_spec b 0) as [|Hb0]; [discriminate|]. cbn [bind] in H3.
  assert (f3 = Some (Qred (inject_Z a / inject_Z b))) as -> by congruence. clear H3.
  set (F3 := Qred (inject_Z a / inject_Z b)) in *.
  unfold freq_fosc in *. rewrite Hh, Hl in *.
  set (FO := frac_mul_int (frac_mul_int F3 h) l) in *.
  unfold freq_fout in H1, H2. rewrite Hk in H1, H2. rewrite Hc1 in H1. rewrite Hc2 in H2.
  unfold frac_div_int in H1, H2.
  destruct (Z.eqb_spec (k * c1) 0) as [|Hkc1]; [discriminate|].
  destruct (Z.eqb_spec (k * c2) 0) as [|Hkc2]; [discriminate|].
  cbn [bind] in H1, H2.
  assert (fout1 = Some (Qred (FO / inject_Z (k * c1)))) as -> by congruence.
  assert (fout2 = Some (Qred (FO / inject_Z (k * c2)))) as -> by congruence.
  clear H1 H2.
  unfold freq_phase in Hph. rewrite Hk, Hs in Hph.
  unfold freq_phaseres in Hpr. rewrite Hk in Hpr.
  unfold int_div_frac in Hph, Hpr.
  destruct (Qeq_bool FO 0) eqn:HFO; [discriminate|]. cbn [bind] in Hph, Hpr.
  assert (phase = Some (Qred (inject_Z (s * k) / FO))) as -> by congruence.
  assert (phaseres = Some (Qred (inject_Z k / FO))) as -> by congruence.
  clear Hph Hpr.
  assert (~ (FO == 0)%Q) as HFO0.
  { intros He. apply Qeq_bool_iff in He. congruence. }
  exists F3, FO, (Qred (FO / inject_Z (k * c1))), (Qred (FO / inject_Z (k * c2))),
         (Qred (inject_Z k / FO)), (Qred (inject_Z (s * k) / FO)).
  match goal with
  | |- context [freq_dict ?x1 ?x2 ?x3 ?x4 ?x5 ?x6 ?x7 ?x8] =>
      destruct (freq_dict_lookup x1 x2 x3 x4 x5 x6 x7 x8)
        as (L1 & L2 & L3 & L4 & L5 & L6 & _)
  end.
  split; [repeat split; assumption|].
  assert (F3 == inject_Z a / inject_Z b)%Q as E3 by apply Qred_correct.
  assert (FO == inject_Z (a * h * l) / inject_Z b)%Q as EO.
  { unfold FO, frac_mul_int.
    eapply Qeq_trans; [apply Qred_correct|].
    setoid_rewrite (Qred_correct (F3 * inject_Z h)). setoid_rewrite E3.
    rewrite !inject_Z_mult. field. by apply inject_Z_nonzero. }
  assert (~ (inject_Z b == 0)%Q) as Hb' by (by apply inject_Z_nonzero).
  assert (~ (inject_Z (k * c1) == 0)%Q) as Hkc1' by (by apply inject_Z_nonzero).
  assert (~ (inject_Z (k * c2) == 0)%Q) as Hkc2' by (by apply inject_Z_nonzero).
  assert (a * h * l <> 0) as Hahl.
  { intros Hz. apply HFO0. rewrite EO, Hz. unfold Qdiv. apply Qmult_0_l. }
  assert (~ (inject_Z (a * h * l) == 0)%Q) as Hahl' by (by apply inject_Z_nonzero).
  split; [|split].
  - split; [exact E3|]. split; [exact EO|].
    split; [apply Qred_correct|]. split; [apply Qred_correct|].
    split; [|split; [|split]].
    + eapply Qeq_trans; [apply Qred_correct|]. setoid_rewrite EO.
      rewrite !inject_Z_mult. field. repeat split; apply inject_Z_nonzero; lia.
    + eapply Qeq_trans; [apply Qred_correct|]. setoid_rewrite EO.
      rewrite !inject_Z_mult. field. repeat split; apply inject_Z_nonzero; lia.
    + apply Qred_correct.
    + eapply Qeq_trans; [apply Qred_correct|].
      setoid_rewrite (Qred_correct (inject_Z k / FO)).
      rewrite inject_Z_mult. field. exact HFO0.
  - unfold F3, FO, frac_mul_int. repeat split; apply Qred_Qred.
  - repeat split; assumption.
Qed.

Lemma freqplan_values_witness :
  exists freq errdict flag fosc,
    (freqplan config_f3_5kHz false true).2 = Ok (freq, errdict, flag) /\
    freq !! "fosc" = Some (Some fosc) /\
    (fosc == inject_Z (10000 * 10 * 100000) / inject_Z 2)%Q.
Proof.
  destruct (plan_returns config_f3_5kHz true config_f3_5kHz_no_zero)
    as [[[freq errdict] flag] Hp].
  destruct (freqplan_values config_f3_5kHz false true freq errdict flag
              10000 2 10 100000 5 100 100 0
              eq_refl eq_refl eq_refl eq_refl eq_refl eq_refl eq_refl eq_refl Hp)
    as (f3 & fosc & fout1 & fout2 & phaseres & phase & (_ & L & _) & (_ & E & _) & _).
  exists freq, errdict, flag, fosc. split; [exact Hp|]. split; [exact L|exact E].
Defined.

(** X7: the [modify] block of [freqplan] assigns to nc1_ls and nc2_ls only.
    A divider that is defined, and the divider of an enabled output, is
    left as it is; with one output enabled, the undefined divider of the
    disabled output takes the value of the other; with both outputs
    disabled, no divider is left undefined (5670 is stored); a second pass
    changes nothing. Without [modify] the instance is not changed. *)
Theorem freqplan_modify_block (self : GPSDO) (ign : bool) :
  let self' := (freqplan self true ign).1 in
  (out1 self' = out1 self /\ out2 self' = out2 self /\ level self' = level self /\
   fin self' = fin self /\ n3 self' = n3 self /\ n2_hs self' = n2_hs self /\
   n2_ls self' = n2_ls self /\ n1_hs self' = n1_hs self /\ skew self' = skew self /\
   bw self' = bw self) /\
  (forall c, nc1_ls self = Some c -> nc1_ls self' = Some c) /\
  (forall c, nc2_ls self = Some c -> nc2_ls self' = Some c) /\
  (out1 self = true -> nc1_ls self' = nc1_ls self) /\
  (out2 self = true -> nc2_ls self' = nc2_ls self) /\
  (out1 self = false -> out2 self = true -> nc1_ls self = None ->
   nc1_ls self' = nc2_ls self) /\
  (out2 self = false -> out1 self = true -> nc2_ls self = None ->
   nc2_ls self' = nc1_ls self) /\
  (out1 self = false -> out2 self = false ->
   nc1_ls self' = Some (default 5670 (nc1_ls self)) /\
   nc2_ls self' = Some (default 5670 (nc2_ls self))) /\
  (freqplan self' true ign).1 = self' /\
  (freqplan self false ign).1 = self.
Proof.
  destruct self as [o1 o2 lv a b c d e f g h i].
  destruct o1, o2, f as [f|], g as [g|]; intros self';
    vm_compute in self'; subst self'; cbn [out1 out2 level fin n3 n2_hs n2_ls n1_hs
                                           nc1_ls nc2_ls skew bw];
    repeat split; intros; first [reflexivity | discriminate | congruence].
Qed.

Lemma freqplan_modify_block_witness :
  nc1_ls (freqplan init true false).1 = Some 5670 /\
  nc2_ls (freqplan init true false).1 = Some 5670.
Proof.
  exact (proj1 (proj2 (proj2 (proj2 (proj2 (proj2 (proj2 (proj2
           (freqplan_modify_block init false))))))))
           eq_refl eq_refl).
Defined.

(** ** Reading the device *)

(** X8: [read_config] without [update] leaves the instance alone and
    decodes the feature report: a report of 21 bytes or more gives the
    dictionary of the twelve settings, an empty report raises [IndexError]
    (at [buf[0]]) and a report of 1 to 20 bytes raises [struct.error] (at
    the first field that is cut short). *)
Theorem read_config_length (self : GPSDO) (dev : HidDevice) :
  read_config self dev false = (self, decode_config (feature_report dev)) /\
  ((21 <= length (feature_report dev))%nat ->
   decode_config (feature_report dev) = Ok (decoded (feature_report dev))) /\
  (feature_report dev = [] -> decode_config (feature_report dev) = Raise IndexError) /\
  ((0 < length (feature_report dev) < 21)%nat ->
   decode_config (feature_report dev) = Raise StructError).
Proof.
  split; [|split; [|split]].
  - unfold read_config. destruct (decode_config (feature_report dev)); reflexivity.
  - apply decode_config_Ok.
  - intros ->. reflexivity.
  - generalize (feature_report dev). intros buf [Hpos Hlt].
    do 21 (destruct buf as [|? buf];
           [first [by (exfalso; simpl in Hpos; lia) | reflexivity]|]).
    simpl in Hlt. lia.
Qed.

Lemma read_config_length_witness :
  decode_config (feature_report blank_device) =
  Ok (decoded (feature_report blank_device)).
Proof.
  apply (proj1 (proj2 (read_config_length init blank_device))). simpl. lia.
Defined.




Lemma decoded_lookup_rest buf :
  decoded buf !! "out1" = Some (PyBool (negb (Z.land (byte_at buf 0) OUTPUT1 =? 0))) /\
  decoded buf !! "out2" = Some (PyBool (negb (Z.land (byte_at buf 0) OUTPUT2 =? 0))) /\
  decoded buf !! "level" = Some (PyInt (byte_at buf 1)) /\
  decoded buf !! "skew" = Some (PyInt (byte_at buf 19)) /\
  decoded buf !! "bw" = Some (PyInt (byte_at buf 20)).
Proof.
  unfold decoded. repeat split;
    repeat (rewrite lookup_insert_ne by done); apply lookup_insert_eq.
Qed.

(** With an integer level [update] either returns or raises
    GPSDOConfigurationException with a dictionary that is not empty. *)
Lemma update_int_level self kwargs z :
  kwargs !! "level" = Some (PyInt z) ->
  (update self kwargs).2 = Ok () \/
  exists errdict, errdict <> ∅ /\
    update self kwargs = (self, Raise (GPSDOConfigurationException errdict)).
Proof.
  intros Hl. unfold update, kwarg. rewrite Hl. cbn [default from_option id].
  unfold check_level. cbn [as_int].
  destruct ((z <? 0) || (z >? 3)); case_bool_decide; eauto.
Qed.

(** The rows of [_CONFIG_CHECKS] on a decoded report, in terms of the
    registers. *)
Lemma decoded_verdicts buf :
  Forall (fun c => verdict (decoded buf) c = None) _CONFIG_CHECKS <->
  10000 <= le24_at buf 2 <= 16000000 /\
  le24_at buf 5 < 2^19 /\
  byte_at buf 8 <= 7 /\
  (Z.odd (le24_at buf 9) = true /\ le24_at buf 9 < 2^20) /\
  byte_at buf 12 <= 7 /\
  (Z.odd (le24_at buf 13) = true /\ le24_at buf 13 < 2^20) /\
  (Z.odd (le24_at buf 16) = true /\ le24_at buf 16 < 2^20) /\
  byte_at buf 20 <= 15.
Proof.
  destruct (decoded_lookup buf) as (L1 & L2 & L3 & L4 & L5 & L6 & L7).
  destruct (decoded_lookup_rest buf) as (_ & _ & _ & L8 & L9).
  pose proof (le24_at_range buf 2). pose proof (le24_at_range buf 5).
  pose proof (le24_at_range buf 9). pose proof (le24_at_range buf 13).
  pose proof (le24_at_range buf 16).
  pose proof (byte_at_range buf 8). pose proof (byte_at_range buf 12).
  pose proof (byte_at_range buf 19). pose proof (byte_at_range buf 20).
  assert (forall x, Z.even (x + 1) = Z.odd x) as Hev
    by (intros x; rewrite Z.even_add, <- Z.negb_odd; simpl; by destruct (Z.odd x)).
  assert (forall i c x v, _CONFIG_CHECKS !! i = Some c ->
            decoded buf !! cc_attr c = Some x -> as_int x = Some v ->
            verdict (decoded buf) c = None <->
            (cc_even c = 0 \/ Z.even v = true) /\ cc_vmin c <= v <= cc_vmax c) as Hrow
    by (intros i c x v _; apply verdict_int_None).
  unfold _CONFIG_CHECKS. rewrite !Forall_cons.
  rewrite (Hrow 0%nat _ _ _ eq_refl L1 eq_refl), (Hrow 1%nat _ _ _ eq_refl L2 eq_refl),
    (Hrow 2%nat _ _ _ eq_refl L3 eq_refl), (Hrow 3%nat _ _ _ eq_refl L4 eq_refl),
    (Hrow 4%nat _ _ _ eq_refl L5 eq_refl), (Hrow 5%nat _ _ _ eq_refl L6 eq_refl),
    (Hrow 6%nat _ _ _ eq_refl L7 eq_refl), (Hrow 7%nat _ _ _ eq_refl L8 eq_refl),
    (Hrow 8%nat _ _ _ eq_refl L9 eq_refl).
  cbn [cc_even cc_vmin cc_vmax]. unfold LIMIT_FIN_MIN, LIMIT_FIN_MAX.
  rewrite !Hev.
  split.
  - intros (A1 & A2 & A3 & A4 & A5 & A6 & A7 & A8 & A9 & _).
    destruct A4 as [[A4|A4] ?]; [discriminate|].
    destruct A6 as [[A6|A6] ?]; [discriminate|].
    destruct A7 as [[A7|A7] ?]; [discriminate|].
    repeat split; try assumption; lia.
  - intros (A1 & A2 & A3 & [A4 ?] & A5 & [A6 ?] & [A7 ?] & A9).
    assert (le24_at buf 9 <> 0) by (intros E; rewrite E in A4; discriminate).
    assert (le24_at buf 13 <> 0) by (intros E; rewrite E in A6; discriminate).
    assert (le24_at buf 16 <> 0) by (intros E; rewrite E in A7; discriminate).
    repeat split; try (by left); try (by right); try lia; apply Forall_nil_2.
Qed.

(** An instance updated with a decoded report holds the decoded settings
    and nothing else. *)
Lemma update_decoded_fields self buf s' :
  update self (decoded buf) = (s', Ok ()) ->
  out1 s' = negb (Z.land (byte_at buf 0) OUTPUT1 =? 0) /\
  out2 s' = negb (Z.land (byte_at buf 0) OUTPUT2 =? 0) /\
  level s' = byte_at buf 1 /\
  fin s' = Some (le24_at buf 2) /\ n3 s' = Some (le24_at buf 5 + 1) /\
  n2_hs s' = Some (byte_at buf 8 + 4) /\ n2_ls s' = Some (le24_at buf 9 + 1) /\
  n1_hs s' = Some (byte_at buf 12 + 4) /\ nc1_ls s' = Some (le24_at buf 13 + 1) /\
  nc2_ls s' = Some (le24_at buf 16 + 1) /\
  skew s' = Some (byte_at buf 19) /\ bw s' = Some (byte_at buf 20).
Proof.
  intros Hu.
  destruct (decoded_lookup_rest buf) as (R1 & R2 & R3 & R4 & R5).
  destruct (update_Ok_outputs self (decoded buf) s' Hu) as (O1 & O2 & O3).
  unfold kwarg in O1, O2, O3. rewrite R1 in O1. rewrite R2 in O2. rewrite R3 in O3.
  cbn [default from_option truthy as_int] in O1, O2, O3.
  destruct (decoded_lookup buf) as (L1 & L2 & L3 & L4 & L5 & L6 & L7).
  assert (forall i c x v, _CONFIG_CHECKS !! i = Some c ->
            decoded buf !! cc_attr c = Some x -> as_int x = Some v ->
            getattr s' (cc_attr c) = Some v) as Hrow.
  { intros i c x v Hi Hx Hv.
    assert (c ∈ _CONFIG_CHECKS) as Hc by (eapply list_elem_of_lookup_2, Hi).
    rewrite (update_Ok_getattr self _ s' c Hu Hc), Hx. simpl. by rewrite Hv. }
  pose proof (Hrow 0%nat _ _ _ eq_refl L1 eq_refl) as G1.
  pose proof (Hrow 1%nat _ _ _ eq_refl L2 eq_refl) as G2.
  pose proof (Hrow 2%nat _ _ _ eq_refl L3 eq_refl) as G3.
  pose proof (Hrow 3%nat _ _ _ eq_refl L4 eq_refl) as G4.
  pose proof (Hrow 4%nat _ _ _ eq_refl L5 eq_refl) as G5.
  pose proof (Hrow 5%nat _ _ _ eq_refl L6 eq_refl) as G6.
  pose proof (Hrow 6%nat _ _ _ eq_refl L7 eq_refl) as G7.
  pose proof (Hrow 7%nat _ _ _ eq_refl R4 eq_refl) as G8.
  pose proof (Hrow 8%nat _ _ _ eq_refl R5 eq_refl) as G9.
  unfold getattr in G1, G2, G3, G4, G5, G6, G7, G8, G9.
  simpl in G1, G2, G3, G4, G5, G6, G7, G8, G9.
  repeat split; assumption.
Qed.

Lemma update_decoded_configdict self buf s' :
  update self (decoded buf) = (s', Ok ()) -> configdict_of s' = decoded buf.
Proof.
  intros Hu.
  destruct (update_decoded_fields self buf s' Hu)
    as (O1 & O2 & O3 & G1 & G2 & G3 & G4 & G5 & G6 & G7 & G8 & G9).
  unfold configdict_of, decoded.
  rewrite O1, O2, O3, G1, G2, G3, G4, G5, G6, G7, G8, G9. reflexivity.
Qed.

(** X10: [read_config] with [update] on a report of 21 bytes or more. When
    the registers hold a configuration the checks of [update] accept, it
    returns the decoded dictionary and the instance then holds exactly the
    decoded settings. Otherwise it raises GPSDOConfigurationException with a
    dictionary that is not empty, and the instance is as it was: so the
    settings of a device whose NC1_LS or NC2_LS register is 0 (the divider
    1) cannot be read into the instance. *)
Theorem read_config_update (self : GPSDO) (dev : HidDevice) :
  (21 <= length (feature_report dev))%nat ->
  (registers_accepted (feature_report dev) ->
   (read_config self dev true).2 = Ok (decoded (feature_report dev)) /\
   configdict_of (read_config self dev true).1 = decoded (feature_report dev)) /\
  (~ registers_accepted (feature_report dev) ->
   exists errdict, errdict <> ∅ /\
     read_config self dev true = (self, Raise (GPSDOConfigurationException errdict))) /\
  (le24_at (feature_report dev) 13 = 0 \/ le24_at (feature_report dev) 16 = 0 ->
   ~ registers_accepted (feature_report dev)).
Proof.
  intros Hlen. set (buf := feature_report dev).
  destruct (decoded_lookup_rest buf) as (R1 & R2 & R3 & R4 & R5).
  assert ((update self (decoded buf)).2 = Ok () <-> registers_accepted buf) as Hiff.
  { rewrite update_Ok_iff, decoded_verdicts. unfold kwarg. rewrite R3.
    cbn [default from_option as_int]. unfold registers_accepted.
    pose proof (byte_at_range buf 1).
    split.
    - intros [Hv (l & [= <-] & Hl)]. split; [lia|exact Hv].
    - intros [Hl Hv]. split; [exact Hv|]. exists (byte_at buf 1). split; [done|lia]. }
  unfold read_config. fold buf. rewrite (decode_config_Ok buf Hlen).
  split; [|split].
  - intros Hacc. apply Hiff in Hacc.
    destruct (update self (decoded buf)) as [s' r] eqn:Hu. cbn [snd] in Hacc. subst r.
    cbn [fst snd]. split; [reflexivity|].
    exact (update_decoded_configdict self buf s' Hu).
  - intros Hacc.
    destruct (update_int_level self (decoded buf) _ R3) as [Hok|(errdict & Hne & Hu)].
    + exfalso. by apply Hacc, Hiff.
    + exists errdict. split; [exact Hne|]. rewrite Hu. reflexivity.
  - unfold registers_accepted.
    intros [E|E] (_ & _ & _ & _ & _ & _ & [A6 _] & [A7 _] & _);
      [rewrite E in A6|rewrite E in A7]; discriminate.
Qed.

Lemma read_config_update_witness :
  exists errdict,
    read_config init blank_device true =
    (init, Raise (GPSDOConfigurationException errdict)).
Proof.
  destruct (read_config_update init blank_device) as (_ & H & Hz); [simpl; lia|].
  destruct H as (errdict & _ & Hr); [apply Hz; left; reflexivity|].
  exists errdict. exact Hr.
Defined.

(** ** Reading, then writing *)

Lemma decode_config_short buf :
  (length buf < 21)%nat ->
  decode_config buf = Raise IndexError \/ decode_config buf = Raise StructError.
Proof.
  intros Hlt.
  do 21 (destruct buf as [|? buf]; [first [by left | by right]|]).
  simpl in Hlt. lia.
Qed.

Lemma decode_config_Ok_inv buf d :
  decode_config buf = Ok d -> (21 <= length buf)%nat /\ d = decoded buf.
Proof.
  intros H. destruct (le_lt_dec 21 (length buf)) as [Hle|Hlt].
  - split; [exact Hle|]. rewrite (decode_config_Ok buf Hle) in H. congruence.
  - destruct (decode_config_short buf Hlt) as [E|E]; rewrite E in H; discriminate.
Qed.

(** What a [read] that returns has done. *)
Lemma read_Ok_inv self dev u self' d :
  read self dev u = (self', Ok d) ->
  exists status,
    read_status dev = Ok status /\ (21 <= length (feature_report dev))%nat /\
    d = decoded (feature_report dev) ∪ status /\
    (if u then update self (decoded (feature_report dev)) = (self', Ok ())
     else self' = self).
Proof.
  unfold read, read_config. intros H.
  destruct (read_status dev) as [status|e]; [|discriminate].
  destruct (decode_config (feature_report dev)) as [c|e] eqn:Hc; [|discriminate].
  apply decode_config_Ok_inv in Hc as [Hlen ->].
  exists status. split; [reflexivity|]. split; [exact Hlen|].
  destruct u.
  - destruct (update self (decoded (feature_report dev))) as [s' [[]|e]] eqn:Hu;
      [|discriminate].
    split; congruence.
  - split; congruence.
Qed.

Lemma read_status_keys dev status k :
  read_status dev = Ok status -> is_Some (status !! k) ->
  k ∈ ["loss_count"; "sat_lock"; "pll_lock"].
Proof.
  unfold read_status. intros H [v Hv].
  destruct (index (input_report dev) 0) as [b0|]; [|discriminate].
  destruct (index (input_report dev) 1) as [b1|]; [|discriminate].
  cbn [bind] in H.
  assert (status = <["loss_count" := PyInt b0]>
            (<["sat_lock" := PyBool (negb (negb (Z.land b1 1 =? 0)))]>
            (<["pll_lock" := PyBool (negb (negb (Z.land b1 2 =? 0)))]> ∅))) as ->
    by congruence.
  repeat (apply lookup_insert_Some in Hv as [[<- _]|[_ Hv]];
          [repeat first [apply list_elem_of_here | apply list_elem_of_further]|]).
  rewrite lookup_empty in Hv. discriminate.
Qed.

(** The dictionary [read] returns has the twelve settings as decoded. *)
Lemma read_Ok_settings self dev u self' d k v :
  read self dev u = (self', Ok d) ->
  decoded (feature_report dev) !! k = Some v -> d !! k = Some v.
Proof.
  intros H Hk. apply read_Ok_inv in H as (status & _ & _ & -> & _).
  by apply lookup_union_Some_l.
Qed.

Lemma write_agrees_result self dev ign configdict freq errdict :
  plan self ign = Ok (freq, errdict, false) ->
  (read self dev false).2 = Ok configdict -> agrees self configdict ->
  write self dev false ign = (dev, Ok ()).
Proof.
  intros Hp Hread Hag. unfold write. rewrite freqplan_unfold, Hp, Hread.
  pose proof (agrees_fields self configdict Hag) as Hall.
  apply Forall_app in Hall as [Hpll Hall]. apply Forall_app in Hall as [Hlvl Hout].
  rewrite !upload_same by (by apply any_differs_same). reflexivity.
Qed.

(** X11: after a [read] that has updated the instance, [write] without
    [overwrite] transmits nothing, whatever the instance held before: the
    device is read again, and its dictionary agrees with the instance on
    the twelve settings. The call returns when the frequency plan of the
    settings read has no error and raises GPSDOConfigurationException when
    it has one; it raises nothing else. *)
Theorem read_then_write (self self' : GPSDO) (dev : HidDevice) (ign : bool)
    (d : gmap string PyVal) :
  read self dev true = (self', Ok d) ->
  agrees self' d /\
  (write self' dev false ign).1 = dev /\
  match plan self' ign with
  | Ok (_, _, false) => (write self' dev false ign).2 = Ok ()
  | Ok (_, errdict, true) =>
      (write self' dev false ign).2 =
      Raise (GPSDOConfigurationException (reported errdict))
  | Raise _ => False
  end.
Proof.
  intros Hread.
  pose proof Hread as Hinv.
  apply read_Ok_inv in Hinv as (status & Hst & Hlen & Hd & Hu).
  pose proof (update_decoded_configdict self _ self' Hu) as Hcd.
  assert (agrees self' d) as Hag.
  { intros k [v Hv]. rewrite Hv. rewrite Hcd in Hv.
    eapply read_Ok_settings; eassumption. }
  assert ((read self' dev false).2 = Ok d) as Hread'.
  { unfold read, read_config. rewrite Hst, (decode_config_Ok _ Hlen). cbn [snd].
    congruence. }
  split; [exact Hag|]. split; [by apply (write_agrees self' dev ign d)|].
  destruct (plan_returns self' ign (update_decoded_no_zero self _ self' Hu))
    as [[[freq errdict] flag] Hp].
  rewrite Hp. destruct flag.
  - unfold write. rewrite freqplan_unfold, Hp. reflexivity.
  - by rewrite (write_agrees_result self' dev ign d freq errdict).
Qed.

Lemma read_then_write_witness :
  agrees (read init synced_device true).1
         (decoded (feature_report synced_device) ∪
          <["loss_count" := PyInt 0]> (<["sat_lock" := PyBool true]>
          (<["pll_lock" := PyBool true]> ∅))) /\
  (write (read init synced_device true).1 synced_device false true).1 = synced_device.
Proof.
  assert (exists s', read init synced_device true =
            (s', Ok (decoded (feature_report synced_device) ∪
                     <["loss_count" := PyInt 0]> (<["sat_lock" := PyBool true]>
                     (<["pll_lock" := PyBool true]> ∅))))) as [s' Hr].
  { unfold read, read_config.
    rewrite (decode_config_Ok (feature_report synced_device)) by (simpl; lia).
    assert ((update init (decoded (feature_report synced_device))).2 = Ok ()) as Hu
      by (vm_compute; reflexivity).
    destruct (update init (decoded (feature_report synced_device))) as [s' r].
    cbn [snd] in Hu. subst r. exists s'. reflexivity. }
  rewrite Hr. cbn [fst].
  destruct (read_then_write init s' synced_device true _ Hr) as (Ha & Hw & _).
  split; assumption.
Defined.

(** ** write: what is transmitted *)






(** ** write: what it raises *)






(** ** Decoding, then encoding *)

Lemma low_byte_mod z : low_byte (z mod 256) = low_byte z.
Proof. unfold low_byte. by rewrite Z.mod_mod. Qed.

Lemma le3_le24_at buf i :
  le3 (le24_at buf i) =
  [nth i buf Byte.x00; nth (i + 1) buf Byte.x00; nth (i + 2) buf Byte.x00].
Proof.
  unfold le3, le24_at, byte_at.
  set (b0 := nth i buf Byte.x00). set (b1 := nth (i + 1) buf Byte.x00).
  set (b2 := nth (i + 2) buf Byte.x00).
  pose proof (byte_to_Z_range b0). pose proof (byte_to_Z_range b1).
  pose proof (byte_to_Z_range b2).
  set (z := byte_to_Z b0 + 256 * byte_to_Z b1 + 65536 * byte_to_Z b2).
  assert (z mod 256 = byte_to_Z b0) as E0
    by (symmetry; apply (Z.mod_unique_pos _ _ (byte_to_Z b1 + 256 * byte_to_Z b2));
        unfold z; lia).
  assert (z / 256 = byte_to_Z b1 + 256 * byte_to_Z b2) as E1
    by (symmetry; apply (Z.div_unique_pos _ _ _ (byte_to_Z b0)); unfold z; lia).
  assert (z / 65536 = byte_to_Z b2) as E2
    by (symmetry; apply (Z.div_unique_pos _ _ _ (byte_to_Z b0 + 256 * byte_to_Z b1));
        unfold z; lia).
  assert ((z / 256) mod 256 = byte_to_Z b1) as E3
    by (rewrite E1; symmetry; apply (Z.mod_unique_pos _ _ (byte_to_Z b2)); lia).
  rewrite <- (low_byte_mod z), <- (low_byte_mod (z / 256)), E0, E2, E3.
  by rewrite !low_byte_byte_to_Z.
Qed.

Lemma output_flags_byte b :
  Z.lor (Z.lor 0 (if negb (Z.land (byte_to_Z b) OUTPUT1 =? 0) then OUTPUT1 else 0))
        (if negb (Z.land (byte_to_Z b) OUTPUT2 =? 0) then OUTPUT2 else 0) =
  Z.land (byte_to_Z b) 3.
Proof. destruct b; reflexivity. Qed.

(** X14: decoding, then encoding. After [read_config] has updated the
    instance from a feature report, the three reports [write] builds from
    the instance carry the bytes of that report: bytes 1..19 of the PLL
    report are bytes 2..20 of the feature report, byte 1 of the level
    report is its byte 1, and byte 1 of the output report is its byte 0
    with all but the two output flags cleared. *)
Theorem decode_then_encode (self self' : GPSDO) (dev : HidDevice)
    (d : gmap string PyVal) :
  read_config self dev true = (self', Ok d) ->
  exists pll lvl out : list byte,
    pll_report self' = Ok pll /\ level_report self' = Ok lvl /\
    output_report self' = Ok out /\
    slice 1 20 pll = slice 2 21 (feature_report dev) /\
    slice 1 2 lvl = slice 1 2 (feature_report dev) /\
    slice 1 2 out = [low_byte (Z.land (byte_at (feature_report dev) 0) 3)] /\
    read_image pll lvl out =
      low_byte (Z.land (byte_at (feature_report dev) 0) 3) ::
      slice 1 21 (feature_report dev).
Proof.
  unfold read_config. generalize (feature_report dev). intros buf H.
  destruct (decode_config buf) as [c|e] eqn:Hc; [|discriminate].
  apply decode_config_Ok_inv in Hc as [Hlen ->].
  destruct (update self (decoded buf)) as [s' [[]|e]] eqn:Hu; [|discriminate].
  assert (s' = self') as -> by congruence. clear H.
  destruct (update_decoded_fields self buf self' Hu)
    as (O1 & O2 & O3 & G1 & G2 & G3 & G4 & G5 & G6 & G7 & G8 & G9).
  pose proof (le24_at_range buf 2). pose proof (le24_at_range buf 5).
  pose proof (le24_at_range buf 9). pose proof (le24_at_range buf 13).
  pose proof (le24_at_range buf 16).
  pose proof (byte_at_range buf 1). pose proof (byte_at_range buf 8).
  pose proof (byte_at_range buf 12). pose proof (byte_at_range buf 19).
  pose proof (byte_at_range buf 20).
  exists (pll_image (le24_at buf 2) (le24_at buf 5 + 1) (byte_at buf 8 + 4)
            (le24_at buf 9 + 1) (byte_at buf 12 + 4) (le24_at buf 13 + 1)
            (le24_at buf 16 + 1) (byte_at buf 19) (byte_at buf 20)),
         (level_image (byte_at buf 1)),
         (output_image (out1 self') (out2 self')).
  split; [apply pll_report_Ok; try assumption; unfold packable; lia|].
  split; [rewrite <- O3; apply level_report_Ok; lia|].
  split; [apply output_report_Ok|].
  rewrite O1, O2.
  unfold read_image, pll_image, level_image, output_image.
  rewrite !Z.add_simpl_r, !le3_le24_at.
  unfold byte_at. rewrite !low_byte_byte_to_Z, output_flags_byte.
  do 21 (destruct buf as [|? buf]; [simpl in Hlen; lia|]).
  repeat split; reflexivity.
Qed.

Lemma decode_then_encode_witness :
  exists pll lvl out : list byte,
    pll_report (read_config init synced_device true).1 = Ok pll /\
    level_report (read_config init synced_device true).1 = Ok lvl /\
    output_report (read_config init synced_device true).1 = Ok out /\
    read_image pll lvl out =
      low_byte (Z.land (byte_at (feature_report synced_device) 0) 3) ::
      slice 1 21 (feature_report synced_device).
Proof.
  assert (exists s', read_config init synced_device true =
                     (s', Ok (decoded (feature_report synced_device)))) as [s' Hr].
  { unfold read_config.
    rewrite (decode_config_Ok (feature_report synced_device)) by (simpl; lia).
    assert ((update init (decoded (feature_report synced_device))).2 = Ok ()) as Hu
      by (vm_compute; reflexivity).
    destruct (update init (decoded (feature_report synced_device))) as [s' r].
    cbn [snd] in Hu. subst r. exists s'. reflexivity. }
  rewrite Hr. cbn [fst].
  destruct (decode_then_encode init s' synced_device _ Hr)
    as (pll & lvl & out & Hp & Hl & Ho & _ & _ & _ & Hi).
  exists pll, lvl, out. repeat split; assumption.
Defined.

(** ** _scale_freq *)

Lemma frac_lt_int_false x k : frac_lt_int x k = false <-> (inject_Z k <= x)%Q.
Proof.
  unfold frac_lt_int. rewrite negb_false_iff. apply Qle_bool_iff.
Qed.

(** X15: [_scale_freq] on a Fraction. A value below 1000 (a negative one
    too) is returned as it is with "Hz"; a value from 10^3, 10^6 or 10^9
    up to the next power is divided by that power and labelled "kHz",
    "MHz" or "GHz". A value of 10^12 and more leaves the loop after four
    divisions: it is returned divided by 10^12, and labelled "GHz" all the
    same. [None] gives the pair of [None]. *)
Theorem scale_freq_units (v : Q) :
  _scale_freq None = (None, None) /\
  exists x u, _scale_freq (Some v) = (Some x, Some u) /\
    (((v < inject_Z 1000)%Q /\ u = "Hz" /\ x = v) \/
     ((inject_Z 1000 <= v)%Q /\ (v < inject_Z (10^6))%Q /\ u = "kHz" /\
      (x == v / inject_Z 1000)%Q) \/
     ((inject_Z (10^6) <= v)%Q /\ (v < inject_Z (10^9))%Q /\ u = "MHz" /\
      (x == v / inject_Z (10^6))%Q) \/
     ((inject_Z (10^9) <= v)%Q /\ (v < inject_Z (10^12))%Q /\ u = "GHz" /\
      (x == v / inject_Z (10^9))%Q) \/
     ((inject_Z (10^12) <= v)%Q /\ u = "GHz" /\ (x == v / inject_Z (10^12))%Q)).
Proof.
  split; [reflexivity|].
  unfold _scale_freq. cbn [scale_freq_loop].
  set (x1 := Qred (v / inject_Z 1000)).
  set (x2 := Qred (x1 / inject_Z 1000)).
  set (x3 := Qred (x2 / inject_Z 1000)).
  set (x4 := Qred (x3 / inject_Z 1000)).
  assert (x1 == v / inject_Z 1000)%Q as H1 by apply Qred_correct.
  assert (x2 == x1 / inject_Z 1000)%Q as H2 by apply Qred_correct.
  assert (x3 == x2 / inject_Z 1000)%Q as H3 by apply Qred_correct.
  assert (x4 == x3 / inject_Z 1000)%Q as H4 by apply Qred_correct.
  clearbody x1 x2 x3 x4.
  change (inject_Z (10^6)) with 1000000%Q. change (inject_Z (10^9)) with 1000000000%Q.
  change (inject_Z (10^12)) with 1000000000000%Q.
  assert (v == 1000 * x1)%Q as E1
    by (rewrite H1; change (inject_Z 1000) with 1000%Q; field).
  assert (x1 == 1000 * x2)%Q as E2
    by (rewrite H2; change (inject_Z 1000) with 1000%Q; field).
  assert (x2 == 1000 * x3)%Q as E3
    by (rewrite H3; change (inject_Z 1000) with 1000%Q; field).
  assert (x3 == 1000 * x4)%Q as E4
    by (rewrite H4; change (inject_Z 1000) with 1000%Q; field).
  clear H1 H2 H3 H4.
  destruct (frac_lt_int v 1000) eqn:C0.
  { apply frac_lt_int_true in C0. exists v, "Hz". split; [reflexivity|]. left. done. }
  apply frac_lt_int_false in C0.
  destruct (frac_lt_int x1 1000) eqn:C1.
  { apply frac_lt_int_true in C1. exists x1, "kHz". split; [reflexivity|].
    right; left. change (inject_Z 1000) with 1000%Q in *.
    split; [exact C0|]. split; [lra|]. split; [reflexivity|].
    rewrite E1. field. }
  apply frac_lt_int_false in C1.
  destruct (frac_lt_int x2 1000) eqn:C2.
  { apply frac_lt_int_true in C2. exists x2, "MHz". split; [reflexivity|].
    right; right; left. change (inject_Z 1000) with 1000%Q in *.
    split; [lra|]. split; [lra|]. split; [reflexivity|].
    assert (v == 1000000 * x2)%Q as -> by lra. field. }
  apply frac_lt_int_false in C2.
  destruct (frac_lt_int x3 1000) eqn:C3.
  { apply frac_lt_int_true in C3. exists x3, "GHz". split; [reflexivity|].
    do 3 right; left. change (inject_Z 1000) with 1000%Q in *.
    split; [lra|]. split; [lra|]. split; [reflexivity|].
    assert (v == 1000000000 * x3)%Q as -> by lra. field. }
  apply frac_lt_int_false in C3.
  exists x4, "GHz". split; [reflexivity|].
  do 4 right. change (inject_Z 1000) with 1000%Q in *.
  split; [lra|]. split; [reflexivity|].
  assert (v == 1000000000000 * x4)%Q as -> by lra. field.
Qed.

(** ** identify *)

(** X16: [identify] transmits one report of 60 bytes, the command 2, the
    output and 58 zero bytes, when the output is a byte; any other integer
    (such as -1 or 256) makes [bytes] raise [ValueError], and nothing is
    transmitted. The reports of the device are not touched. *)
Theorem identify_outcomes (dev : HidDevice) (output : Z) :
  (0 <= output <= 255 ->
   identify dev output =
   (mkHid (input_report dev) (feature_report dev)
          (sent dev ++ [low_byte _COMMAND_IDENTIFY :: low_byte output ::
                        replicate 58 Byte.x00]), Ok ())) /\
  (~ 0 <= output <= 255 -> identify dev output = (dev, Raise ValueError)).
Proof.
  unfold identify, blank_report. cbn [replicate list_insert insert]. split.
  - intros Hr.
    assert (output = byte_to_Z (low_byte output)) as Hb
      by (rewrite byte_to_Z_low_byte, Z.mod_small; lia).
    rewrite Hb at 1.
    change (bytes_of (byte_to_Z <$> (low_byte _COMMAND_IDENTIFY :: low_byte output ::
                                     replicate 58 Byte.x00))) with
      (bytes_of (_COMMAND_IDENTIFY :: byte_to_Z (low_byte output) :: replicate 58 0)).
    rewrite <- Hb at 1.
    pose proof (bytes_of_bytes (low_byte _COMMAND_IDENTIFY :: low_byte output ::
                                replicate 58 Byte.x00)) as Hbs.
    rewrite fmap_cons, fmap_cons in Hbs. rewrite <- Hb in Hbs.
    change (byte_to_Z (low_byte _COMMAND_IDENTIFY)) with _COMMAND_IDENTIFY in Hbs.
    change (byte_to_Z <$> replicate 58 Byte.x00) with (replicate 58 0) in Hbs.
    cbn [replicate] in Hbs. rewrite Hbs. reflexivity.
  - intros Hn. cbn [bytes_of].
    change ((0 <=? _COMMAND_IDENTIFY) && (_COMMAND_IDENTIFY <=? 255)) with true.
    cbn iota.
    destruct (Z.leb_spec 0 output), (Z.leb_spec output 255); cbn [andb bind];
      try reflexivity. lia.
Qed.

Lemma identify_outcomes_witness :
  identify blank_device OUTPUT1 =
  (mkHid (input_report blank_device) (feature_report blank_device)
         [low_byte _COMMAND_IDENTIFY :: low_byte OUTPUT1 :: replicate 58 Byte.x00], Ok ()).
Proof.
  apply (proj1 (identify_outcomes blank_device OUTPUT1)). unfold OUTPUT1. lia.
Defined.

(** ** Device selection *)

Lemma matches_true serial device d :
  GPSDODevice.matches serial device d = true <->
  (forall s, serial = Some s -> serial_number d = s) /\
  (forall p, device = Some p -> path d = p).
Proof.
  unfold GPSDODevice.matches. rewrite andb_true_iff, !negb_true_iff.
  destruct serial as [s|], device as [p|].
  - rewrite !negb_false_iff, String.eqb_eq, bool_decide_eq_true.
    split; [intros [-> ->]; split; congruence|].
    intros [H1 H2]. by rewrite (H1 s eq_refl), (H2 p eq_refl).
  - rewrite !negb_false_iff, String.eqb_eq.
    split; [intros [-> _]; split; congruence|].
    intros [H1 _]. by rewrite (H1 s eq_refl).
  - rewrite !negb_false_iff, bool_decide_eq_true.
    split; [intros [_ ->]; split; congruence|].
    intros [_ H2]. by rewrite (H2 p eq_refl).
  - split; [intros _; split; discriminate|done].
Qed.

Lemma filter_elem hid serial device d :
  d ∈ GPSDODevice.filter hid serial device <->
  d ∈ hid /\ (vendor_id d, product_id d) ∈ USBIDS /\
  (forall s, serial = Some s -> serial_number d = s) /\
  (forall p, device = Some p -> path d = p).
Proof.
  unfold GPSDODevice.filter, GPSDODevice.enumerate.
  rewrite !list_elem_of_filter, matches_true. tauto.
Qed.

(** X17: device selection. [filter] yields, in the order of the
    enumeration, the descriptors with a USB id of the table that have the
    serial number and the path asked for; without criteria it yields what
    [enumerate] does. [open] takes a descriptor only when it is the single
    one yielded: the descriptor then has a USB id of the table and meets
    the criteria, and every descriptor of the enumeration that does so is
    equal to it. In every other case, none or several yielded, [open]
    raises [ValueError]. *)
Theorem open_selects (hid_enumerate : list DeviceInfo) (serial : option string)
    (device : option (list byte)) :
  GPSDODevice.filter hid_enumerate None None = GPSDODevice.enumerate hid_enumerate /\
  GPSDODevice.filter hid_enumerate serial device `sublist_of` hid_enumerate /\
  (forall d, d ∈ GPSDODevice.filter hid_enumerate serial device <->
     d ∈ hid_enumerate /\ (vendor_id d, product_id d) ∈ USBIDS /\
     (forall s, serial = Some s -> serial_number d = s) /\
     (forall p, device = Some p -> path d = p)) /\
  match GPSDODevice.open hid_enumerate serial device with
  | Ok d =>
      GPSDODevice.filter hid_enumerate serial device = [d] /\
      forall d', d' ∈ hid_enumerate -> (vendor_id d', product_id d') ∈ USBIDS ->
                 (forall s, serial = Some s -> serial_number d' = s) ->
                 (forall p, device = Some p -> path d' = p) -> d' = d
  | Raise e =>
      e = ValueError /\
      (length (GPSDODevice.filter hid_enumerate serial device) <> 1)%nat
  end.
Proof.
  split; [|split; [|split]].
  - unfold GPSDODevice.filter.
    induction (GPSDODevice.enumerate hid_enumerate) as [|d l IH]; [reflexivity|].
    rewrite filter_cons_True by reflexivity. by rewrite IH.
  - unfold GPSDODevice.filter, GPSDODevice.enumerate.
    etransitivity; apply sublist_filter.
  - intros d. apply filter_elem.
  - unfold GPSDODevice.open.
    pose proof (filter_elem hid_enumerate serial device) as Hel.
    destruct (GPSDODevice.filter hid_enumerate serial device) as [|d [|d2 l]].
    + split; [reflexivity|]. simpl. lia.
    + split; [reflexivity|].
      intros d' H1 H2 H3 H4.
      assert (d' ∈ [d]) as Hin by (apply Hel; tauto).
      apply list_elem_of_singleton in Hin. exact Hin.
    + split; [reflexivity|]. simpl. lia.
Qed.

(** ** parser_get_config *)

Lemma LEVEL_VALUE_cases v :
  (exists l, LEVEL_VALUE v = Ok l /\ 0 <= l <= 3 /\ v = PyInt (8 * (l + 1))) \/
  (LEVEL_VALUE v = Raise KeyError /\
   v <> PyInt 8 /\ v <> PyInt 16 /\ v <> PyInt 24 /\ v <> PyInt 32).
Proof.
  destruct v as [|b|z|s];
    try (right; split; [reflexivity|repeat split; discriminate]).
  - right. split; [by destruct b|repeat split; discriminate].
  - destruct z as [|p|p];
      try (right; split; [reflexivity|repeat split; discriminate]).
    do 6 (try (destruct p as [p|p|];
               first [ right; split; [reflexivity|repeat split; discriminate]
                     | left; exists 0; split; [reflexivity|split; [lia|reflexivity]]
                     | left; exists 1; split; [reflexivity|split; [lia|reflexivity]]
                     | left; exists 2; split; [reflexivity|split; [lia|reflexivity]]
                     | left; exists 3; split; [reflexivity|split; [lia|reflexivity]]
                     | idtac ])).
Qed.

Lemma verdict_kwarg kwargs kwargs' c :
  kwarg kwargs' (cc_attr c) = kwarg kwargs (cc_attr c) ->
  verdict kwargs' c = verdict kwargs c.
Proof.
  unfold verdict, kwarg. intros H.
  destruct (kwargs' !! cc_attr c) as [[]|], (kwargs !! cc_attr c) as [[]|];
    cbn [default from_option id] in H; try discriminate H; try reflexivity;
    injection H as ->; reflexivity.
Qed.

(** The dictionary of [parser_get_config] before the level is looked at. *)
Lemma parser_get_config_lookup (args : gmap string PyVal) :
  let result :=
    foldl (fun (result : gmap string PyVal) attr => <[attr := kwarg args attr]> result) ∅
          [ "fin"; "n3"; "n2_hs"; "n2_ls"; "n1_hs"; "nc1_ls"; "nc2_ls"; "skew"; "bw";
            "out1"; "out2" ] in
  (forall attr, attr ∈ [ "fin"; "n3"; "n2_hs"; "n2_ls"; "n1_hs"; "nc1_ls"; "nc2_ls";
                         "skew"; "bw"; "out1"; "out2" ] ->
                result !! attr = Some (kwarg args attr)) /\
  result !! "level" = None.
Proof.
  cbn [foldl]. split.
  - intros attr Hin.
    repeat (apply elem_of_cons in Hin as [->|Hin]);
      [ | | | | | | | | | | | inversion Hin];
      repeat (rewrite lookup_insert_ne by done); apply lookup_insert_eq.
  - repeat (rewrite lookup_insert_ne by done). apply lookup_empty.
Qed.

(** X18: [parser_get_config]. It raises [KeyError], and only that, when
    a level is given that is not one of the currents 8, 16, 24 and 32 (mA).
    Otherwise the dictionary holds each of the eleven other options as
    given, [None] when absent, and the level code 0..3 of the current when
    a level is given, no "level" key when not. [update] therefore never
    objects to the level of such a dictionary: it accepts the dictionary
    exactly when no row of [_CONFIG_CHECKS] objects to an option, and with
    no option given it returns and leaves the instance as it was. *)
Theorem parser_get_config_update (args : gmap string PyVal) :
  match parser_get_config args with
  | Ok kw =>
      (forall attr, attr ∈ [ "fin"; "n3"; "n2_hs"; "n2_ls"; "n1_hs"; "nc1_ls"; "nc2_ls";
                             "skew"; "bw"; "out1"; "out2" ] ->
                    kw !! attr = Some (kwarg args attr)) /\
      ((kwarg args "level" = PyNone /\ kw !! "level" = None) \/
       (exists l, 0 <= l <= 3 /\ kwarg args "level" = PyInt (8 * (l + 1)) /\
                  kw !! "level" = Some (PyInt l))) /\
      forall self : GPSDO,
        ((update self kw).2 = Ok () <->
         Forall (fun c => verdict args c = None) _CONFIG_CHECKS) /\
        ((forall attr, kwarg args attr = PyNone) -> update self kw = (self, Ok ()))
  | Raise e =>
      e = KeyError /\ kwarg args "level" <> PyNone /\
      kwarg args "level" <> PyInt 8 /\ kwarg args "level" <> PyInt 16 /\
      kwarg args "level" <> PyInt 24 /\ kwarg args "level" <> PyInt 32
  end.
Proof.
  pose proof (parser_get_config_lookup args) as Hbase.
  unfold parser_get_config.
  set (result := foldl _ ∅ _) in *. cbv zeta in Hbase. destruct Hbase as [Hattr Hnl].
  clearbody result.
  assert (forall kw : gmap string PyVal,
            (forall attr, attr ∈ [ "fin"; "n3"; "n2_hs"; "n2_ls"; "n1_hs"; "nc1_ls";
                                   "nc2_ls"; "skew"; "bw"; "out1"; "out2" ] ->
                          kw !! attr = Some (kwarg args attr)) ->
            (kw !! "level" = None \/ exists l, 0 <= l <= 3 /\ kw !! "level" = Some (PyInt l)) ->
            forall self : GPSDO,
              ((update self kw).2 = Ok () <->
               Forall (fun c => verdict args c = None) _CONFIG_CHECKS) /\
              ((forall attr, kwarg args attr = PyNone) -> kw !! "level" = None ->
               update self kw = (self, Ok ()))) as Hupd.
  { intros kw Hkw Hlv self.
    assert (forall c, c ∈ _CONFIG_CHECKS -> kw !! cc_attr c = Some (kwarg args (cc_attr c)))
      as Hrow.
    { intros c Hc. apply Hkw. unfold _CONFIG_CHECKS in Hc.
      repeat (apply elem_of_cons in Hc as [->|Hc]); [ | | | | | | | | | inversion Hc];
        cbn [cc_attr]; repeat first [apply list_elem_of_here | apply list_elem_of_further]. }
    assert (Forall (fun c => verdict kw c = None) _CONFIG_CHECKS <->
            Forall (fun c => verdict args c = None) _CONFIG_CHECKS) as Hv.
    { assert (forall c, c ∈ _CONFIG_CHECKS ->
                kwarg kw (cc_attr c) = kwarg args (cc_attr c)) as Hk
        by (intros c Hc; unfold kwarg at 1; by rewrite (Hrow c Hc)).
      rewrite !Forall_forall. split; intros H c Hc.
      - rewrite (verdict_kwarg kw args c) by (symmetry; by apply Hk). by apply H.
      - rewrite (verdict_kwarg args kw c) by (by apply Hk). by apply H. }
    assert ((update self kw).2 = Ok () <->
            Forall (fun c => verdict args c = None) _CONFIG_CHECKS) as Hiff.
    { rewrite update_Ok_iff, Hv. unfold kwarg at 1.
      destruct Hlv as [->|(l & Hl & ->)]; cbn [default from_option id].
      - tauto.
      - split; [tauto|]. intros H. split; [exact H|]. exists l. split; [reflexivity|lia]. }
    split; [exact Hiff|].
    intros Hnone Hnl'.
    assert ((update self kw).2 = Ok ()) as Hok.
    { apply Hiff. rewrite Forall_forall. intros c Hc. unfold verdict.
      pose proof (Hnone (cc_attr c)) as Hn. unfold kwarg in Hn.
      destruct (args !! cc_attr c) as [[]|]; cbn [default from_option id] in Hn;
        try discriminate Hn; reflexivity. }
    destruct (update self kw) as [s' r] eqn:Hu. cbn [snd] in Hok. subst r.
    f_equal.
    destruct (update_Ok_outputs self kw s' Hu) as (O1 & O2 & O3).
    assert (kwarg kw "out1" = PyNone) as K1.
    { unfold kwarg.
      rewrite (Hkw "out1") by repeat first [apply list_elem_of_here | apply list_elem_of_further].
      apply Hnone. }
    assert (kwarg kw "out2" = PyNone) as K2.
    { unfold kwarg.
      rewrite (Hkw "out2") by repeat first [apply list_elem_of_here | apply list_elem_of_further].
      apply Hnone. }
    assert (kwarg kw "level" = PyNone) as K3 by (unfold kwarg; by rewrite Hnl').
    rewrite K1 in O1. rewrite K2 in O2. rewrite K3 in O3. cbn [as_int] in O3.
    apply GPSDO_ext; try assumption.
    intros c Hc. rewrite (update_Ok_getattr self kw s' c Hu Hc), (Hrow c Hc), Hnone.
    reflexivity. }
  destruct (kwarg args "level") as [|b|z|s] eqn:Hl.
  - split; [exact Hattr|]. split; [left; by split|].
    intros self. destruct (Hupd result Hattr (or_introl Hnl) self) as [H1 H2].
    split; [exact H1|]. intros Hnone. by apply H2.
  - destruct (LEVEL_VALUE_cases (PyBool b)) as [(l & _ & _ & ?)|[-> _]]; [discriminate|].
    cbn [bind]. repeat split; discriminate.
  - destruct (LEVEL_VALUE_cases (PyInt z)) as [(l & -> & Hr & Hz)|[-> Hne]]; cbn [bind].
    + assert (forall attr, attr ∈ [ "fin"; "n3"; "n2_hs"; "n2_ls"; "n1_hs"; "nc1_ls";
                                    "nc2_ls"; "skew"; "bw"; "out1"; "out2" ] ->
                <["level" := PyInt l]> result !! attr = Some (kwarg args attr)) as Hattr'.
      { intros attr Hin. rewrite lookup_insert_ne; [by apply Hattr|].
        intros <-. rewrite Hattr in Hnl by exact Hin. discriminate. }
      split; [exact Hattr'|].
      split; [right; exists l; split; [exact Hr|]; split; [exact Hz|apply lookup_insert_eq]|].
      intros self.
      destruct (Hupd (<["level" := PyInt l]> result) Hattr'
                  (or_intror (ex_intro _ l (conj Hr (lookup_insert_eq _ _ _)))) self)
        as [H1 _].
      split; [exact H1|]. intros Hnone. rewrite Hnone in Hl. discriminate.
    + split; [reflexivity|]. split; [discriminate|]. exact Hne.
  - destruct (LEVEL_VALUE_cases (PyStr s)) as [(l & _ & _ & ?)|[-> _]]; [discriminate|].
    cbn [bind]. repeat split; discriminate.
Qed.

(** ** asdict and write: the same validity check *)




